(** * memsafi: an LD_PRELOAD allocation profiler

    A shallow embedding of [include/library.h] and [src/library.cpp]:
    the statistics store [SafiStats], the control block [SafiControl],
    the bootstrap allocator [__temp_malloc], the four interposed heap
    primitives and the reporting thread, followed by the properties
    proved about them. *)

From Stdlib Require Import ZArith List String Ascii Bool Lia DecimalString.
Import ListNotations.
Local Open Scope Z_scope.

(** ** Machine integers

    [int64_t] and [size_t] values are integers of [Z]; every wrap-around
    of the C++ arithmetic is written out. *)

Module Int64.

Definition modulus : Z := 2 ^ 64.
Definition half_modulus : Z := 2 ^ 63.

(** The two's-complement representative of [z] in [-2^63, 2^63). *)
Definition wrap (z : Z) : Z := (z + half_modulus) mod modulus - half_modulus.

Definition in_range (z : Z) : Prop := - half_modulus <= z < half_modulus.

(** [std::atomic<int64_t>] addition and subtraction wrap around. *)
Definition add (a b : Z) : Z := wrap (a + b).
Definition sub (a b : Z) : Z := wrap (a - b).

(** Conversion of a [size_t] argument to the [int64_t] operand of
    [operator+=] and [operator-=]. *)
Definition of_size_t (u : Z) : Z := wrap u.

End Int64.

Module SizeT.

Definition modulus : Z := 2 ^ 64.

(** [size_t] arithmetic is modulo [2^64]. *)
Definition wrap (z : Z) : Z := z mod modulus.
Definition add (a b : Z) : Z := wrap (a + b).
Definition sub (a b : Z) : Z := wrap (a - b).
Definition mul (a b : Z) : Z := wrap (a * b).

Definition in_range (z : Z) : Prop := 0 <= z < modulus.

End SizeT.

(** ** The statistics store ([struct SafiStats]) *)

Record SafiStats : Type := mkSafiStats {
  m_reserved : Z;        (* bytes *)
  m_total_reserved : Z;  (* bytes *)
  m_real_peak : Z;       (* bytes *)
  m_freed : Z;           (* bytes *)
  m_num_mallocs : Z;
  m_num_callocs : Z;
  m_num_reallocs : Z;
  m_num_frees : Z;
  m_enable_trace : bool;
  m_disable_print : bool
}.

(** The member initialisers: every counter [{0}], both flags [{false}]. *)
Definition safiStats0 : SafiStats :=
  mkSafiStats 0 0 0 0 0 0 0 0 false false.

Definition set_reserved (v : Z) (s : SafiStats) : SafiStats :=
  mkSafiStats v (m_total_reserved s) (m_real_peak s) (m_freed s)
    (m_num_mallocs s) (m_num_callocs s) (m_num_reallocs s) (m_num_frees s)
    (m_enable_trace s) (m_disable_print s).

Definition set_total_reserved (v : Z) (s : SafiStats) : SafiStats :=
  mkSafiStats (m_reserved s) v (m_real_peak s) (m_freed s)
    (m_num_mallocs s) (m_num_callocs s) (m_num_reallocs s) (m_num_frees s)
    (m_enable_trace s) (m_disable_print s).

Definition set_real_peak (v : Z) (s : SafiStats) : SafiStats :=
  mkSafiStats (m_reserved s) (m_total_reserved s) v (m_freed s)
    (m_num_mallocs s) (m_num_callocs s) (m_num_reallocs s) (m_num_frees s)
    (m_enable_trace s) (m_disable_print s).

Definition set_freed (v : Z) (s : SafiStats) : SafiStats :=
  mkSafiStats (m_reserved s) (m_total_reserved s) (m_real_peak s) v
    (m_num_mallocs s) (m_num_callocs s) (m_num_reallocs s) (m_num_frees s)
    (m_enable_trace s) (m_disable_print s).

Definition set_num_mallocs (v : Z) (s : SafiStats) : SafiStats :=
  mkSafiStats (m_reserved s) (m_total_reserved s) (m_real_peak s) (m_freed s)
    v (m_num_callocs s) (m_num_reallocs s) (m_num_frees s)
    (m_enable_trace s) (m_disable_print s).

Definition set_num_callocs (v : Z) (s : SafiStats) : SafiStats :=
  mkSafiStats (m_reserved s) (m_total_reserved s) (m_real_peak s) (m_freed s)
    (m_num_mallocs s) v (m_num_reallocs s) (m_num_frees s)
    (m_enable_trace s) (m_disable_print s).

Definition set_num_reallocs (v : Z) (s : SafiStats) : SafiStats :=
  mkSafiStats (m_reserved s) (m_total_reserved s) (m_real_peak s) (m_freed s)
    (m_num_mallocs s) (m_num_callocs s) v (m_num_frees s)
    (m_enable_trace s) (m_disable_print s).

Definition set_num_frees (v : Z) (s : SafiStats) : SafiStats :=
  mkSafiStats (m_reserved s) (m_total_reserved s) (m_real_peak s) (m_freed s)
    (m_num_mallocs s) (m_num_callocs s) (m_num_reallocs s) v
    (m_enable_trace s) (m_disable_print s).

Definition set_disable_print (v : bool) (s : SafiStats) : SafiStats :=
  mkSafiStats (m_reserved s) (m_total_reserved s) (m_real_peak s) (m_freed s)
    (m_num_mallocs s) (m_num_callocs s) (m_num_reallocs s) (m_num_frees s)
    (m_enable_trace s) v.

(** [log_alloc_helper]: [m_reserved += size; m_total_reserved += size;
    m_real_peak = std::max(m_real_peak.load(), m_reserved.load())].
    The three statements run one after the other on the store. *)
Definition log_alloc_helper (size : Z) (s : SafiStats) : SafiStats :=
  let s1 := set_reserved (Int64.add (m_reserved s) (Int64.of_size_t size)) s in
  let s2 := set_total_reserved
            (Int64.add (m_total_reserved s1) (Int64.of_size_t size)) s1 in
  set_real_peak (Z.max (m_real_peak s2) (m_reserved s2)) s2.

Definition log_malloc (size : Z) (s : SafiStats) : SafiStats :=
  let s1 := log_alloc_helper size s in
  set_num_mallocs (Int64.add (m_num_mallocs s1) 1) s1.

Definition log_calloc (size : Z) (s : SafiStats) : SafiStats :=
  let s1 := log_alloc_helper size s in
  set_num_callocs (Int64.add (m_num_callocs s1) 1) s1.

Definition log_realloc (size : Z) (s : SafiStats) : SafiStats :=
  let s1 := log_alloc_helper size s in
  set_num_reallocs (Int64.add (m_num_reallocs s1) 1) s1.

Definition log_free (size : Z) (s : SafiStats) : SafiStats :=
  let s1 := set_reserved (Int64.sub (m_reserved s) (Int64.of_size_t size)) s in
  let s2 := set_freed (Int64.add (m_freed s1) (Int64.of_size_t size)) s1 in
  set_num_frees (Int64.add (m_num_frees s2) 1) s2.

Definition disablePrint (s : SafiStats) : SafiStats := set_disable_print true s.

(** The accessor returns the [m_disable_print] member as it stands. *)
Definition isPrintEnabled (s : SafiStats) : bool := m_disable_print s.

(** *** Sequences of record operations *)

Inductive record_op : Type :=
| RecMalloc (size : Z)
| RecCalloc (size : Z)
| RecRealloc (size : Z)
| RecFree (size : Z).

Definition record (s : SafiStats) (op : record_op) : SafiStats :=
  match op with
  | RecMalloc size => log_malloc size s
  | RecCalloc size => log_calloc size s
  | RecRealloc size => log_realloc size s
  | RecFree size => log_free size s
  end.

(** The store after each operation of [ops] in turn, oldest first. *)
Fixpoint history (s : SafiStats) (ops : list record_op) : list SafiStats :=
  match ops with
  | [] => []
  | op :: rest => let s' := record s op in s' :: history s' rest
  end.

(** The store after the whole of [ops]. *)
Definition final (s : SafiStats) (ops : list record_op) : SafiStats :=
  fold_left record ops s.

Definition balanced (s : SafiStats) : Prop :=
  m_reserved s = Int64.sub (m_total_reserved s) (m_freed s).

Definition peak_covers (s : SafiStats) : Prop := m_real_peak s >= m_reserved s.

(** A release keeps [m_reserved] from growing when its size is a
    non-negative [int64_t] and the subtraction does not wrap. *)
Definition release_fits (s : SafiStats) (size : Z) : bool :=
  (0 <=? size) && (size <? Int64.half_modulus)
  && (- Int64.half_modulus <=? m_reserved s - size).

Fixpoint releases_fit (s : SafiStats) (ops : list record_op) : bool :=
  match ops with
  | [] => true
  | op :: rest =>
    match op with
    | RecFree size => release_fits s size
    | _ => true
    end && releases_fit (record s op) rest
  end.

(** Every counter holds an [int64_t]. *)
Definition counters_in_range (s : SafiStats) : Prop :=
  Int64.in_range (m_reserved s) /\ Int64.in_range (m_total_reserved s) /\
  Int64.in_range (m_real_peak s) /\ Int64.in_range (m_freed s) /\
  Int64.in_range (m_num_mallocs s) /\ Int64.in_range (m_num_callocs s) /\
  Int64.in_range (m_num_reallocs s) /\ Int64.in_range (m_num_frees s).

(** ** The report ([SafiStats::print]) *)

Definition nl : string := String (ascii_of_nat 10) EmptyString.

(** [%ld] *)
Definition decimal (z : Z) : string := NilZero.string_of_int (Z.to_int z).

Definition units : list string := ["B"; "kB"; "MB"; "GB"; "TB"]%string.

(** The loop of the [print_size] lambda,
    [for (i = 0; (size / 1024) > 0 && i < length - 1; i++) size /= 1024;].
    [left] counts the iterations the bound [i < length - 1] still allows;
    [/] on [int64_t] truncates towards zero. *)
Fixpoint scale (left : nat) (i : nat) (size : Z) : nat * Z :=
  match left with
  | O => (i, size)
  | S left' =>
      if Z.quot size 1024 >? 0
      then scale left' (S i) (Z.quot size 1024)
      else (i, size)
  end.

Definition print_size (prefix : string) (size : Z) : string :=
  let length := List.length units in
  let '(i, size') := scale (length - 1) 0 size in
  (prefix ++ " " ++ decimal size' ++ " " ++ nth i units "" ++ nl)%string.

(** One string per [fprintf]; [time_buffer] is what [strftime] wrote. *)
Definition print (time_buffer : string) (s : SafiStats) : list string :=
  [ nl ++ nl ++ ">>>>>>>>>>>>> " ++ time_buffer ++ " <<<<<<<<<<<" ++ nl;
    "Overall stats (with alignement):" ++ nl;
    print_size "Currently reserved:" (m_reserved s);
    nl;
    print_size "Peak memory:" (m_real_peak s);
    print_size "Total reserved:" (m_total_reserved s);
    print_size "Total freed:" (m_freed s);
    nl;
    "Number of mallocs: " ++ decimal (m_num_mallocs s) ++ nl;
    "Number of callocs: " ++ decimal (m_num_callocs s) ++ nl;
    "Number of reallocs: " ++ decimal (m_num_reallocs s) ++ nl;
    "Number of frees: " ++ decimal (m_num_frees s) ++ nl;
    nl ]%string.

(** ** The reporting thread ([__print_safi_stats])

    [while (!safiStats.isPrintEnabled()) { sleep_for(5 s); safiStats.print(); }]
    as a machine with one step per statement, so that steps of other
    threads can be interleaved between them. The step at [AtPrint] reads
    the counters and writes the lines; what [print()] does before that,
    the allocations of its time routines, are record operations like those
    of any other call and come as [StepRecord] steps ahead of it. *)

Definition PRINT_FREQ_IN_SEC : Z := 5.

Inductive daemon_pc : Type :=
| AtLoopTest   (* about to evaluate the loop condition *)
| AtSleep      (* inside [sleep_for] *)
| AtPrint      (* about to call [safiStats.print()] *)
| Finished.    (* the loop has been left and the function returned *)

Inductive daemon_event : Type :=
| Slept (seconds : Z)
| Printed (report : list string).

Definition daemon_step (now : string) (s : SafiStats) (pc : daemon_pc)
  : daemon_pc * list daemon_event :=
  match pc with
  | AtLoopTest => if negb (isPrintEnabled s) then (AtSleep, []) else (Finished, [])
  | AtSleep => (AtPrint, [Slept PRINT_FREQ_IN_SEC])
  | AtPrint => (AtLoopTest, [Printed (print now s)])
  | Finished => (Finished, [])
  end.

(** The store is shared with the threads of the program; a schedule lists
    whose statement runs next. *)
Inductive thread_step : Type :=
| StepDaemon
| StepRecord (op : record_op)   (* a record operation of an interposed call,
                                   whichever thread makes it *)
| StepDisablePrint.             (* [safiStats.disablePrint()] in [main_hook] *)

Record system : Type := mkSystem {
  sys_stats : SafiStats;
  sys_pc : daemon_pc;
  sys_events : list daemon_event   (* oldest first *)
}.

Definition system0 : system := mkSystem safiStats0 AtLoopTest [].

Definition step (now : string) (sy : system) (t : thread_step) : system :=
  match t with
  | StepDaemon =>
      let '(pc', evs) := daemon_step now (sys_stats sy) (sys_pc sy) in
      mkSystem (sys_stats sy) pc' (sys_events sy ++ evs)
  | StepRecord op => mkSystem (record (sys_stats sy) op) (sys_pc sy) (sys_events sy)
  | StepDisablePrint => mkSystem (disablePrint (sys_stats sy)) (sys_pc sy) (sys_events sy)
  end.

Definition run (now : string) (sy : system) (sched : list thread_step) : system :=
  fold_left (step now) sched sy.

Definition is_daemon (t : thread_step) : bool :=
  match t with StepDaemon => true | _ => false end.

Definition daemon_steps (sched : list thread_step) : nat :=
  List.length (filter is_daemon sched).

(** The events one full iteration of the loop body produces. *)
Definition iteration (now : string) (s : SafiStats) : list daemon_event :=
  [Slept PRINT_FREQ_IN_SEC; Printed (print now s)].

(** The events still to come from the thread once the flag is set, by
    where it stands at that moment; [s] is the store with the flag set
    and [ops] the records made between then and the report. *)
Definition winding_down (now : string) (s : SafiStats) (pc : daemon_pc)
  (late : list daemon_event) : Prop :=
  match pc with
  | AtSleep =>
      exists ops, late = [Slept PRINT_FREQ_IN_SEC; Printed (print now (final s ops))]
  | AtPrint => exists ops, late = [Printed (print now (final s ops))]
  | AtLoopTest | Finished => late = []
  end.

(** One iteration of the loop as a schedule: the test, the sleep and the
    report, with records of other calls before each of them. *)
Definition iteration_schedule (a b c : list record_op) : list thread_step :=
  map StepRecord a ++ [StepDaemon] ++ map StepRecord b ++ [StepDaemon]
  ++ map StepRecord c ++ [StepDaemon].

(** Daemon steps needed to leave the loop once the flag is set. *)
Definition steps_to_finish (pc : daemon_pc) : nat :=
  match pc with
  | AtSleep => 3
  | AtPrint => 2
  | AtLoopTest => 1
  | Finished => 0
  end.

(** A log made of whole iterations: a sleep of the fixed interval, then a
    report, and so on. *)
Inductive sleeps_then_prints : list daemon_event -> Prop :=
| stp_nil : sleeps_then_prints []
| stp_iter (report : list string) (rest : list daemon_event) :
    sleeps_then_prints rest ->
    sleeps_then_prints (Slept PRINT_FREQ_IN_SEC :: Printed report :: rest).

(** The log of a thread standing at [pc]. *)
Definition log_shape (pc : daemon_pc) (evs : list daemon_event) : Prop :=
  match pc with
  | AtPrint => exists evs', evs = evs' ++ [Slept PRINT_FREQ_IN_SEC]
                            /\ sleeps_then_prints evs'
  | _ => sleeps_then_prints evs
  end.

(** ** The control block ([struct SafiControl]) *)

(** A pointer to one of the original functions: null, or what [dlsym]
    found for it. *)
Inductive fnptr : Type := nullptr | resolved.

Definition is_null (f : fnptr) : bool :=
  match f with nullptr => true | resolved => false end.

Record SafiControl : Type := mkSafiControl {
  debug : bool;
  pending_init : bool;
  orig_malloc : fnptr;
  orig_calloc : fnptr;
  orig_realloc : fnptr;
  orig_free : fnptr;
  orig_main : fnptr
}.

Definition safiControl0 : SafiControl :=
  mkSafiControl false false nullptr nullptr nullptr nullptr nullptr.

Definition set_debug (v : bool) (c : SafiControl) : SafiControl :=
  mkSafiControl v (pending_init c) (orig_malloc c) (orig_calloc c)
    (orig_realloc c) (orig_free c) (orig_main c).

Definition set_pending_init (v : bool) (c : SafiControl) : SafiControl :=
  mkSafiControl (debug c) v (orig_malloc c) (orig_calloc c)
    (orig_realloc c) (orig_free c) (orig_main c).

Definition set_orig_malloc (v : fnptr) (c : SafiControl) : SafiControl :=
  mkSafiControl (debug c) (pending_init c) v (orig_calloc c)
    (orig_realloc c) (orig_free c) (orig_main c).

Definition set_orig_calloc (v : fnptr) (c : SafiControl) : SafiControl :=
  mkSafiControl (debug c) (pending_init c) (orig_malloc c) v
    (orig_realloc c) (orig_free c) (orig_main c).

Definition set_orig_realloc (v : fnptr) (c : SafiControl) : SafiControl :=
  mkSafiControl (debug c) (pending_init c) (orig_malloc c) (orig_calloc c)
    v (orig_free c) (orig_main c).

Definition set_orig_free (v : fnptr) (c : SafiControl) : SafiControl :=
  mkSafiControl (debug c) (pending_init c) (orig_malloc c) (orig_calloc c)
    (orig_realloc c) v (orig_main c).

Definition set_orig_main (v : fnptr) (c : SafiControl) : SafiControl :=
  mkSafiControl (debug c) (pending_init c) (orig_malloc c) (orig_calloc c)
    (orig_realloc c) (orig_free c) v.

(** ** The process around the library *)

Definition NULL : Z := 0.

(** Memory, one byte per address: the byte every address held at first
    and the block writes made since, newest first. *)
Inductive mem_write : Type :=
| Fill (dst c n : Z)      (* [n] bytes from [dst] on set to [c] *)
| Move (dst src n : Z).   (* [n] bytes copied from [src] to [dst] *)

Definition memory : Type := (Z * list mem_write)%type.

Fixpoint load_from (writes : list mem_write) (background a : Z) : Z :=
  match writes with
  | [] => background
  | Fill dst c n :: older =>
      if (dst <=? a) && (a <? dst + n) then c else load_from older background a
  | Move dst src n :: older =>
      if (dst <=? a) && (a <? dst + n)
      then load_from older background (src + (a - dst))
      else load_from older background a
  end.

Definition load (m : memory) (a : Z) : Z := load_from (snd m) (fst m) a.

Definition memset (dst c n : Z) (m : memory) : memory :=
  (fst m, Fill dst c n :: snd m).

Definition memmove (dst src n : Z) (m : memory) : memory :=
  (fst m, Move dst src n :: snd m).

(** An allocation request that a library routine issues while it runs
    ([dlsym] for its bookkeeping, the constructor of [std::thread] for the
    state of the thread): it re-enters the interposed functions. *)
Inductive request : Type :=
| ReqMalloc (size : Z)
| ReqCalloc (num size : Z).

(** The calls a library routine makes to the four heap functions, each
    result handed to what follows, for a routine that also resizes and
    releases what it allocated. *)
Inductive routine : Type :=
| Done
| ThenMalloc (size : Z) (rest : Z -> routine)
| ThenCalloc (num size : Z) (rest : Z -> routine)
| ThenRealloc (ptr size : Z) (rest : Z -> routine)
| ThenFree (ptr : Z) (rest : routine).

(** What the library does not define itself: the next allocator in link
    order, [malloc_usable_size], the dynamic linker, and the environment. *)
Class Runtime : Type := {
  allocator : Type;
  libc_malloc : Z -> allocator * memory -> Z * (allocator * memory);
  libc_calloc : Z -> Z -> allocator * memory -> Z * (allocator * memory);
  libc_realloc : Z -> Z -> allocator * memory -> Z * (allocator * memory);
  libc_free : Z -> allocator * memory -> allocator * memory;
  malloc_usable_size : Z -> allocator * memory -> Z;
  (** the address of the static array [temp_buffer] *)
  temp_buffer : Z;
  getenv : string -> option string;
  (** [dlsym(RTLD_NEXT, name)]: the requests it issues and its result *)
  dlsym_requests : string -> list request;
  dlsym : string -> fnptr;
  (** [sizeof(std::thread)], what [new std::thread(...)] asks
      [operator new] for, and the requests of the constructor *)
  sizeof_thread : Z;
  thread_requests : list request;
  (** the heap calls of the time routines of [SafiStats::print]
      ([std::localtime] keeps the time zone data on the heap) *)
  localtime_calls : routine
}.

Inductive libc_call : Type :=
| CallMalloc (size : Z)
| CallCalloc (num size : Z)
| CallRealloc (ptr size : Z)
| CallFree (ptr : Z).

Inductive stderr_msg : Type :=
| Printf (format : string) (args : list Z)
| Report (lines : list string).

Section Interposition.

Context {R : Runtime}.

Definition TEMP_BUFFER_SIZE : Z := 80000.

(** The globals of [library.cpp], the heap behind the original functions,
    and what the process has done so far that is visible from outside: the
    calls forwarded to the original functions and the lines on [stderr]. *)
Record process : Type := mkProcess {
  safiStats : SafiStats;
  safiControl : SafiControl;
  print_thread : Z;               (* the thread object, [NULL] before [new] *)
  used_buffer_size : Z;
  heap : allocator * memory;
  libc_calls : list libc_call;    (* newest first *)
  stderr : list stderr_msg        (* newest first *)
}.

Definition set_safiStats (v : SafiStats) (p : process) : process :=
  mkProcess v (safiControl p) (print_thread p) (used_buffer_size p)
    (heap p) (libc_calls p) (stderr p).

Definition set_safiControl (v : SafiControl) (p : process) : process :=
  mkProcess (safiStats p) v (print_thread p) (used_buffer_size p)
    (heap p) (libc_calls p) (stderr p).

Definition set_print_thread (v : Z) (p : process) : process :=
  mkProcess (safiStats p) (safiControl p) v (used_buffer_size p)
    (heap p) (libc_calls p) (stderr p).

Definition set_used_buffer_size (v : Z) (p : process) : process :=
  mkProcess (safiStats p) (safiControl p) (print_thread p) v
    (heap p) (libc_calls p) (stderr p).

Definition set_heap (v : allocator * memory) (p : process) : process :=
  mkProcess (safiStats p) (safiControl p) (print_thread p) (used_buffer_size p)
    v (libc_calls p) (stderr p).

Definition set_libc_calls (v : list libc_call) (p : process) : process :=
  mkProcess (safiStats p) (safiControl p) (print_thread p) (used_buffer_size p)
    (heap p) v (stderr p).

Definition set_stderr (v : list stderr_msg) (p : process) : process :=
  mkProcess (safiStats p) (safiControl p) (print_thread p) (used_buffer_size p)
    (heap p) (libc_calls p) v.

(** How a call into the library ends: it returns, it terminates the
    process through [exit], it does not come back to its caller (a call
    through a null function pointer, a [std::bad_alloc] thrown by
    [operator new]), or its re-entrant calls nest without bound. *)
Inductive outcome (A : Type) : Type :=
| Returns (a : A) (p : process)
| Exits (status : Z) (p : process)
| Crashes (p : process)
| Overflows (p : process).

Arguments Returns {A} a p.
Arguments Exits {A} status p.
Arguments Crashes {A} p.
Arguments Overflows {A} p.

Definition M (A : Type) : Type := process -> outcome A.

Definition ret {A : Type} (a : A) : M A := fun p => Returns a p.

Definition bind {A B : Type} (m : M A) (k : A -> M B) : M B :=
  fun p =>
    match m p with
    | Returns a p' => k a p'
    | Exits status p' => Exits status p'
    | Crashes p' => Crashes p'
    | Overflows p' => Overflows p'
    end.

Definition gets {A : Type} (f : process -> A) : M A := fun p => Returns (f p) p.

Definition modify (f : process -> process) : M unit := fun p => Returns tt (f p).

Definition exit {A : Type} (status : Z) : M A := fun p => Exits status p.

Declare Scope safi_scope.
Delimit Scope safi_scope with safi.
Notation "x <- m ;; k" := (bind m (fun x => k))
  (at level 61, m at next level, right associativity) : safi_scope.
Notation "m ;; k" := (bind m (fun _ => k))
  (at level 61, right associativity) : safi_scope.
Local Open Scope string_scope.
Local Open Scope Z_scope.
Local Open Scope safi_scope.

Definition fprintf_stderr (format : string) (args : list Z) : M unit :=
  modify (fun p => set_stderr (Printf format args :: stderr p) p).

(** [__debug_msg]: silent unless [safiControl.debug]. The format strings
    are kept as the source spells them. *)
Definition __debug_msg (format : string) (args : list Z) : M unit :=
  dbg <- gets (fun p => debug (safiControl p)) ;;
  if negb dbg then ret tt else fprintf_stderr format args.

(** [__temp_malloc]; the sum [used_buffer_size + size] is a [size_t]. *)
Definition __temp_malloc (size : Z) : M Z :=
  __debug_msg "[INFO] Temp Malloc (size: %lu)\n" [size] ;;
  used <- gets used_buffer_size ;;
  if SizeT.add used size >? TEMP_BUFFER_SIZE then
    __debug_msg "[ERROR] Temp Malloc calls required more than the set max!\n" [] ;;
    exit 1
  else
    let p := temp_buffer + used in
    modify (set_used_buffer_size (SizeT.add used size)) ;;
    ret p.

Definition modify_stats (f : SafiStats -> SafiStats) : M unit :=
  modify (fun p => set_safiStats (f (safiStats p)) p).

Definition modify_control (f : SafiControl -> SafiControl) : M unit :=
  modify (fun p => set_safiControl (f (safiControl p)) p).

(** Calls through the saved pointers. *)
Definition call_orig_malloc (size : Z) : M Z :=
  f <- gets (fun p => orig_malloc (safiControl p)) ;;
  if is_null f then Crashes else
  r <- gets (fun p => libc_malloc size (heap p)) ;;
  modify (fun p => set_libc_calls (CallMalloc size :: libc_calls p) (set_heap (snd r) p)) ;;
  ret (fst r).

Definition call_orig_calloc (num size : Z) : M Z :=
  f <- gets (fun p => orig_calloc (safiControl p)) ;;
  if is_null f then Crashes else
  r <- gets (fun p => libc_calloc num size (heap p)) ;;
  modify (fun p => set_libc_calls (CallCalloc num size :: libc_calls p) (set_heap (snd r) p)) ;;
  ret (fst r).

Definition call_orig_realloc (ptr size : Z) : M Z :=
  f <- gets (fun p => orig_realloc (safiControl p)) ;;
  if is_null f then Crashes else
  r <- gets (fun p => libc_realloc ptr size (heap p)) ;;
  modify (fun p => set_libc_calls (CallRealloc ptr size :: libc_calls p) (set_heap (snd r) p)) ;;
  ret (fst r).

Definition call_orig_free (ptr : Z) : M unit :=
  f <- gets (fun p => orig_free (safiControl p)) ;;
  if is_null f then Crashes else
  modify (fun p => set_libc_calls (CallFree ptr :: libc_calls p)
                     (set_heap (libc_free ptr (heap p)) p)).

Definition usable_size (ptr : Z) : M Z :=
  gets (fun p => malloc_usable_size ptr (heap p)).

(** [if (safiControl.orig_xxx == nullptr) { __init_safi(); }] *)
Definition ensure_hooked (orig : SafiControl -> fnptr) (init : M unit) : M unit :=
  f <- gets (fun p => orig (safiControl p)) ;;
  if is_null f then init else ret tt.

(** The tail of [malloc]: the call through [orig_malloc] and its record. *)
Definition forward_malloc (size : Z) : M Z :=
  p <- call_orig_malloc size ;;
  usable <- usable_size p ;;
  modify_stats (log_malloc usable) ;;
  ret p.

(** [malloc], with the initialisation it may start as a parameter. *)
Definition malloc_body (init : M unit) (size : Z) : M Z :=
  __debug_msg "[INFO] Malloc call (size: %lu)\n" [size] ;;
  pending <- gets (fun p => pending_init (safiControl p)) ;;
  if pending then __temp_malloc size
  else
    ensure_hooked orig_malloc init ;;
    forward_malloc size.

Definition calloc_body (malloc : Z -> M Z) (num size : Z) : M Z :=
  __debug_msg "[INFO] Calloc call (num, %lu, size: %lu)\n" [num; size] ;;
  f <- gets (fun p => orig_calloc (safiControl p)) ;;
  if is_null f then
    p <- malloc (SizeT.mul num size) ;;
    (if negb (p =? NULL)
     then modify (fun pr => set_heap (fst (heap pr),
                                      memset p 0 (SizeT.mul num size) (snd (heap pr))) pr)
     else ret tt) ;;
    ret p
  else
    p <- call_orig_calloc num size ;;
    usable <- usable_size p ;;
    modify_stats (log_calloc usable) ;;
    ret p.

(** The library routines that allocate while they run call back into the
    interposed [malloc] and [calloc]. *)
Definition serve (malloc : Z -> M Z) (r : request) : M unit :=
  match r with
  | ReqMalloc size => malloc size ;; ret tt
  | ReqCalloc num size => calloc_body malloc num size ;; ret tt
  end.

Fixpoint serve_all (malloc : Z -> M Z) (rs : list request) : M unit :=
  match rs with
  | [] => ret tt
  | r :: rest => serve malloc r ;; serve_all malloc rest
  end.

Definition call_dlsym (malloc : Z -> M Z) (name : string) : M fnptr :=
  serve_all malloc (dlsym_requests name) ;;
  ret (dlsym name).

(** [SafiControl::init] *)
Definition SafiControl_init (malloc : Z -> M Z) : M unit :=
  modify_control (set_pending_init true) ;;
  f <- call_dlsym malloc "malloc" ;;
  modify_control (set_orig_malloc f) ;;
  f <- call_dlsym malloc "calloc" ;;
  modify_control (set_orig_calloc f) ;;
  f <- call_dlsym malloc "realloc" ;;
  modify_control (set_orig_realloc f) ;;
  f <- call_dlsym malloc "free" ;;
  modify_control (set_orig_free f) ;;
  c <- gets safiControl ;;
  if is_null (orig_malloc c) || is_null (orig_calloc c)
     || is_null (orig_realloc c) || is_null (orig_free c)
  then
    fprintf_stderr "[ERROR] Failed to hook calls: %s\n" [] ;;
    exit 1
  else
    modify_control (set_pending_init false).

(** [operator new(size)] of the C++ runtime, for a size that is not
    zero and with no new-handler installed: the block comes from
    [malloc], and a null result ends in [std::bad_alloc]. *)
Definition operator_new (malloc : Z -> M Z) (size : Z) : M Z :=
  p <- malloc size ;;
  if p =? NULL then Crashes else ret p.

(** [new std::thread(__print_safi_stats)]: the object from [operator new],
    then the constructor, which starts the thread. *)
Definition new_thread (malloc : Z -> M Z) : M Z :=
  thread <- operator_new malloc sizeof_thread ;;
  serve_all malloc thread_requests ;;
  ret thread.

Definition init_body (malloc : Z -> M Z) : M unit :=
  (match getenv "MEM_SAFI_DEBUG" with
   | Some safi_debug_str =>
       if String.eqb safi_debug_str "1"
       then modify_control (set_debug true) else ret tt
   | None => ret tt
   end) ;;
  __debug_msg "[INFO] Start Init!\n" [] ;;
  SafiControl_init malloc ;;
  thread <- new_thread malloc ;;
  modify (set_print_thread thread) ;;
  __debug_msg "[INFO] End Init!\n" [].

(** [__init_safi]. The requests issued under it re-enter [malloc], which
    may start [__init_safi] again; [depth] bounds that nesting, and a call
    chain that needs more ends in [Overflows]. *)
Fixpoint __init_safi (depth : nat) : M unit :=
  match depth with
  | O => Overflows
  | S depth' => init_body (malloc_body (__init_safi depth'))
  end.

Definition malloc (depth : nat) (size : Z) : M Z :=
  malloc_body (__init_safi depth) size.

Definition calloc (depth : nat) (num size : Z) : M Z :=
  calloc_body (malloc depth) num size.

Definition in_temp_buffer (ptr : Z) (p : process) : bool :=
  (temp_buffer <=? ptr) && (ptr <=? temp_buffer + used_buffer_size p).

Definition free (depth : nat) (ptr : Z) : M unit :=
  __debug_msg "[INFO] Free call (ptr: %p)!\n" [ptr] ;;
  inside <- gets (in_temp_buffer ptr) ;;
  if inside then
    __debug_msg "[INFO] Free pointer allocated by temp Malloc call!\n" []
  else
    ensure_hooked orig_free (__init_safi depth) ;;
    size <- usable_size ptr ;;
    modify_stats (log_free size) ;;
    call_orig_free ptr.

Definition realloc (depth : nat) (ptr size : Z) : M Z :=
  __debug_msg "[INFO] Realloc call (ptr, %p, size: %lu)\n" [ptr; size] ;;
  f <- gets (fun p => orig_realloc (safiControl p)) ;;
  if is_null f then
    new_ptr <- malloc depth size ;;
    (if negb (new_ptr =? NULL) && negb (ptr =? NULL) then
       modify (fun pr => set_heap (fst (heap pr),
                                   memmove new_ptr ptr size (snd (heap pr))) pr) ;;
       free depth ptr
     else ret tt) ;;
    ret new_ptr
  else
    old_size <- usable_size ptr ;;
    new_ptr <- call_orig_realloc ptr size ;;
    new_usable <- usable_size new_ptr ;;
    modify_stats (log_realloc (SizeT.sub new_usable old_size)) ;;
    ret new_ptr.

(** A library routine running: its heap calls arrive at the interposed
    functions. *)
Fixpoint run_routine (depth : nat) (r : routine) : M unit :=
  match r with
  | Done => ret tt
  | ThenMalloc size rest =>
      p <- malloc depth size ;; run_routine depth (rest p)
  | ThenCalloc num size rest =>
      p <- calloc depth num size ;; run_routine depth (rest p)
  | ThenRealloc ptr size rest =>
      p <- realloc depth ptr size ;; run_routine depth (rest p)
  | ThenFree ptr rest =>
      free depth ptr ;; run_routine depth rest
  end.

(** [safiStats.print()] as the calling thread runs it: the time stamp
    comes first, and its routines use the heap; then the counters are
    read and the lines written. [time_buffer] is what [strftime] wrote. *)
Definition SafiStats_print (depth : nat) (time_buffer : string) : M unit :=
  run_routine depth localtime_calls ;;
  s <- gets safiStats ;;
  modify (fun p => set_stderr (Report (print time_buffer s) :: stderr p) p).

(** [main_hook]; [real_main] is what the call through
    [safiControl.orig_main] runs. [detach()] lets the thread run on, and
    [delete] hands the thread object to [free] (the destructor of a
    detached thread does nothing, [operator delete] is [free]); the
    pointer [print_thread] stays as it is. *)
Definition main_hook (depth : nat) (real_main : M Z) (time_buffer : string)
  : M Z :=
  f <- gets (fun p => orig_main (safiControl p)) ;;
  if is_null f then Crashes else
  ret_code <- real_main ;;
  __debug_msg "[INFO] Actual main function completed (exit code: %d)!\n" [ret_code] ;;
  modify_stats disablePrint ;;
  thread <- gets print_thread ;;
  (if negb (thread =? NULL) then free depth thread else ret tt) ;;
  SafiStats_print depth time_buffer ;;
  ret ret_code.

(** [__libc_start_main]: it saves [main], looks up the original start
    routine and hands it [main_hook]; [real_start] is what that routine
    does with the entry point it is given. *)
Definition __libc_start_main (depth : nat) (real_start : M Z -> M Z)
  (main : M Z) (time_buffer : string) : M Z :=
  modify_control (set_orig_main resolved) ;;
  orig <- call_dlsym (malloc depth) "__libc_start_main" ;;
  if is_null orig then Crashes
  else real_start (main_hook depth main time_buffer).

(** The process as the loader leaves it, on a given heap. *)
Definition process0 (h : allocator * memory) : process :=
  mkProcess safiStats0 safiControl0 NULL 0 h [] [].


(** The part of [malloc] that precedes the call through [orig_malloc]
    when no initialisation is pending. *)
Definition malloc_entry (depth : nat) (size : Z) : M unit :=
  __debug_msg "[INFO] Malloc call (size: %lu)\n" [size] ;;
  ensure_hooked orig_malloc (__init_safi depth).

(** *** Vocabulary of the statements below *)

(** The process after a [__debug_msg]: one more line on [stderr] when
    [debug] is set, nothing otherwise. *)
Definition after_debug (format : string) (args : list Z) (p : process) : process :=
  if debug (safiControl p)
  then set_stderr (Printf format args :: stderr p) p
  else p.

(** Two processes that differ on [stderr] at most. *)
Definition same_but_stderr (p q : process) : Prop :=
  safiStats q = safiStats p /\ safiControl q = safiControl p /\
  print_thread q = print_thread p /\ used_buffer_size q = used_buffer_size p /\
  heap q = heap p /\ libc_calls q = libc_calls p.

(** The process after a call the original [malloc] answered with [r]. *)
Definition after_malloc (size : Z) (r : Z * (allocator * memory)) (p : process)
  : process :=
  set_safiStats (log_malloc (malloc_usable_size (fst r) (snd r)) (safiStats p))
    (set_libc_calls (CallMalloc size :: libc_calls p) (set_heap (snd r) p)).

Definition settled (p : process) : Prop :=
  pending_init (safiControl p) = true \/ orig_malloc (safiControl p) = resolved.

(** The two properties of a nested [malloc] the callers below rely on. *)
Definition keeps_control (m : Z -> M Z) : Prop :=
  forall size p a p', settled p -> m size p = Returns a p' ->
                      safiControl p' = safiControl p.

Definition agree_when_settled (m m' : Z -> M Z) : Prop :=
  forall size p, settled p -> m size p = m' size p.

(** All four originals found and no initialisation pending. *)
Definition all_hooked (c : SafiControl) : Prop :=
  orig_malloc c = resolved /\ orig_calloc c = resolved /\
  orig_realloc c = resolved /\ orig_free c = resolved /\
  pending_init c = false.


End Interposition.

Arguments Returns {R A} a p.
Arguments Exits {R A} status p.
Arguments Crashes {R A} p.
Arguments Overflows {R A} p.

(** ** A concrete runtime

    A small allocator in the style of the C library's, to run the
    interposed functions on: blocks are carved off a growing break, the
    usable size of a block is its request rounded up to the next chunk
    size, and requests above one MiB fail. *)

Module Demo.

(** The break and the live blocks (address, usable size). *)
Definition arena : Type := (Z * list (Z * Z))%type.

Definition chunk_usable (size : Z) : Z :=
  Z.max 24 ((size + 8 + 15) / 16 * 16 - 8).

Definition limit : Z := 1048576.

Fixpoint block_size (ptr : Z) (blocks : list (Z * Z)) : Z :=
  match blocks with
  | [] => 0
  | (a, u) :: rest => if a =? ptr then u else block_size ptr rest
  end.

Fixpoint drop_block (ptr : Z) (blocks : list (Z * Z)) : list (Z * Z) :=
  match blocks with
  | [] => []
  | (a, u) :: rest => if a =? ptr then rest else (a, u) :: drop_block ptr rest
  end.

Definition demo_usable (ptr : Z) (h : arena * memory) : Z :=
  block_size ptr (snd (fst h)).

Definition demo_malloc (size : Z) (h : arena * memory) : Z * (arena * memory) :=
  let '((brk, blocks), m) := h in
  if limit <? size then (NULL, h)
  else
    let u := chunk_usable size in
    (brk, ((brk + u + 8, (brk, u) :: blocks), m)).

Definition demo_calloc (num size : Z) (h : arena * memory) : Z * (arena * memory) :=
  let '(ptr, (a, m)) := demo_malloc (num * size) h in
  if ptr =? NULL then (NULL, (a, m))
  else (ptr, (a, memset ptr 0 (chunk_usable (num * size)) m)).

Definition demo_free (ptr : Z) (h : arena * memory) : arena * memory :=
  let '((brk, blocks), m) := h in ((brk, drop_block ptr blocks), m).

Definition demo_realloc (ptr size : Z) (h : arena * memory) : Z * (arena * memory) :=
  if ptr =? NULL then demo_malloc size h
  else if limit <? size then (NULL, h)
  else
    let old := demo_usable ptr h in
    if chunk_usable size <=? old then
      (* shrink in place *)
      let '((brk, blocks), m) := h in
      (ptr, ((brk, (ptr, chunk_usable size) :: drop_block ptr blocks), m))
    else
      let '(new_ptr, (a, m)) := demo_malloc size h in
      (new_ptr, demo_free ptr (a, memmove new_ptr ptr old m)).

Definition demo_temp_buffer : Z := 4194304.

(** The first [dlsym] sets up its error buffer with [calloc]; the thread
    object is one word, and its constructor allocates the state of the
    thread and its control block. *)
Definition demo_dlsym_requests (name : string) : list request :=
  if String.eqb name "malloc" then [ReqCalloc 1 32] else [].

Definition demo_thread_requests : list request :=
  [ReqMalloc 24; ReqCalloc 1 304].

(** [std::localtime] replaces its copy of the time zone name and reads
    the zone file through a buffer it releases again. *)
Definition demo_localtime_calls : routine :=
  ThenMalloc 15 (fun tz =>
  ThenMalloc 472 (fun file =>
  ThenFree file Done)).

#[export] Instance demo_runtime : Runtime := {|
  allocator := arena;
  libc_malloc := demo_malloc;
  libc_calloc := demo_calloc;
  libc_realloc := demo_realloc;
  libc_free := demo_free;
  malloc_usable_size := demo_usable;
  temp_buffer := demo_temp_buffer;
  getenv := fun _ => None;
  dlsym_requests := demo_dlsym_requests;
  dlsym := fun _ => resolved;
  sizeof_thread := 8;
  thread_requests := demo_thread_requests;
  localtime_calls := demo_localtime_calls
|}.

(** Zeroed static storage, stale bytes elsewhere. *)
Definition demo_memory : memory :=
  (170, [Fill demo_temp_buffer 0 80000]).

Definition demo_heap : arena * memory := ((268435456, []), demo_memory).

(** Before the first call into the library. *)
Definition fresh : process := process0 demo_heap.

(** After the four originals have been found, before the thread is
    created. *)
Definition hooked : process :=
  mkProcess safiStats0
    (mkSafiControl false false resolved resolved resolved resolved resolved)
    NULL 32 demo_heap [] [].

(** Inside [SafiControl::init], while [dlsym] looks up the first symbol. *)
Definition bootstrapping : process :=
  mkProcess safiStats0
    (mkSafiControl false true nullptr nullptr nullptr nullptr resolved)
    NULL 0 demo_heap [] [].


(** [hooked] after [malloc(64)]. *)
Definition with_block : process :=
  match malloc 0 64 hooked with
  | Returns _ q => q
  | _ => hooked
  end.

(** What a call returned and the globals it left, without the heap. *)
Definition summary {A : Type} (o : outcome A)
  : option (A * SafiStats * SafiControl * Z * list libc_call) :=
  match o with
  | Returns a p =>
      Some (a, safiStats p, safiControl p, used_buffer_size p, libc_calls p)
  | _ => None
  end.

End Demo.

(** ** Whole runs

    What the later statements measure the library against: the records
    of a list by kind and by size, the events of a schedule, and the
    process after a list of calls of the host program. *)

Definition is_RecMalloc (op : record_op) : bool :=
  match op with RecMalloc _ => true | _ => false end.

Definition is_RecCalloc (op : record_op) : bool :=
  match op with RecCalloc _ => true | _ => false end.

Definition is_RecRealloc (op : record_op) : bool :=
  match op with RecRealloc _ => true | _ => false end.

Definition is_RecFree (op : record_op) : bool :=
  match op with RecFree _ => true | _ => false end.

Definition count_records (kind : record_op -> bool) (ops : list record_op) : Z :=
  Z.of_nat (List.length (filter kind ops)).

(** The sizes handed to the allocating records, and to the releases. *)
Fixpoint reserved_bytes (ops : list record_op) : Z :=
  match ops with
  | [] => 0
  | RecFree _ :: rest => reserved_bytes rest
  | RecMalloc size :: rest | RecCalloc size :: rest | RecRealloc size :: rest =>
      size + reserved_bytes rest
  end.

Fixpoint released_bytes (ops : list record_op) : Z :=
  match ops with
  | [] => 0
  | RecFree size :: rest => size + released_bytes rest
  | _ :: rest => released_bytes rest
  end.

Definition is_disable (t : thread_step) : bool :=
  match t with StepDisablePrint => true | _ => false end.

Definition is_report (ev : daemon_event) : bool :=
  match ev with Printed _ => true | Slept _ => false end.

Definition reports (evs : list daemon_event) : nat :=
  List.length (filter is_report evs).

(** Statements of the current iteration already executed. *)
Definition loop_offset (pc : daemon_pc) : nat :=
  match pc with
  | AtLoopTest | Finished => 0
  | AtSleep => 1
  | AtPrint => 2
  end.

Section Callers.

Context {R : Runtime}.

Local Open Scope Z_scope.

(** A call of the host program into the interposed functions. *)
Inductive api_call : Type :=
| DoMalloc (size : Z)
| DoCalloc (num size : Z)
| DoRealloc (ptr size : Z)
| DoFree (ptr : Z).

Definition invoke (depth : nat) (c : api_call) : M unit :=
  match c with
  | DoMalloc size => bind (malloc depth size) (fun _ => ret tt)
  | DoCalloc num size => bind (calloc depth num size) (fun _ => ret tt)
  | DoRealloc ptr size => bind (realloc depth ptr size) (fun _ => ret tt)
  | DoFree ptr => free depth ptr
  end.

Fixpoint invoke_all (depth : nat) (cs : list api_call) : M unit :=
  match cs with
  | [] => ret tt
  | c :: rest => bind (invoke depth c) (fun _ => invoke_all depth rest)
  end.

(** The process after the resolved branch of [calloc], of [realloc], and
    after the tail of [free]. *)
Definition after_calloc (num size : Z) (p : process) : process :=
  let r := libc_calloc num size (heap p) in
  set_safiStats (log_calloc (malloc_usable_size (fst r) (snd r)) (safiStats p))
    (set_libc_calls (CallCalloc num size :: libc_calls p) (set_heap (snd r) p)).

Definition after_realloc (ptr size : Z) (p : process) : process :=
  let old_size := malloc_usable_size ptr (heap p) in
  let r := libc_realloc ptr size (heap p) in
  set_safiStats
    (log_realloc (SizeT.sub (malloc_usable_size (fst r) (snd r)) old_size)
                 (safiStats p))
    (set_libc_calls (CallRealloc ptr size :: libc_calls p) (set_heap (snd r) p)).

Definition after_free (ptr : Z) (p : process) : process :=
  let size := malloc_usable_size ptr (heap p) in
  set_libc_calls (CallFree ptr :: libc_calls p)
    (set_heap (libc_free ptr (heap p))
       (set_safiStats (log_free size (safiStats p)) p)).

Definition same_kind (op : record_op) (c : libc_call) : bool :=
  match op, c with
  | RecMalloc _, CallMalloc _ => true
  | RecCalloc _, CallCalloc _ _ => true
  | RecRealloc _, CallRealloc _ _ => true
  | RecFree _, CallFree _ => true
  | _, _ => false
  end.

(** From [p] to [p'] the store moved by records only, one for each call
    forwarded to the original functions, of the same kind and in the same
    order. *)
Definition accounted (p p' : process) : Prop :=
  exists ops calls,
    safiStats p' = final (safiStats p) ops /\
    libc_calls p' = rev calls ++ libc_calls p /\
    Forall2 (fun op c => same_kind op c = true) ops calls.

Definition is_CallMalloc (c : libc_call) : bool :=
  match c with CallMalloc _ => true | _ => false end.

Definition is_CallCalloc (c : libc_call) : bool :=
  match c with CallCalloc _ _ => true | _ => false end.

Definition is_CallRealloc (c : libc_call) : bool :=
  match c with CallRealloc _ _ => true | _ => false end.

Definition is_CallFree (c : libc_call) : bool :=
  match c with CallFree _ => true | _ => false end.

Definition count_calls (kind : libc_call -> bool) (cs : list libc_call) : Z :=
  Z.of_nat (List.length (filter kind cs)).

(** The offset of the bootstrap allocator is inside the array. *)
Definition offset_in_buffer (p : process) : Prop :=
  0 <= used_buffer_size p <= TEMP_BUFFER_SIZE.

(** None of the four originals found, and no initialisation pending. *)
Definition none_hooked (c : SafiControl) : Prop :=
  orig_malloc c = nullptr /\ orig_calloc c = nullptr /\
  orig_realloc c = nullptr /\ orig_free c = nullptr /\
  pending_init c = false.

Definition is_overflow {A : Type} (o : outcome A) : bool :=
  match o with Overflows _ => true | _ => false end.

(** The process an outcome ends in. *)
Definition ending {A : Type} (o : outcome A) : process :=
  match o with
  | Returns _ p | Exits _ p | Crashes p | Overflows p => p
  end.

(** A computation that never ends in [Overflows]. *)
Definition steady {A : Type} (m : M A) : Prop :=
  forall p, is_overflow (m p) = false.

(** A computation every returning run of which relates the process
    before to the process after. *)
Definition respects (Rel : process -> process -> Prop) {A : Type} (m : M A)
  : Prop :=
  forall p a p', m p = Returns a p' -> Rel p p'.

(** What a call made with the originals resolved passes on to them. *)
Definition forwarded (c : api_call) (p : process) : list libc_call :=
  match c with
  | DoMalloc size => [CallMalloc size]
  | DoCalloc num size => [CallCalloc num size]
  | DoRealloc ptr size => [CallRealloc ptr size]
  | DoFree ptr => if in_temp_buffer ptr p then [] else [CallFree ptr]
  end.


End Callers.

(** Runs of the concrete runtime used further down. *)
Module DemoCalls.
Import Demo.

(** A program that allocates, zero-allocates, resizes and releases,
    starting with the very first call into the library. *)
Definition demo_calls : list api_call :=
  [DoMalloc 100; DoCalloc 10 8; DoRealloc 268435840 300; DoFree 268435952].

Definition after_demo_calls : process :=
  match invoke_all 1 demo_calls fresh with
  | Returns _ q => q
  | _ => fresh
  end.

(** The same runtime with no next definition of [free] to be found. *)
Definition broken_runtime : Runtime := {|
  allocator := arena;
  libc_malloc := demo_malloc;
  libc_calloc := demo_calloc;
  libc_realloc := demo_realloc;
  libc_free := demo_free;
  malloc_usable_size := demo_usable;
  temp_buffer := demo_temp_buffer;
  getenv := fun _ => None;
  dlsym_requests := demo_dlsym_requests;
  dlsym := fun name => if String.eqb name "free" then nullptr else resolved;
  sizeof_thread := 8;
  thread_requests := demo_thread_requests;
  localtime_calls := demo_localtime_calls
|}.

(** Inside [SafiControl::init], after a first block of 32 bytes has been
    handed out of [temp_buffer]. *)
Definition bootstrapping_later : process :=
  mkProcess safiStats0
    (mkSafiControl false true resolved resolved nullptr nullptr resolved)
    NULL 32 demo_heap [] [].

(** The process as [__libc_start_main] hands it to [main_hook]: nothing
    resolved yet but [orig_main]. *)
Definition entered : process :=
  set_safiControl (set_orig_main resolved safiControl0) fresh.

(** A [main] that allocates once, the first call into the library, and
    returns 7. *)
Definition demo_main : M Z := bind (malloc 1 100) (fun _ => ret 7).

Definition after_demo_main : process :=
  match main_hook 1 demo_main "Fri Oct 30 2026" entered with
  | Returns _ q => q
  | _ => entered
  end.

End DemoCalls.


(** * Properties *)

(** ** Arithmetic of the wrapped integers *)

Module Int64Facts.
Import Int64.

Lemma wrap_range (z : Z) : in_range (wrap z).
Proof.
  unfold in_range, wrap, modulus, half_modulus.
  pose proof (Z.mod_pos_bound (z + 2 ^ 63) (2 ^ 64) ltac:(lia)). lia.
Qed.

Lemma wrap_small (z : Z) : in_range z -> wrap z = z.
Proof.
  unfold in_range, wrap, modulus, half_modulus. intros Hz.
  rewrite Z.mod_small by lia. lia.
Qed.

Lemma wrap_spec (z : Z) : exists k, wrap z = z + k * modulus.
Proof.
  exists (- ((z + half_modulus) / modulus)). unfold wrap.
  rewrite Z.mod_eq by (unfold modulus; lia). lia.
Qed.

Lemma wrap_shift (z k : Z) : wrap (z + k * modulus) = wrap z.
Proof.
  unfold wrap.
  replace (z + k * modulus + half_modulus) with (z + half_modulus + k * modulus) by lia.
  now rewrite Z.mod_add by (unfold modulus; lia).
Qed.

Lemma wrap_congr (a b k : Z) : a = b + k * modulus -> wrap a = wrap b.
Proof. intros ->. apply wrap_shift. Qed.

Lemma wrap_add_l (a b : Z) : wrap (wrap a + b) = wrap (a + b).
Proof. destruct (wrap_spec a) as [k ->]. apply (wrap_congr _ _ k). lia. Qed.

Lemma wrap_add_r (a b : Z) : wrap (a + wrap b) = wrap (a + b).
Proof. destruct (wrap_spec b) as [k ->]. apply (wrap_congr _ _ k). lia. Qed.

Lemma wrap_sub_l (a b : Z) : wrap (wrap a - b) = wrap (a - b).
Proof. destruct (wrap_spec a) as [k ->]. apply (wrap_congr _ _ k). lia. Qed.

Lemma wrap_sub_r (a b : Z) : wrap (a - wrap b) = wrap (a - b).
Proof. destruct (wrap_spec b) as [k ->]. apply (wrap_congr _ _ (- k)). lia. Qed.

(** Adding a [size_t] operand is adding its value modulo [2^64]. *)
Lemma add_of_size_t (a u : Z) : add a (of_size_t u) = add a u.
Proof. apply wrap_add_r. Qed.

Lemma sub_of_size_t (a u : Z) : sub a (of_size_t u) = sub a u.
Proof. apply wrap_sub_r. Qed.

(** Where the exact result is representable, [sub] and [add] are the
    operations of the integers. *)
Lemma sub_exact (a b : Z) : in_range (a - b) -> sub a b = a - b.
Proof. apply wrap_small. Qed.

Lemma add_exact (a b : Z) : in_range (a + b) -> add a b = a + b.
Proof. apply wrap_small. Qed.

Lemma add_zero (a : Z) : in_range a -> add a (of_size_t 0) = a.
Proof. intros Ha. rewrite add_of_size_t. unfold add. rewrite Z.add_0_r. now apply wrap_small. Qed.

Lemma sub_zero (a : Z) : in_range a -> sub a (of_size_t 0) = a.
Proof. intros Ha. rewrite sub_of_size_t. unfold sub. rewrite Z.sub_0_r. now apply wrap_small. Qed.

End Int64Facts.

Module SizeTFacts.
Import SizeT.

Lemma size_wrap_range (z : Z) : in_range (wrap z).
Proof. apply Z.mod_pos_bound. reflexivity. Qed.

Lemma size_wrap_small (z : Z) : in_range z -> wrap z = z.
Proof. apply Z.mod_small. Qed.

Lemma size_wrap_spec (z : Z) : exists k, wrap z = z + k * modulus.
Proof.
  exists (- (z / modulus)). unfold wrap.
  rewrite Z.mod_eq by (unfold modulus; lia). lia.
Qed.

(** A wrapped [size_t] value read back as [int64_t] is congruent to the
    value before wrapping: this is how a negative difference survives the
    [size_t] parameter of [log_realloc]. *)
Lemma to_int64_wrap (z : Z) : Int64.of_size_t (wrap z) = Int64.wrap z.
Proof. destruct (size_wrap_spec z) as [k ->]. apply Int64Facts.wrap_shift. Qed.

Lemma add_wrapped (a z : Z) : Int64.add a (Int64.of_size_t (wrap z)) = Int64.add a z.
Proof. rewrite to_int64_wrap. apply Int64Facts.wrap_add_r. Qed.

End SizeTFacts.

(** ** The statistics store *)

Lemma counters_in_range_init : counters_in_range safiStats0.
Proof. unfold counters_in_range, Int64.in_range; cbn. lia. Qed.

Lemma max_in_range (a b : Z) :
  Int64.in_range a -> Int64.in_range b -> Int64.in_range (Z.max a b).
Proof. unfold Int64.in_range. lia. Qed.

Lemma record_in_range (s : SafiStats) (op : record_op) :
  counters_in_range s -> counters_in_range (record s op).
Proof.
  unfold counters_in_range. intros (H1 & H2 & H3 & H4 & H5 & H6 & H7 & H8).
  destruct op; cbn;
    repeat match goal with |- _ /\ _ => split end;
    try assumption; try apply max_in_range; try assumption;
    apply Int64Facts.wrap_range.
Qed.

Lemma log_alloc_helper_balanced (size : Z) (s : SafiStats) :
  balanced s -> balanced (log_alloc_helper size s).
Proof.
  unfold balanced, log_alloc_helper; cbn. intros ->.
  unfold Int64.add, Int64.sub, Int64.of_size_t.
  rewrite Int64Facts.wrap_add_l, Int64Facts.wrap_sub_l.
  f_equal. lia.
Qed.

Lemma log_free_balanced (size : Z) (s : SafiStats) :
  balanced s -> balanced (log_free size s).
Proof.
  unfold balanced, log_free; cbn. intros ->.
  unfold Int64.add, Int64.sub, Int64.of_size_t.
  rewrite Int64Facts.wrap_sub_l, !Int64Facts.wrap_sub_r.
  replace (m_total_reserved s - (m_freed s + Int64.wrap size))
    with (m_total_reserved s - m_freed s - Int64.wrap size) by lia.
  now rewrite Int64Facts.wrap_sub_r.
Qed.

Lemma record_balanced (s : SafiStats) (op : record_op) :
  balanced s -> balanced (record s op).
Proof.
  destruct op; cbn; intros Hs;
    try (apply (log_alloc_helper_balanced size) in Hs; exact Hs).
  now apply log_free_balanced.
Qed.

Lemma history_invariant (P : SafiStats -> Prop) :
  (forall s op, P s -> P (record s op)) ->
  forall ops s, P s -> Forall P (history s ops).
Proof.
  intros Hstep ops. induction ops as [|op rest IH]; intros s Hs; cbn.
  - constructor.
  - constructor; [now apply Hstep | apply IH; now apply Hstep].
Qed.

(** C1. Whatever sequence of [log_malloc], [log_calloc], [log_realloc]
    and [log_free] calls is applied to the zero-initialised store, after
    each of them [m_reserved] equals [m_total_reserved - m_freed], the
    difference being taken as the [int64_t] counters take it. *)
Theorem reserved_is_total_minus_freed (ops : list record_op) :
  Forall balanced (history safiStats0 ops).
Proof.
  apply history_invariant.
  - exact record_balanced.
  - reflexivity.
Qed.

(** While the difference of the two totals is representable the equation
    is one of the integers. *)
Corollary reserved_is_total_minus_freed_exact (ops : list record_op) :
  Forall (fun s => Int64.in_range (m_total_reserved s - m_freed s) ->
                   m_reserved s = m_total_reserved s - m_freed s)
         (history safiStats0 ops).
Proof.
  eapply Forall_impl; [| apply (history_invariant balanced record_balanced ops safiStats0 eq_refl)].
  intros s Hs Hr. rewrite Hs. now apply Int64Facts.sub_exact.
Qed.

(** [log_alloc_helper] spelled out field by field. *)
Lemma log_alloc_helper_fields (size : Z) (s : SafiStats) :
  let s' := log_alloc_helper size s in
  m_reserved s' = Int64.add (m_reserved s) size /\
  m_total_reserved s' = Int64.add (m_total_reserved s) size /\
  m_real_peak s' = Z.max (m_real_peak s) (m_reserved s') /\
  m_freed s' = m_freed s /\
  m_num_mallocs s' = m_num_mallocs s /\
  m_num_callocs s' = m_num_callocs s /\
  m_num_reallocs s' = m_num_reallocs s /\
  m_num_frees s' = m_num_frees s.
Proof.
  cbn. rewrite !Int64Facts.add_of_size_t. repeat split; reflexivity.
Qed.

(** One resize record of eight bytes on the fresh store already moves
    [m_total_reserved]. *)
Lemma log_realloc_moves_total_reserved :
  m_total_reserved (log_realloc 8 safiStats0) = 8 /\
  m_total_reserved (log_realloc 8 safiStats0) <> m_total_reserved safiStats0.
Proof. split; [reflexivity | discriminate]. Qed.

(** C2, amended. [log_realloc] receives the signed difference [delta] as
    a [size_t]; it adds [delta] to [m_reserved] and to [m_total_reserved]
    alike, then sets [m_real_peak] to the larger of itself and the new
    [m_reserved], and counts one resize. [log_malloc] and [log_calloc] add
    their size to both counters in the same way. *)
Theorem log_realloc_adds_to_both (delta : Z) (s : SafiStats) :
  let s' := log_realloc (SizeT.wrap delta) s in
  m_reserved s' = Int64.add (m_reserved s) delta /\
  m_total_reserved s' = Int64.add (m_total_reserved s) delta /\
  m_real_peak s' = Z.max (m_real_peak s) (m_reserved s') /\
  m_num_reallocs s' = Int64.add (m_num_reallocs s) 1 /\
  m_freed s' = m_freed s /\
  m_total_reserved (log_malloc (SizeT.wrap delta) s)
    = Int64.add (m_total_reserved s) delta /\
  m_total_reserved (log_calloc (SizeT.wrap delta) s)
    = Int64.add (m_total_reserved s) delta.
Proof.
  cbn. rewrite !SizeTFacts.add_wrapped. repeat split; reflexivity.
Qed.

(** A release whose size does not fit a non-negative [int64_t] raises
    [m_reserved] above [m_real_peak]. *)
Lemma huge_release_exceeds_peak :
  history safiStats0 [RecFree 18446744073709551615]
    = [mkSafiStats 1 0 0 (-1) 0 0 0 1 false false] /\
  ~ Forall peak_covers (history safiStats0 [RecFree 18446744073709551615]).
Proof.
  split; [reflexivity |].
  intros H. inversion H as [| s l Hs _]; subst.
  unfold peak_covers in Hs; cbn in Hs. lia.
Qed.

Lemma log_alloc_helper_peak (size : Z) (s : SafiStats) :
  peak_covers (log_alloc_helper size s).
Proof. unfold peak_covers; cbn. lia. Qed.

Lemma log_free_peak (size : Z) (s : SafiStats) :
  Int64.in_range (m_reserved s) -> release_fits s size = true ->
  peak_covers s -> peak_covers (log_free size s).
Proof.
  unfold release_fits, peak_covers, Int64.in_range; cbn.
  intros Hr Hfit Hs.
  apply andb_prop in Hfit as [Hfit H3]. apply andb_prop in Hfit as [H1 H2].
  apply Z.leb_le in H1, H3. apply Z.ltb_lt in H2.
  unfold Int64.sub, Int64.of_size_t.
  rewrite (Int64Facts.wrap_small size)
    by (unfold Int64.in_range, Int64.half_modulus; lia).
  rewrite Int64Facts.wrap_small
    by (unfold Int64.in_range, Int64.half_modulus; lia).
  lia.
Qed.

Lemma peak_covers_from (ops : list record_op) :
  forall s, Int64.in_range (m_reserved s) -> peak_covers s ->
            releases_fit s ops = true -> Forall peak_covers (history s ops).
Proof.
  induction ops as [|op rest IH]; intros s Hr Hs Hfit; cbn.
  - constructor.
  - cbn in Hfit. apply andb_prop in Hfit as [Hop Hrest].
    assert (Hs' : peak_covers (record s op)).
    { destruct op; cbn;
        try apply (log_alloc_helper_peak size s).
      now apply log_free_peak. }
    assert (Hr' : Int64.in_range (m_reserved (record s op))).
    { destruct op; cbn; apply Int64Facts.wrap_range. }
    constructor; [exact Hs' | now apply IH].
Qed.

(** C3, amended. From the zero-initialised store, [m_real_peak >=
    m_reserved] holds after every record operation of a sequence in which
    each release has a size below [2^63] that does not take [m_reserved]
    below [-2^63]; allocations, zero-allocations and resizes, with a
    negative difference too, are unrestricted. *)
Theorem peak_covers_reserved (ops : list record_op) :
  releases_fit safiStats0 ops = true ->
  Forall peak_covers (history safiStats0 ops).
Proof.
  apply peak_covers_from.
  - unfold Int64.in_range; cbn; lia.
  - unfold peak_covers; cbn; lia.
Qed.

Lemma peak_covers_reserved_witness :
  let ops := [RecMalloc 104; RecCalloc 88; RecRealloc (SizeT.wrap (-80));
              RecFree 24; RecFree 88] in
  releases_fit safiStats0 ops = true /\
  Forall peak_covers (history safiStats0 ops).
Proof.
  split; [reflexivity | apply peak_covers_reserved; reflexivity].
Defined.

(** ** The report *)





(** ** The reporting thread *)

Lemma record_keeps_flag (s : SafiStats) (op : record_op) :
  m_disable_print (record s op) = m_disable_print s.
Proof. destruct op; reflexivity. Qed.

(** No step of any thread clears the flag. *)
Lemma flag_latched (now : string) (sy : system) (t : thread_step) :
  m_disable_print (sys_stats sy) = true ->
  m_disable_print (sys_stats (step now sy t)) = true.
Proof.
  intros H. destruct t; cbn.
  - destruct (daemon_step now (sys_stats sy) (sys_pc sy)); exact H.
  - now rewrite record_keeps_flag.
  - reflexivity.
Qed.

Lemma run_app (now : string) (sy : system) (a b : list thread_step) :
  run now sy (a ++ b) = run now (run now sy a) b.
Proof. apply fold_left_app. Qed.

Lemma sleeps_then_prints_app (a b : list daemon_event) :
  sleeps_then_prints a -> sleeps_then_prints b -> sleeps_then_prints (a ++ b).
Proof.
  induction 1 as [| report rest _ IH]; intros Hb; cbn.
  - exact Hb.
  - constructor. now apply IH.
Qed.

Lemma step_log_shape (now : string) (sy : system) (t : thread_step) :
  log_shape (sys_pc sy) (sys_events sy) ->
  log_shape (sys_pc (step now sy t)) (sys_events (step now sy t)).
Proof.
  destruct sy as [s pc evs]. destruct t; cbn; try (intros H; exact H).
  destruct pc; cbn.
  - intros H. destruct (isPrintEnabled s); cbn; now rewrite app_nil_r.
  - intros H. exists evs. split; [reflexivity | exact H].
  - intros (evs' & -> & H). rewrite <- app_assoc. cbn.
    apply sleeps_then_prints_app; [exact H |]. repeat constructor.
  - intros H. now rewrite app_nil_r.
Qed.

Lemma run_log_shape (now : string) (sched : list thread_step) :
  forall sy, log_shape (sys_pc sy) (sys_events sy) ->
             log_shape (sys_pc (run now sy sched)) (sys_events (run now sy sched)).
Proof.
  induction sched as [|t rest IH]; intros sy H; cbn.
  - exact H.
  - apply IH. now apply step_log_shape.
Qed.

Lemma daemon_step_disabled (now : string) (s : SafiStats) (pc : daemon_pc)
  (evs : list daemon_event) :
  m_disable_print s = true ->
  step now (mkSystem s pc evs) StepDaemon
    = mkSystem s
        (match pc with
         | AtSleep => AtPrint
         | AtPrint => AtLoopTest
         | AtLoopTest | Finished => Finished
         end)
        (evs ++ match pc with
                | AtSleep => [Slept PRINT_FREQ_IN_SEC]
                | AtPrint => [Printed (print now s)]
                | AtLoopTest | Finished => []
                end).
Proof.
  intros Hflag. destruct pc; cbn; unfold isPrintEnabled; rewrite ?Hflag; reflexivity.
Qed.

Lemma final_keeps_flag (ops : list record_op) :
  forall s, m_disable_print (final s ops) = m_disable_print s.
Proof.
  induction ops as [|op rest IH]; intros s; [reflexivity |].
  change (final s (op :: rest)) with (final (record s op) rest).
  now rewrite IH, record_keeps_flag.
Qed.

(** Setting the flag again changes nothing. *)
Lemma disablePrint_again (s : SafiStats) :
  m_disable_print s = true -> disablePrint s = s.
Proof. destruct s; cbn. now intros ->. Qed.

Lemma run_records (now : string) (ops : list record_op) :
  forall sy,
    run now sy (map StepRecord ops)
    = mkSystem (final (sys_stats sy) ops) (sys_pc sy) (sys_events sy).
Proof.
  induction ops as [|op rest IH]; intros sy.
  - now destruct sy.
  - cbn [map]. change (run now sy (StepRecord op :: map StepRecord rest))
      with (run now (step now sy (StepRecord op)) (map StepRecord rest)).
    rewrite IH. reflexivity.
Qed.

Lemma wind_down (now : string) (post : list thread_step) :
  forall sy,
    m_disable_print (sys_stats sy) = true ->
    (steps_to_finish (sys_pc sy) <= daemon_steps post)%nat ->
    sys_pc (run now sy post) = Finished /\
    exists late, sys_events (run now sy post) = sys_events sy ++ late /\
                 winding_down now (sys_stats sy) (sys_pc sy) late.
Proof.
  induction post as [|t rest IH]; intros sy Hflag Hsteps.
  - cbn in *. destruct (sys_pc sy); cbn in *; try lia.
    split; [reflexivity |]. exists []. now rewrite app_nil_r.
  - pose proof (flag_latched now sy t Hflag) as Hflag'.
    change (run now sy (t :: rest)) with (run now (step now sy t) rest).
    destruct t.
    + (* a step of the thread itself *)
      unfold daemon_steps in Hsteps; cbn in Hsteps. fold (daemon_steps rest) in Hsteps.
      destruct sy as [s pc evs]. cbn [sys_stats sys_pc sys_events] in *.
      rewrite (daemon_step_disabled now s pc evs Hflag) in *.
      match goal with
      | |- context [run now ?sy' rest] =>
          destruct (IH sy' Hflag') as (Hpc & late & Hev & Hlate);
          [destruct pc; cbn in *; lia |]
      end.
      split; [exact Hpc |]. rewrite Hev. cbn [sys_events sys_stats sys_pc] in *.
      destruct pc; cbn [winding_down] in Hlate |- *.
      * subst late. exists []. split; [now rewrite !app_nil_r | reflexivity].
      * destruct Hlate as (ops & ->).
        exists [Slept PRINT_FREQ_IN_SEC; Printed (print now (final s ops))].
        split; [now rewrite <- app_assoc | now exists ops].
      * subst late. exists [Printed (print now s)].
        split; [now rewrite app_nil_r | now exists []].
      * subst late. exists []. split; [now rewrite !app_nil_r | reflexivity].
    + (* a record of another call *)
      destruct (IH _ Hflag' Hsteps) as (Hpc & late & Hev & Hlate).
      split; [exact Hpc |]. exists late. split; [exact Hev |].
      destruct sy as [s pc evs]. cbn [step sys_stats sys_pc sys_events] in *.
      destruct pc; cbn [winding_down] in Hlate |- *; try exact Hlate;
        destruct Hlate as (ops' & ->); now exists (op :: ops').
    + (* the flag set once more *)
      destruct (IH _ Hflag' Hsteps) as (Hpc & late & Hev & Hlate).
      split; [exact Hpc |]. exists late. split; [exact Hev |].
      destruct sy as [s pc evs]. cbn [step sys_stats sys_pc sys_events] in *.
      now rewrite (disablePrint_again s Hflag) in Hlate.
Qed.

(** While the flag is clear, three steps of the thread are one iteration:
    the test, the sleep, the report, and it stands at the test again. *)
Lemma daemon_iteration (now : string) (sy : system) :
  m_disable_print (sys_stats sy) = false -> sys_pc sy = AtLoopTest ->
  run now sy [StepDaemon; StepDaemon; StepDaemon]
    = mkSystem (sys_stats sy) AtLoopTest
        (sys_events sy ++ iteration now (sys_stats sy)).
Proof.
  destruct sy as [s pc evs]; cbn. intros Hflag ->. cbn.
  unfold isPrintEnabled. rewrite Hflag. cbn.
  now rewrite app_nil_r, <- app_assoc.
Qed.

(** The same with records of other calls before each of the three
    steps: the report shows the store as it stands when it is printed. *)
Lemma daemon_iteration_interleaved (now : string) (sy : system)
  (a b c : list record_op) :
  m_disable_print (sys_stats sy) = false -> sys_pc sy = AtLoopTest ->
  run now sy (iteration_schedule a b c)
    = mkSystem (final (sys_stats sy) (a ++ b ++ c)) AtLoopTest
        (sys_events sy
         ++ [Slept 5; Printed (print now (final (sys_stats sy) (a ++ b ++ c)))]).
Proof.
  destruct sy as [s pc evs]. cbn [sys_stats sys_pc sys_events].
  intros Hflag ->. unfold iteration_schedule.
  rewrite run_app, run_records. cbn [sys_stats sys_pc sys_events].
  change ([StepDaemon] ++ ?l) with (StepDaemon :: l).
  change (run now ?sy0 (StepDaemon :: ?l)) with (run now (step now sy0 StepDaemon) l).
  cbn [step daemon_step sys_stats sys_pc sys_events].
  unfold isPrintEnabled. rewrite final_keeps_flag, Hflag. cbn [negb].
  rewrite app_nil_r, run_app, run_records. cbn [sys_stats sys_pc sys_events].
  change ([StepDaemon] ++ ?l) with (StepDaemon :: l).
  change (run now ?sy0 (StepDaemon :: ?l)) with (run now (step now sy0 StepDaemon) l).
  cbn [step daemon_step sys_stats sys_pc sys_events].
  rewrite run_app, run_records. cbn [sys_stats sys_pc sys_events].
  cbn [run fold_left step daemon_step sys_stats sys_pc sys_events].
  unfold final. rewrite !fold_left_app, <- app_assoc.
  reflexivity.
Qed.

(** The flag is tested at the top of the loop only: when it is set
    during the sleep, the thread finishes the sleep, prints one more
    report, and only then sees the flag and leaves; what it writes after
    the flag was set is not the end of the sleep alone. *)
Lemma report_after_disable :
  let now := "Fri Oct 30 2026"%string in
  let disabled := run now system0 [StepDaemon; StepDisablePrint] in
  let last := run now disabled [StepDaemon; StepDaemon; StepDaemon] in
  sys_pc disabled = AtSleep /\
  isPrintEnabled (sys_stats disabled) = true /\
  sys_pc last = Finished /\
  sys_events last = [Slept 5; Printed (print now (disablePrint safiStats0))] /\
  reports (sys_events last) = 1%nat /\
  sys_events last <> [Slept 5].
Proof.
  cbv zeta. repeat match goal with |- _ /\ _ => split end;
    try reflexivity. discriminate.
Qed.

(** C6, amended. While the flag is clear an iteration of the loop is the
    test, a sleep of 5 seconds and a report of the store as it then
    stands, whatever records other calls make in between, and the thread
    is back at the test. Once [disablePrint] has run, wherever the thread
    stands and in whatever interleaving with the records of other calls,
    the thread leaves its loop within three of its own steps: from the
    test at once, from the sleep after the end of the sleep and one more
    report, from the report after that report. Along every schedule from
    the start of the thread its log is made of sleeps of 5 seconds, each
    followed by a report. *)
Theorem daemon_stops_after_disable
  (now : string) (sy : system) (a b c : list record_op)
  (post : list thread_step) :
  m_disable_print (sys_stats sy) = false ->
  sys_pc sy = AtLoopTest ->
  (3 <= daemon_steps post)%nat ->
  (let s := final (sys_stats sy) (a ++ b ++ c) in
   run now sy (iteration_schedule a b c)
   = mkSystem s AtLoopTest (sys_events sy ++ [Slept 5; Printed (print now s)])) /\
  (forall at_disable : system,
    let disabled := step now at_disable StepDisablePrint in
    let last := run now disabled post in
    isPrintEnabled (sys_stats disabled) = true /\
    sys_pc last = Finished /\
    exists late,
      sys_events last = sys_events at_disable ++ late /\
      winding_down now (sys_stats disabled) (sys_pc at_disable) late) /\
  forall sched : list thread_step,
    log_shape (sys_pc (run now system0 sched))
              (sys_events (run now system0 sched)).
Proof.
  intros Hflag Hpc Hsteps. split; [| split].
  - cbv zeta. now apply daemon_iteration_interleaved.
  - intros at_disable disabled last.
    assert (Hset : m_disable_print (sys_stats disabled) = true) by reflexivity.
    split; [exact Hset |].
    destruct (wind_down now post disabled Hset) as (Hfin & late & Hev & Hlate).
    + change (sys_pc disabled) with (sys_pc at_disable).
      destruct (sys_pc at_disable); cbn; lia.
    + split; [exact Hfin |]. exists late. split; [exact Hev | exact Hlate].
  - intros sched. apply run_log_shape. constructor.
Qed.

Lemma daemon_stops_after_disable_witness :
  let now := "Fri Oct 30 2026"%string in
  let post := [StepDaemon; StepRecord (RecFree 104); StepDaemon; StepDaemon] in
  m_disable_print (sys_stats system0) = false /\
  sys_pc system0 = AtLoopTest /\
  (3 <= daemon_steps post)%nat /\
  sys_events (run now system0
                (iteration_schedule [RecMalloc 104] [] [RecCalloc 24]))
  = [Slept 5;
     Printed (print now (mkSafiStats 128 128 128 0 1 1 0 0 false false))] /\
  sys_pc (run now (step now (mkSystem safiStats0 AtSleep []) StepDisablePrint) post)
  = Finished.
Proof.
  cbv zeta.
  destruct (daemon_stops_after_disable "Fri Oct 30 2026" system0
              [RecMalloc 104] [] [RecCalloc 24]
              [StepDaemon; StepRecord (RecFree 104); StepDaemon; StepDaemon]
              eq_refl eq_refl ltac:(cbn; lia)) as (Hrun & Hstop & _).
  split; [reflexivity |]. split; [reflexivity |]. split; [cbn; lia |].
  split.
  - cbv zeta in Hrun. rewrite Hrun. reflexivity.
  - apply (Hstop (mkSystem safiStats0 AtSleep [])).
Defined.

(** ** The interposed functions *)

Section InterpositionFacts.

Context {R : Runtime}.

Local Open Scope string_scope.
Local Open Scope Z_scope.

Lemma debug_msg_returns (format : string) (args : list Z) (p : process) :
  __debug_msg format args p = Returns tt (after_debug format args p).
Proof.
  unfold __debug_msg, after_debug, bind, gets, fprintf_stderr, modify, ret.
  destruct (debug (safiControl p)); reflexivity.
Qed.

Lemma same_but_stderr_refl (p : process) : same_but_stderr p p.
Proof. repeat split. Qed.

Lemma same_but_stderr_trans (p q r : process) :
  same_but_stderr p q -> same_but_stderr q r -> same_but_stderr p r.
Proof.
  unfold same_but_stderr.
  intros (A1 & A2 & A3 & A4 & A5 & A6) (B1 & B2 & B3 & B4 & B5 & B6).
  repeat split; congruence.
Qed.

Lemma after_debug_same (format : string) (args : list Z) (p : process) :
  same_but_stderr p (after_debug format args p).
Proof.
  unfold after_debug. destruct (debug (safiControl p)); repeat split.
Qed.


Lemma bind_returns {A B : Type} (m : M A) (k : A -> M B) (p p' : process) (b : B) :
  bind m k p = Returns b p' ->
  exists a q, m p = Returns a q /\ k a q = Returns b p'.
Proof.
  unfold bind. destruct (m p) as [a q | | |]; try discriminate.
  intros H. now exists a, q.
Qed.

Lemma bind_step {A B : Type} (m : M A) (k : A -> M B) (p q : process) (a : A) :
  m p = Returns a q -> bind m k p = k a q.
Proof. unfold bind. now intros ->. Qed.

(** *** Releasing *)

Lemma in_temp_buffer_same (ptr : Z) (p q : process) :
  same_but_stderr p q -> in_temp_buffer ptr q = in_temp_buffer ptr p.
Proof. intros (_ & _ & _ & H & _). unfold in_temp_buffer. now rewrite H. Qed.

(** [free] of a pointer that passes its range test returns at once:
    the statistics, the heap and the list of calls made to the original
    functions are what they were, and so is everything else but the two
    debug lines on [stderr]. *)
Lemma free_in_temp_buffer_is_noop (depth : nat) (ptr : Z) (p : process) :
  temp_buffer <= ptr <= temp_buffer + used_buffer_size p ->
  exists p',
    free depth ptr p = Returns tt p' /\
    safiStats p' = safiStats p /\
    libc_calls p' = libc_calls p /\
    heap p' = heap p /\
    same_but_stderr p p' /\
    p' = after_debug "[INFO] Free pointer allocated by temp Malloc call!\n" []
           (after_debug "[INFO] Free call (ptr: %p)!\n" [ptr] p).
Proof.
  intros [Hlo Hhi].
  set (p1 := after_debug "[INFO] Free call (ptr: %p)!\n" [ptr] p).
  set (p2 := after_debug "[INFO] Free pointer allocated by temp Malloc call!\n" [] p1).
  assert (H1 : same_but_stderr p p1) by apply after_debug_same.
  assert (H2 : same_but_stderr p p2).
  { eapply same_but_stderr_trans; [exact H1 | apply after_debug_same]. }
  assert (Hin : in_temp_buffer ptr p1 = true).
  { rewrite (in_temp_buffer_same ptr p p1 H1). unfold in_temp_buffer.
    apply andb_true_intro. split; apply Z.leb_le; assumption. }
  exists p2. split.
  - unfold free. rewrite (bind_step _ _ p p1 tt) by apply debug_msg_returns.
    unfold bind at 1, gets. rewrite Hin. apply debug_msg_returns.
  - destruct H2 as (A1 & A2 & A3 & A4 & A5 & A6).
    repeat split; assumption.
Qed.

(** *** The bootstrap allocator *)

Lemma temp_malloc_unfold (size : Z) (p : process) :
  __temp_malloc size p =
  let p1 := after_debug "[INFO] Temp Malloc (size: %lu)\n" [size] p in
  if SizeT.add (used_buffer_size p) size >? TEMP_BUFFER_SIZE
  then Exits 1 (after_debug
                  "[ERROR] Temp Malloc calls required more than the set max!\n" [] p1)
  else Returns (temp_buffer + used_buffer_size p)
               (set_used_buffer_size (SizeT.add (used_buffer_size p) size) p1).
Proof.
  unfold __temp_malloc.
  rewrite (bind_step _ _ p _ tt (debug_msg_returns _ _ p)).
  cbv zeta.
  destruct (after_debug_same "[INFO] Temp Malloc (size: %lu)\n" [size] p)
    as (_ & _ & _ & Hused & _).
  unfold bind at 1, gets. rewrite Hused.
  destruct (SizeT.add (used_buffer_size p) size >? TEMP_BUFFER_SIZE).
  - rewrite (bind_step _ _ _ _ tt (debug_msg_returns _ _ _)). reflexivity.
  - reflexivity.
Qed.

Lemma temp_malloc_returns (size : Z) (p p' : process) (ptr : Z) :
  __temp_malloc size p = Returns ptr p' ->
  ptr = temp_buffer + used_buffer_size p /\
  used_buffer_size p' = SizeT.add (used_buffer_size p) size /\
  SizeT.add (used_buffer_size p) size <= TEMP_BUFFER_SIZE /\
  safiStats p' = safiStats p /\ safiControl p' = safiControl p /\
  heap p' = heap p /\ libc_calls p' = libc_calls p.
Proof.
  rewrite temp_malloc_unfold. cbv zeta.
  destruct (Z.gtb_spec (SizeT.add (used_buffer_size p) size) TEMP_BUFFER_SIZE)
    as [Hgt | Hle]; [discriminate |].
  intros H. injection H as <- <-.
  destruct (after_debug_same "[INFO] Temp Malloc (size: %lu)\n" [size] p)
    as (A1 & A2 & _ & _ & A5 & A6).
  cbn. repeat split; assumption.
Qed.

(** A request that fits is served from [temp_buffer] at the current
    offset, and the offset advances by its size. *)
Lemma temp_malloc_fits (size : Z) (p : process) :
  0 <= used_buffer_size p -> 0 <= size ->
  used_buffer_size p + size <= TEMP_BUFFER_SIZE ->
  __temp_malloc size p =
  Returns (temp_buffer + used_buffer_size p)
    (set_used_buffer_size (used_buffer_size p + size)
       (after_debug "[INFO] Temp Malloc (size: %lu)\n" [size] p)).
Proof.
  intros Hu Hs Hfit. rewrite temp_malloc_unfold. cbv zeta.
  assert (Hadd : SizeT.add (used_buffer_size p) size = used_buffer_size p + size).
  { apply SizeTFacts.size_wrap_small. unfold SizeT.in_range, SizeT.modulus, TEMP_BUFFER_SIZE in *. lia. }
  rewrite Hadd.
  destruct (Z.gtb_spec (used_buffer_size p + size) TEMP_BUFFER_SIZE); [lia | reflexivity].
Qed.

(** What [__temp_malloc] hands out is recognised by the test of [free],
    now and for as long as the offset does not move back; the offset can
    only move back when [used_buffer_size + size] wraps around. *)
Lemma temp_malloc_pointer_recognised (size : Z) (p p' : process) (ptr : Z) :
  0 <= used_buffer_size p -> 0 <= size ->
  used_buffer_size p + size < SizeT.modulus ->
  __temp_malloc size p = Returns ptr p' ->
  forall q, used_buffer_size p' <= used_buffer_size q -> in_temp_buffer ptr q = true.
Proof.
  intros Hu Hs Hnowrap H q Hq.
  apply temp_malloc_returns in H as (-> & Hused & _).
  rewrite Hused in Hq. unfold SizeT.add in Hq.
  rewrite SizeTFacts.size_wrap_small in Hq by (unfold SizeT.in_range; lia).
  unfold in_temp_buffer. apply andb_true_intro. split; apply Z.leb_le; lia.
Qed.

(** *** Calls through the saved pointers *)

Lemma forward_malloc_unfold (size : Z) (p : process) :
  forward_malloc size p =
  match orig_malloc (safiControl p) with
  | nullptr => Crashes p
  | resolved => Returns (fst (libc_malloc size (heap p)))
                        (after_malloc size (libc_malloc size (heap p)) p)
  end.
Proof.
  unfold forward_malloc, call_orig_malloc, usable_size, modify_stats,
    modify, bind, gets, ret, after_malloc.
  destruct (orig_malloc (safiControl p)); reflexivity.
Qed.

Lemma malloc_body_unfold (init : M unit) (size : Z) (p : process) :
  malloc_body init size p =
  let p0 := after_debug "[INFO] Malloc call (size: %lu)\n" [size] p in
  if pending_init (safiControl p)
  then __temp_malloc size p0
  else bind (ensure_hooked orig_malloc init) (fun _ => forward_malloc size) p0.
Proof.
  unfold malloc_body.
  rewrite (bind_step _ _ p _ tt (debug_msg_returns _ _ p)).
  destruct (after_debug_same "[INFO] Malloc call (size: %lu)\n" [size] p)
    as (_ & Hc & _).
  unfold bind at 1, gets. rewrite Hc. cbv zeta.
  destruct (pending_init (safiControl p)); reflexivity.
Qed.

Lemma ensure_hooked_resolved (orig : SafiControl -> fnptr) (init : M unit)
  (p : process) :
  orig (safiControl p) = resolved -> ensure_hooked orig init p = Returns tt p.
Proof. unfold ensure_hooked, bind, gets, ret. now intros ->. Qed.

Lemma ensure_hooked_null (orig : SafiControl -> fnptr) (init : M unit)
  (p : process) :
  orig (safiControl p) = nullptr -> ensure_hooked orig init p = init p.
Proof. unfold ensure_hooked, bind, gets. now intros ->. Qed.

(** C10. With the originals resolved, [free(NULL)] passes the range test
    (the array [temp_buffer] does not sit at address zero), records the
    usable size of the null pointer, which is zero, and forwards the
    pointer: [m_reserved], [m_total_reserved] and [m_freed] keep their
    values, [m_num_frees] goes up by one, and the original [free] is
    called with [NULL]. *)
Theorem free_null_counts_a_release (depth : nat) (p : process) :
  orig_free (safiControl p) = resolved ->
  0 < temp_buffer ->
  malloc_usable_size NULL (heap p) = 0 ->
  Int64.in_range (m_reserved (safiStats p)) ->
  Int64.in_range (m_freed (safiStats p)) ->
  exists p',
    free depth NULL p = Returns tt p' /\
    m_reserved (safiStats p') = m_reserved (safiStats p) /\
    m_total_reserved (safiStats p') = m_total_reserved (safiStats p) /\
    m_freed (safiStats p') = m_freed (safiStats p) /\
    m_real_peak (safiStats p') = m_real_peak (safiStats p) /\
    m_num_frees (safiStats p') = Int64.add (m_num_frees (safiStats p)) 1 /\
    libc_calls p' = CallFree NULL :: libc_calls p /\
    heap p' = libc_free NULL (heap p).
Proof.
  intros Hfree Hbuf Husable Hres Hfreed.
  set (p0 := after_debug "[INFO] Free call (ptr: %p)!\n" [NULL] p).
  destruct (after_debug_same "[INFO] Free call (ptr: %p)!\n" [NULL] p)
    as (A1 & A2 & A3 & A4 & A5 & A6). fold p0 in A1, A2, A3, A4, A5, A6.
  assert (Hout : in_temp_buffer NULL p0 = false).
  { unfold in_temp_buffer, NULL.
    destruct (Z.leb_spec temp_buffer 0); [lia | reflexivity]. }
  eexists. split.
  - unfold free. rewrite (bind_step _ _ p p0 tt) by apply debug_msg_returns.
    unfold bind at 1, gets. rewrite Hout.
    rewrite (bind_step _ _ p0 p0 tt)
      by (apply ensure_hooked_resolved; now rewrite A2).
    unfold usable_size, modify_stats, call_orig_free, modify, bind, gets.
    cbn. rewrite A2, Hfree. cbn. reflexivity.
  - cbn. rewrite A1, A5, A6, Husable.
    rewrite Int64Facts.sub_zero, Int64Facts.add_zero by assumption.
    repeat split; reflexivity.
Qed.

(** C8. With [orig_realloc] resolved, [realloc] reads the usable size of
    the block before the call, calls the original, reads the usable size
    of what it returned, and adds the difference of the two, negative when
    the block shrank, to [m_reserved]; the requested sizes do not enter. *)
Theorem realloc_records_usable_difference
  (depth : nat) (ptr size : Z) (p : process) :
  orig_realloc (safiControl p) = resolved ->
  let old_usable := malloc_usable_size ptr (heap p) in
  let r := libc_realloc ptr size (heap p) in
  let new_usable := malloc_usable_size (fst r) (snd r) in
  exists p',
    realloc depth ptr size p = Returns (fst r) p' /\
    heap p' = snd r /\
    libc_calls p' = CallRealloc ptr size :: libc_calls p /\
    m_reserved (safiStats p')
      = Int64.add (m_reserved (safiStats p)) (new_usable - old_usable) /\
    (Int64.in_range (m_reserved (safiStats p) + (new_usable - old_usable)) ->
     m_reserved (safiStats p')
       = m_reserved (safiStats p) + (new_usable - old_usable)).
Proof.
  intros Hre old_usable r new_usable.
  set (p0 := after_debug "[INFO] Realloc call (ptr, %p, size: %lu)\n" [ptr; size] p).
  destruct (after_debug_same "[INFO] Realloc call (ptr, %p, size: %lu)\n" [ptr; size] p)
    as (A1 & A2 & A3 & A4 & A5 & A6). fold p0 in A1, A2, A3, A4, A5, A6.
  eexists. split; [| split; [| split; [| split]]].
  - unfold realloc. rewrite (bind_step _ _ p p0 tt) by apply debug_msg_returns.
    unfold bind at 1, gets. rewrite A2, Hre. cbn [is_null].
    unfold usable_size, call_orig_realloc, modify_stats, modify, bind, gets, ret.
    cbn. rewrite A2, Hre. cbn. rewrite A5. reflexivity.
  - reflexivity.
  - cbn. now rewrite A6.
  - cbn. rewrite A1. apply SizeTFacts.add_wrapped.
  - intros Hrange. cbn. rewrite A1. unfold SizeT.sub.
    rewrite SizeTFacts.add_wrapped. now apply Int64Facts.add_exact.
Qed.

(** *** Re-entrant calls

    A nested call never starts an initialisation of its own: it arrives
    either while [pending_init] is set, and is served from [temp_buffer],
    or after [orig_malloc] has been resolved. *)

Lemma settled_same_control (p q : process) :
  safiControl q = safiControl p -> settled p -> settled q.
Proof. unfold settled. now intros ->. Qed.

Lemma forward_malloc_keeps_control (size : Z) (p p' : process) (a : Z) :
  forward_malloc size p = Returns a p' -> safiControl p' = safiControl p.
Proof.
  rewrite forward_malloc_unfold.
  destruct (orig_malloc (safiControl p)); [discriminate |].
  intros H. injection H as _ <-. reflexivity.
Qed.

Lemma malloc_body_settled_indep (init init' : M unit) (size : Z) (p : process) :
  settled p -> malloc_body init size p = malloc_body init' size p.
Proof.
  intros Hs. rewrite !malloc_body_unfold. cbv zeta.
  destruct (pending_init (safiControl p)) eqn:Hp; [reflexivity |].
  destruct Hs as [Hs | Hs]; [congruence |].
  destruct (after_debug_same "[INFO] Malloc call (size: %lu)\n" [size] p)
    as (_ & Hc & _).
  rewrite <- Hc in Hs.
  rewrite !(bind_step _ _ _ _ tt (ensure_hooked_resolved _ _ _ Hs)).
  reflexivity.
Qed.

Lemma malloc_body_settled_control (init : M unit) (size : Z) (p p' : process) (a : Z) :
  settled p -> malloc_body init size p = Returns a p' ->
  safiControl p' = safiControl p.
Proof.
  intros Hs. rewrite malloc_body_unfold. cbv zeta.
  destruct (after_debug_same "[INFO] Malloc call (size: %lu)\n" [size] p)
    as (_ & Hc & _).
  destruct (pending_init (safiControl p)) eqn:Hp.
  - intros H. apply temp_malloc_returns in H as (_ & _ & _ & _ & H & _). congruence.
  - destruct Hs as [Hs | Hs]; [congruence |].
    rewrite <- Hc in Hs.
    rewrite (bind_step _ _ _ _ tt (ensure_hooked_resolved _ _ _ Hs)).
    intros H. apply forward_malloc_keeps_control in H. congruence.
Qed.

Lemma calloc_body_unfold (m : Z -> M Z) (num size : Z) (p : process) :
  calloc_body m num size p =
  let p0 := after_debug "[INFO] Calloc call (num, %lu, size: %lu)\n" [num; size] p in
  match orig_calloc (safiControl p) with
  | nullptr =>
      match m (SizeT.mul num size) p0 with
      | Returns ptr q =>
          Returns ptr
            (if negb (ptr =? NULL)
             then set_heap (fst (heap q),
                            memset ptr 0 (SizeT.mul num size) (snd (heap q))) q
             else q)
      | Exits status q => Exits status q
      | Crashes q => Crashes q
      | Overflows q => Overflows q
      end
  | resolved =>
      let r := libc_calloc num size (heap p0) in
      Returns (fst r)
        (set_safiStats (log_calloc (malloc_usable_size (fst r) (snd r)) (safiStats p0))
           (set_libc_calls (CallCalloc num size :: libc_calls p0)
              (set_heap (snd r) p0)))
  end.
Proof.
  unfold calloc_body.
  rewrite (bind_step _ _ p _ tt (debug_msg_returns _ _ p)).
  destruct (after_debug_same "[INFO] Calloc call (num, %lu, size: %lu)\n" [num; size] p)
    as (_ & Hc & _).
  unfold bind at 1, gets. rewrite Hc. cbv zeta.
  destruct (orig_calloc (safiControl p)) eqn:Ho; cbn [is_null].
  - unfold bind at 1.
    destruct (m (SizeT.mul num size) _) as [ptr q | | |]; try reflexivity.
    unfold bind, modify, ret. destruct (negb (ptr =? NULL)); reflexivity.
  - unfold call_orig_calloc, usable_size, modify_stats, modify, bind, gets, ret.
    rewrite Hc, Ho. reflexivity.
Qed.

Lemma calloc_body_settled_control (m : Z -> M Z) (num size : Z)
  (p p' : process) (a : Z) :
  keeps_control m -> settled p -> calloc_body m num size p = Returns a p' ->
  safiControl p' = safiControl p.
Proof.
  intros Hm Hs. rewrite calloc_body_unfold. cbv zeta.
  destruct (after_debug_same "[INFO] Calloc call (num, %lu, size: %lu)\n" [num; size] p)
    as (_ & Hc & _).
  destruct (orig_calloc (safiControl p)).
  - destruct (m (SizeT.mul num size) _) as [ptr q | | |] eqn:Hq; try discriminate.
    apply Hm in Hq; [| now apply (settled_same_control p)].
    intros H. injection H as _ <-.
    destruct (negb (ptr =? NULL)); cbn; congruence.
  - intros H. injection H as _ <-. cbn. exact Hc.
Qed.

Lemma calloc_body_settled_indep (m m' : Z -> M Z) (num size : Z) (p : process) :
  agree_when_settled m m' -> settled p ->
  calloc_body m num size p = calloc_body m' num size p.
Proof.
  intros Hmm Hs. rewrite !calloc_body_unfold. cbv zeta.
  destruct (after_debug_same "[INFO] Calloc call (num, %lu, size: %lu)\n" [num; size] p)
    as (_ & Hc & _).
  rewrite (Hmm _ _ (settled_same_control p _ Hc Hs)). reflexivity.
Qed.

Lemma serve_settled_control (m : Z -> M Z) (r : request) (p p' : process) :
  keeps_control m -> settled p -> serve m r p = Returns tt p' ->
  safiControl p' = safiControl p.
Proof.
  intros Hm Hs H. destruct r as [size | num size]; cbn [serve] in H;
    apply bind_returns in H as (a & q & Hq & Hret);
    unfold ret in Hret; injection Hret as <-.
  - now apply (Hm size p a).
  - now apply (calloc_body_settled_control m num size p q a).
Qed.

Lemma serve_settled_indep (m m' : Z -> M Z) (r : request) (p : process) :
  agree_when_settled m m' -> settled p -> serve m r p = serve m' r p.
Proof.
  intros Hmm Hs. destruct r as [size | num size]; cbn [serve]; unfold bind.
  - now rewrite (Hmm size p Hs).
  - now rewrite (calloc_body_settled_indep m m' num size p Hmm Hs).
Qed.

Lemma serve_all_settled_control (m : Z -> M Z) (rs : list request) :
  keeps_control m ->
  forall p p', settled p -> serve_all m rs p = Returns tt p' ->
               safiControl p' = safiControl p.
Proof.
  intros Hm. induction rs as [|r rest IH]; intros p p' Hs H; cbn [serve_all] in H.
  - unfold ret in H. now injection H as <-.
  - apply bind_returns in H as ([] & q & Hq & Hrest).
    pose proof (serve_settled_control m r p q Hm Hs Hq) as Hc.
    rewrite (IH q p' (settled_same_control p q Hc Hs) Hrest). exact Hc.
Qed.

Lemma serve_all_settled_indep (m m' : Z -> M Z) (rs : list request) :
  keeps_control m -> agree_when_settled m m' ->
  forall p, settled p -> serve_all m rs p = serve_all m' rs p.
Proof.
  intros Hm Hmm. induction rs as [|r rest IH]; intros p Hs; cbn [serve_all].
  - reflexivity.
  - unfold bind. rewrite <- (serve_settled_indep m m' r p Hmm Hs).
    destruct (serve m r p) as [[] q | | |] eqn:Hq; try reflexivity.
    apply IH. apply (settled_same_control p); [| exact Hs].
    now apply (serve_settled_control m r p q Hm Hs).
Qed.

(** *** Initialisation *)

Lemma modify_control_step {B : Type} (g : SafiControl -> SafiControl)
  (k : unit -> M B) (p : process) :
  bind (modify_control g) k p = k tt (set_safiControl (g (safiControl p)) p).
Proof. reflexivity. Qed.

Lemma bind_congr {A B : Type} (m1 m2 : M A) (k1 k2 : A -> M B) (p : process) :
  m1 p = m2 p ->
  (forall a q, m1 p = Returns a q -> k1 a q = k2 a q) ->
  bind m1 k1 p = bind m2 k2 p.
Proof.
  intros Hm Hk. unfold bind. rewrite <- Hm.
  destruct (m1 p) as [a q | | |]; try reflexivity. now apply Hk.
Qed.

Lemma operator_new_returns (m : Z -> M Z) (size : Z) (p p' : process) (ptr : Z) :
  operator_new m size p = Returns ptr p' ->
  m size p = Returns ptr p' /\ ptr <> NULL.
Proof.
  unfold operator_new. intros H.
  apply bind_returns in H as (a & q & Hq & H).
  destruct (Z.eqb_spec a NULL) as [Ha | Ha]; [discriminate |].
  unfold ret in H. injection H as <- <-. now split.
Qed.

Lemma new_thread_settled_control (m : Z -> M Z) (p p' : process) (thread : Z) :
  keeps_control m -> settled p -> new_thread m p = Returns thread p' ->
  safiControl p' = safiControl p.
Proof.
  intros Hm Hs H. unfold new_thread in H.
  apply bind_returns in H as (a & q & Hq & H).
  apply operator_new_returns in Hq as [Hq _].
  apply Hm in Hq; [| exact Hs].
  apply bind_returns in H as ([] & q' & Hq' & Hret).
  unfold ret in Hret. injection Hret as _ <-.
  rewrite (serve_all_settled_control m _ Hm q q' (settled_same_control p q Hq Hs) Hq').
  exact Hq.
Qed.

Lemma new_thread_settled_indep (m m' : Z -> M Z) (p : process) :
  keeps_control m -> agree_when_settled m m' -> settled p ->
  new_thread m p = new_thread m' p.
Proof.
  intros Hm Hmm Hs. unfold new_thread.
  assert (Hnew : operator_new m sizeof_thread p = operator_new m' sizeof_thread p).
  { unfold operator_new, bind. now rewrite (Hmm sizeof_thread p Hs). }
  apply bind_congr; [exact Hnew |]. intros thread q Hq.
  apply operator_new_returns in Hq as [Hq _].
  apply bind_congr; [| reflexivity].
  apply serve_all_settled_indep; [exact Hm | exact Hmm |].
  apply (settled_same_control p); [| exact Hs].
  now apply (Hm sizeof_thread p thread).
Qed.

Lemma call_dlsym_returns (m : Z -> M Z) (name : string) (p p' : process) (f : fnptr) :
  keeps_control m -> settled p -> call_dlsym m name p = Returns f p' ->
  f = dlsym name /\ safiControl p' = safiControl p.
Proof.
  intros Hm Hs H. unfold call_dlsym in H.
  apply bind_returns in H as ([] & q & Hq & Hret).
  unfold ret in Hret. injection Hret as <- <-.
  split; [reflexivity |].
  exact (serve_all_settled_control m (dlsym_requests name) Hm p q Hs Hq).
Qed.

Lemma call_dlsym_indep (m m' : Z -> M Z) (name : string) (p : process) :
  keeps_control m -> agree_when_settled m m' -> settled p ->
  call_dlsym m name p = call_dlsym m' name p.
Proof.
  intros Hm Hmm Hs. unfold call_dlsym, bind.
  now rewrite (serve_all_settled_indep m m' _ Hm Hmm p Hs).
Qed.

Ltac dlsym_step H Hm f q :=
  let Hq := fresh "Hq" in
  let Hf := fresh "Hf" in
  let Hc := fresh "Hc" in
  rewrite modify_control_step in H;
  apply bind_returns in H as (f & q & Hq & H);
  apply (call_dlsym_returns _ _ _ _ _ Hm) in Hq as [Hf Hc];
  [| left; cbn;
     repeat match goal with
            | Hx : safiControl _ = _ |- _ => rewrite Hx; cbn
            end;
     reflexivity].

Lemma SafiControl_init_returns (m : Z -> M Z) (p p' : process) :
  keeps_control m -> SafiControl_init m p = Returns tt p' ->
  all_hooked (safiControl p') /\ debug (safiControl p') = debug (safiControl p).
Proof.
  intros Hm H. unfold SafiControl_init in H.
  dlsym_step H Hm f1 q1. dlsym_step H Hm f2 q2.
  dlsym_step H Hm f3 q3. dlsym_step H Hm f4 q4.
  rewrite modify_control_step in H. unfold bind at 1, gets in H.
  cbn [set_safiControl safiControl set_orig_free orig_malloc orig_calloc
       orig_realloc orig_free] in H.
  rewrite Hc2, Hc1, Hc0, Hc in H.
  cbn [set_safiControl safiControl set_orig_malloc set_orig_calloc
       set_orig_realloc set_pending_init orig_malloc orig_calloc
       orig_realloc orig_free] in H.
  destruct f1, f2, f3, f4; cbn [is_null orb] in H; try discriminate.
  unfold modify_control, modify in H. injection H as <-.
  unfold all_hooked; cbn. repeat split; reflexivity.
Qed.

Lemma SafiControl_init_indep (m m' : Z -> M Z) (p : process) :
  keeps_control m -> agree_when_settled m m' ->
  SafiControl_init m p = SafiControl_init m' p.
Proof.
  intros Hm Hmm. unfold SafiControl_init. rewrite !modify_control_step.
  assert (Hstep : forall (name : string) (k k' : fnptr -> M unit) (q : process),
             pending_init (safiControl q) = true ->
             (forall f q', safiControl q' = safiControl q -> k f q' = k' f q') ->
             bind (call_dlsym m name) k q = bind (call_dlsym m' name) k' q).
  { intros name k k' q Hq Hk. apply bind_congr.
    - apply call_dlsym_indep; [exact Hm | exact Hmm | now left].
    - intros f q' Hret.
      apply (call_dlsym_returns m name q q' f Hm) in Hret as [_ Hc]; [| now left].
      now apply Hk. }
  apply Hstep; [reflexivity |]. intros f1 q1 Hc1. rewrite !modify_control_step.
  apply Hstep; [cbn; now rewrite Hc1 |]. intros f2 q2 Hc2. rewrite !modify_control_step.
  apply Hstep; [cbn; rewrite Hc2; cbn; now rewrite Hc1 |].
  intros f3 q3 Hc3. rewrite !modify_control_step.
  apply Hstep; [cbn; rewrite Hc3; cbn; rewrite Hc2; cbn; now rewrite Hc1 |].
  reflexivity.
Qed.

Lemma init_body_indep (m m' : Z -> M Z) (p : process) :
  keeps_control m -> agree_when_settled m m' ->
  init_body m p = init_body m' p.
Proof.
  intros Hm Hmm. unfold init_body.
  apply bind_congr; [reflexivity |]. intros [] q0 _.
  apply bind_congr; [reflexivity |]. intros [] q1 _.
  apply bind_congr; [now apply SafiControl_init_indep |]. intros [] q2 Hq2.
  apply (SafiControl_init_returns m q1 q2 Hm) in Hq2 as [(Hmalloc & _) _].
  apply bind_congr; [| reflexivity].
  apply new_thread_settled_indep; [exact Hm | exact Hmm | now right].
Qed.

Lemma init_body_returns (m : Z -> M Z) (p p' : process) :
  keeps_control m -> init_body m p = Returns tt p' -> all_hooked (safiControl p').
Proof.
  intros Hm H. unfold init_body in H.
  apply bind_returns in H as ([] & q0 & _ & H).
  apply bind_returns in H as ([] & q1 & _ & H).
  apply bind_returns in H as ([] & q2 & Hq2 & H).
  apply (SafiControl_init_returns m q1 q2 Hm) in Hq2 as [Hhooked _].
  apply bind_returns in H as (thread & q3 & Hq3 & H).
  apply (new_thread_settled_control m q2 q3 thread Hm) in Hq3;
    [| right; apply Hhooked].
  apply bind_returns in H as ([] & q4 & Hq4 & H).
  unfold modify in Hq4. injection Hq4 as <-.
  rewrite debug_msg_returns in H. injection H as <-.
  destruct (after_debug_same "[INFO] End Init!\n" [] (set_print_thread thread q3))
    as (_ & Hc & _).
  rewrite Hc. cbn. now rewrite Hq3.
Qed.

Lemma malloc_body_keeps_control (init : M unit) : keeps_control (malloc_body init).
Proof. intros size p a p'. apply malloc_body_settled_control. Qed.

Lemma malloc_body_agree (init init' : M unit) :
  agree_when_settled (malloc_body init) (malloc_body init').
Proof. intros size p. apply malloc_body_settled_indep. Qed.

(** One level of nesting is all an initialisation ever uses: the outcome
    is the same at every depth from one on, and it is not [Overflows]
    unless a nested call overflowed, which the two lemmas above exclude. *)
Lemma init_safi_depth (depth : nat) (p : process) :
  __init_safi (S depth) p = __init_safi 1 p.
Proof.
  cbn [__init_safi]. apply init_body_indep.
  - apply malloc_body_keeps_control.
  - apply malloc_body_agree.
Qed.

Lemma init_safi_returns (depth : nat) (p p' : process) :
  __init_safi depth p = Returns tt p' -> all_hooked (safiControl p').
Proof.
  destruct depth as [|depth]; [discriminate |].
  cbn [__init_safi]. apply init_body_returns, malloc_body_keeps_control.
Qed.

Lemma malloc_depth (depth : nat) (size : Z) (p : process) :
  malloc (S depth) size p = malloc 1 size p.
Proof.
  unfold malloc. rewrite !malloc_body_unfold. cbv zeta.
  destruct (pending_init (safiControl p)); [reflexivity |].
  apply bind_congr; [| reflexivity].
  unfold ensure_hooked, bind, gets.
  destruct (is_null _); [apply init_safi_depth | reflexivity].
Qed.

(** After the entry part of [malloc] the original is there to call. *)
Lemma malloc_entry_hooks (depth : nat) (size : Z) (p p1 : process) :
  malloc_entry depth size p = Returns tt p1 ->
  orig_malloc (safiControl p1) = resolved.
Proof.
  unfold malloc_entry. rewrite (bind_step _ _ p _ tt (debug_msg_returns _ _ p)).
  set (p0 := after_debug _ _ p).
  destruct (orig_malloc (safiControl p0)) eqn:Ho.
  - rewrite ensure_hooked_null by exact Ho.
    intros H. now apply init_safi_returns in H as (H & _).
  - rewrite ensure_hooked_resolved by exact Ho.
    intros H. injection H as <-. exact Ho.
Qed.

Lemma malloc_from_entry (depth : nat) (size : Z) (p p1 : process) :
  pending_init (safiControl p) = false ->
  malloc_entry depth size p = Returns tt p1 ->
  malloc depth size p = forward_malloc size p1.
Proof.
  intros Hp He. unfold malloc. rewrite malloc_body_unfold, Hp. cbv zeta.
  unfold malloc_entry in He.
  rewrite (bind_step _ _ p _ tt (debug_msg_returns _ _ p)) in He.
  now rewrite (bind_step _ _ _ _ tt He).
Qed.

(** *** Allocation failure *)

(** C5. When the call through [orig_malloc] returns [NULL], the
    interposed [malloc] returns [NULL]; what it records is the usable size
    of the null pointer, zero, so [m_reserved], [m_total_reserved] and
    [m_freed] are what they were when the original was called. The call is
    still counted in [m_num_mallocs]. [p1] is the process at the call
    through [orig_malloc], after the debug line and, on the first call,
    the initialisation. *)
Theorem malloc_passes_null_through
  (depth : nat) (size : Z) (p p1 : process) (h' : allocator * memory) :
  pending_init (safiControl p) = false ->
  malloc_entry depth size p = Returns tt p1 ->
  libc_malloc size (heap p1) = (NULL, h') ->
  malloc_usable_size NULL h' = 0 ->
  Int64.in_range (m_reserved (safiStats p1)) ->
  Int64.in_range (m_total_reserved (safiStats p1)) ->
  exists p2,
    malloc depth size p = Returns NULL p2 /\
    m_reserved (safiStats p2) = m_reserved (safiStats p1) /\
    m_total_reserved (safiStats p2) = m_total_reserved (safiStats p1) /\
    m_freed (safiStats p2) = m_freed (safiStats p1) /\
    m_num_mallocs (safiStats p2) = Int64.add (m_num_mallocs (safiStats p1)) 1 /\
    libc_calls p2 = CallMalloc size :: libc_calls p1 /\
    heap p2 = h'.
Proof.
  intros Hp He Hnull Hus Hres Htot.
  rewrite (malloc_from_entry depth size p p1 Hp He), forward_malloc_unfold.
  rewrite (malloc_entry_hooks depth size p p1 He), Hnull.
  eexists. split; [reflexivity |]. cbn. rewrite Hus.
  rewrite !Int64Facts.add_zero by assumption.
  repeat split; reflexivity.
Qed.

(** *** The fallback of [calloc] *)



End InterpositionFacts.

(** ** The library on the concrete runtime *)

Module DemoRuns.
Import Demo.

(** The very first call: [dlsym] asks for 32 zeroed bytes while nothing is
    resolved yet and gets them from [temp_buffer], uncounted; the thread's
    three requests and the call itself go to the original allocator. *)
Example first_malloc :
  summary (malloc 1 100 fresh)
  = Some (268435840,
          mkSafiStats 464 464 464 0 3 1 0 0 false false,
          mkSafiControl false false resolved resolved resolved resolved nullptr,
          32,
          [CallMalloc 100; CallCalloc 1 304; CallMalloc 24; CallMalloc 8]).
Proof. vm_compute. reflexivity. Qed.

(** Without a level of nesting the first call cannot initialise. *)
Example first_malloc_needs_depth : malloc 0 100 fresh = Overflows fresh.
Proof. reflexivity. Qed.


Lemma free_null_counts_a_release_witness :
  orig_free (safiControl hooked) = resolved /\
  0 < temp_buffer /\
  exists p',
    free 0 NULL hooked = Returns tt p' /\
    m_reserved (safiStats p') = m_reserved (safiStats hooked) /\
    m_num_frees (safiStats p') = Int64.add (m_num_frees (safiStats hooked)) 1 /\
    libc_calls p' = CallFree NULL :: libc_calls hooked.
Proof.
  split; [reflexivity |]. split; [reflexivity |].
  destruct (free_null_counts_a_release 0 hooked)
    as (p' & Hrun & Hres & _ & _ & _ & Hnum & Hcalls & _).
  - reflexivity.
  - reflexivity.
  - reflexivity.
  - unfold Int64.in_range; cbn; lia.
  - unfold Int64.in_range; cbn; lia.
  - exists p'. auto.
Defined.

Lemma malloc_passes_null_through_witness :
  pending_init (safiControl hooked) = false /\
  malloc_entry 0 2000000 hooked = Returns tt hooked /\
  libc_malloc 2000000 (heap hooked) = (NULL, demo_heap) /\
  exists p2,
    malloc 0 2000000 hooked = Returns NULL p2 /\
    m_reserved (safiStats p2) = m_reserved (safiStats hooked) /\
    m_total_reserved (safiStats p2) = m_total_reserved (safiStats hooked).
Proof.
  split; [reflexivity |]. split; [vm_compute; reflexivity |]. split; [vm_compute; reflexivity |].
  destruct (malloc_passes_null_through 0 2000000 hooked hooked demo_heap)
    as (p2 & Hrun & Hres & Htot & _).
  - reflexivity.
  - reflexivity.
  - reflexivity.
  - reflexivity.
  - unfold Int64.in_range; cbn; lia.
  - unfold Int64.in_range; cbn; lia.
  - exists p2. auto.
Defined.

Lemma realloc_records_usable_difference_witness :
  orig_realloc (safiControl with_block) = resolved /\
  malloc_usable_size 268435456 (heap with_block) = 72 /\
  libc_realloc 268435456 256 (heap with_block)
    = (268435536, ((268435808, [(268435536, 264)]),
                   (170, [Move 268435536 268435456 72;
                          Fill demo_temp_buffer 0 80000]))) /\
  exists p',
    realloc 0 268435456 256 with_block = Returns 268435536 p' /\
    malloc_usable_size 268435536 (heap p') = 264 /\
    m_reserved (safiStats p') = Int64.add (m_reserved (safiStats with_block)) (264 - 72).
Proof.
  assert (Hre : orig_realloc (safiControl with_block) = resolved)
    by (vm_compute; reflexivity).
  assert (Hold : malloc_usable_size 268435456 (heap with_block) = 72)
    by (vm_compute; reflexivity).
  assert (Hnew : libc_realloc 268435456 256 (heap with_block)
                 = (268435536, ((268435808, [(268435536, 264)]),
                                (170, [Move 268435536 268435456 72;
                                       Fill demo_temp_buffer 0 80000]))))
    by (vm_compute; reflexivity).
  split; [exact Hre |]. split; [exact Hold |]. split; [exact Hnew |].
  destruct (realloc_records_usable_difference 0 268435456 256 with_block Hre)
    as (p' & Hrun & Hheap & _ & Hres & _).
  rewrite Hnew in Hrun, Hheap, Hres. rewrite Hold in Hres.
  cbn [fst snd] in Hrun, Hheap, Hres.
  exists p'. split; [exact Hrun |]. split; [now rewrite Hheap |]. exact Hres.
Defined.

(** The difference recorded is that of the usable sizes: growing a block
    from 10 to 100 bytes adds [104 - 24], and shrinking one from 256 to 10
    bytes takes [264 - 24] away. *)
Example realloc_grows_by_usable_sizes :
  summary (malloc 0 10 hooked)
  = Some (268435456, mkSafiStats 24 24 24 0 1 0 0 0 false false,
          safiControl hooked, 32, [CallMalloc 10]) /\
  summary (bind (malloc 0 10) (fun ptr => realloc 0 ptr 100) hooked)
  = Some (268435488,
          mkSafiStats (24 + (104 - 24)) (24 + (104 - 24)) 104 0 1 0 1 0 false false,
          safiControl hooked, 32,
          [CallRealloc 268435456 100; CallMalloc 10]).
Proof. split; vm_compute; reflexivity. Qed.

Example realloc_shrinks_by_usable_sizes :
  summary (bind (malloc 0 256) (fun ptr => realloc 0 ptr 10) hooked)
  = Some (268435456,
          mkSafiStats (264 + (24 - 264)) (264 + (24 - 264)) 264 0 1 0 1 0 false false,
          safiControl hooked, 32,
          [CallRealloc 268435456 10; CallMalloc 256]).
Proof. vm_compute. reflexivity. Qed.

End DemoRuns.

(** * Further properties *)

(** ** What the counters of the store add up to *)

Lemma final_cons (s : SafiStats) (op : record_op) (ops : list record_op) :
  final s (op :: ops) = final (record s op) ops.
Proof. reflexivity. Qed.

Lemma final_app (s : SafiStats) (a b : list record_op) :
  final s (a ++ b) = final (final s a) b.
Proof. apply fold_left_app. Qed.

Lemma final_in_range (ops : list record_op) :
  forall s, counters_in_range s -> counters_in_range (final s ops).
Proof.
  induction ops as [|op rest IH]; intros s Hs; [exact Hs |].
  rewrite final_cons. apply IH. now apply record_in_range.
Qed.

Lemma count_records_cons (kind : record_op -> bool) (op : record_op)
  (ops : list record_op) :
  count_records kind (op :: ops)
  = (if kind op then 1 else 0) + count_records kind ops.
Proof.
  unfold count_records. cbn [filter]. destruct (kind op); cbn [List.length]; lia.
Qed.

(** The general step behind the four counts: a field that [record] bumps
    on the operations of one kind and leaves alone on the others. *)
Lemma counter_closed_form (field : SafiStats -> Z) (kind : record_op -> bool) :
  (forall s op, field (record s op)
                = if kind op then Int64.add (field s) 1 else field s) ->
  forall ops s, Int64.in_range (field s) ->
                field (final s ops) = Int64.wrap (field s + count_records kind ops).
Proof.
  intros Hstep ops. induction ops as [|op rest IH]; intros s Hs.
  - unfold count_records; cbn. rewrite Z.add_0_r. symmetry.
    now apply Int64Facts.wrap_small.
  - rewrite final_cons, count_records_cons, IH.
    + rewrite Hstep. destruct (kind op).
      * unfold Int64.add. rewrite Int64Facts.wrap_add_l. f_equal. lia.
      * f_equal.
    + rewrite Hstep. destruct (kind op); [apply Int64Facts.wrap_range | exact Hs].
Qed.

(** X1. After any list of records on the zero-initialised store each of
    the four operation counters holds the number of records of its kind,
    as an [int64_t]. *)
Theorem counters_count_records (ops : list record_op) :
  let s := final safiStats0 ops in
  m_num_mallocs s = Int64.wrap (count_records is_RecMalloc ops) /\
  m_num_callocs s = Int64.wrap (count_records is_RecCalloc ops) /\
  m_num_reallocs s = Int64.wrap (count_records is_RecRealloc ops) /\
  m_num_frees s = Int64.wrap (count_records is_RecFree ops).
Proof.
  assert (H0 : Int64.in_range 0) by (unfold Int64.in_range, Int64.half_modulus; lia).
  cbv zeta. repeat split.
  - apply (counter_closed_form m_num_mallocs is_RecMalloc); [| exact H0].
    intros s []; reflexivity.
  - apply (counter_closed_form m_num_callocs is_RecCalloc); [| exact H0].
    intros s []; reflexivity.
  - apply (counter_closed_form m_num_reallocs is_RecRealloc); [| exact H0].
    intros s []; reflexivity.
  - apply (counter_closed_form m_num_frees is_RecFree); [| exact H0].
    intros s []; reflexivity.
Qed.

Lemma push_add (a u c : Z) :
  Int64.wrap (Int64.add a (Int64.of_size_t u) + c) = Int64.wrap (a + u + c).
Proof.
  unfold Int64.add, Int64.of_size_t.
  rewrite Int64Facts.wrap_add_l.
  replace (a + Int64.wrap u + c) with (a + c + Int64.wrap u) by lia.
  rewrite Int64Facts.wrap_add_r. f_equal. lia.
Qed.

Lemma push_sub (a u c : Z) :
  Int64.wrap (Int64.sub a (Int64.of_size_t u) + c) = Int64.wrap (a - u + c).
Proof.
  unfold Int64.sub, Int64.of_size_t.
  rewrite Int64Facts.wrap_add_l.
  replace (a - Int64.wrap u + c) with (a + c - Int64.wrap u) by lia.
  rewrite Int64Facts.wrap_sub_r. f_equal. lia.
Qed.

Lemma alloc_record_bytes (size : Z) (s : SafiStats) (rb lb : Z) :
  let s' := log_alloc_helper size s in
  Int64.wrap (m_total_reserved s' + rb)
    = Int64.wrap (m_total_reserved s + (size + rb)) /\
  Int64.wrap (m_freed s' + lb) = Int64.wrap (m_freed s + lb) /\
  Int64.wrap (m_reserved s' + rb - lb)
    = Int64.wrap (m_reserved s + (size + rb) - lb).
Proof.
  cbn. repeat split.
  - rewrite push_add. f_equal. lia.
  - rewrite <- Z.add_sub_assoc, push_add. f_equal. lia.
Qed.

Lemma free_record_bytes (size : Z) (s : SafiStats) (rb lb : Z) :
  let s' := log_free size s in
  Int64.wrap (m_total_reserved s' + rb) = Int64.wrap (m_total_reserved s + rb) /\
  Int64.wrap (m_freed s' + lb) = Int64.wrap (m_freed s + (size + lb)) /\
  Int64.wrap (m_reserved s' + rb - lb)
    = Int64.wrap (m_reserved s + rb - (size + lb)).
Proof.
  cbn. repeat split.
  - rewrite push_add. f_equal. lia.
  - rewrite <- Z.add_sub_assoc, push_sub. f_equal. lia.
Qed.

Lemma byte_totals_from (ops : list record_op) :
  forall s,
    Int64.wrap (m_total_reserved (final s ops))
      = Int64.wrap (m_total_reserved s + reserved_bytes ops) /\
    Int64.wrap (m_freed (final s ops))
      = Int64.wrap (m_freed s + released_bytes ops) /\
    Int64.wrap (m_reserved (final s ops))
      = Int64.wrap (m_reserved s + reserved_bytes ops - released_bytes ops).
Proof.
  induction ops as [|op rest IH]; intros s.
  - cbn. rewrite !Z.add_0_r, Z.sub_0_r. auto.
  - rewrite final_cons. destruct (IH (record s op)) as (Ht & Hf & Hr).
    rewrite Ht, Hf, Hr.
    destruct op; cbn [record reserved_bytes released_bytes].
    + apply (alloc_record_bytes size s).
    + apply (alloc_record_bytes size s).
    + apply (alloc_record_bytes size s).
    + apply (free_record_bytes size s).
Qed.

(** X2. After any list of records on the zero-initialised store,
    [m_total_reserved] is the sum of the sizes given to the allocating
    records, [m_freed] the sum of the sizes given to the releases, and
    [m_reserved] the difference of the two sums, each modulo [2^64] as an
    [int64_t]. *)
Theorem byte_totals_are_sums (ops : list record_op) :
  let s := final safiStats0 ops in
  m_total_reserved s = Int64.wrap (reserved_bytes ops) /\
  m_freed s = Int64.wrap (released_bytes ops) /\
  m_reserved s = Int64.wrap (reserved_bytes ops - released_bytes ops).
Proof.
  cbv zeta.
  destruct (final_in_range ops safiStats0 counters_in_range_init)
    as (Hr & Ht & _ & Hf & _).
  destruct (byte_totals_from ops safiStats0) as (Et & Ef & Er).
  rewrite Int64Facts.wrap_small in Et, Ef, Er by assumption.
  cbn in Et, Ef, Er. auto.
Qed.

Lemma record_peak_grows (s : SafiStats) (op : record_op) :
  m_real_peak s <= m_real_peak (record s op).
Proof. destruct op; cbn; lia. Qed.

Lemma final_peak_grows (ops : list record_op) :
  forall s, m_real_peak s <= m_real_peak (final s ops).
Proof.
  induction ops as [|op rest IH]; intros s; [cbn; lia |].
  rewrite final_cons. pose proof (record_peak_grows s op). pose proof (IH (record s op)).
  lia.
Qed.

(** X3. [m_real_peak] never decreases, and it covers every value
    [m_reserved] had right after an allocating record ([log_malloc],
    [log_calloc], [log_realloc]), whatever records follow: the peak is a
    high-water mark of the allocations, with no condition on sizes. *)
Theorem peak_is_high_water_mark
  (s : SafiStats) (before after : list record_op) (op : record_op) :
  is_RecFree op = false ->
  m_real_peak s <= m_real_peak (final s (before ++ op :: after)) /\
  m_reserved (final s (before ++ [op]))
    <= m_real_peak (final s (before ++ op :: after)).
Proof.
  intros Hop. split; [apply final_peak_grows |].
  rewrite !final_app. cbn [final fold_left].
  fold (final (record (final s before) op) after).
  pose proof (final_peak_grows after (record (final s before) op)) as Hgrow.
  assert (Hcov : peak_covers (record (final s before) op)).
  { destruct op; cbn; try discriminate; apply log_alloc_helper_peak. }
  unfold peak_covers in Hcov. lia.
Qed.

Lemma peak_is_high_water_mark_witness :
  let before := [RecMalloc 104] in
  let after := [RecFree 104; RecRealloc 8] in
  is_RecFree (RecCalloc 88) = false /\
  m_reserved (final safiStats0 (before ++ [RecCalloc 88])) = 192 /\
  m_reserved (final safiStats0 (before ++ [RecCalloc 88]))
    <= m_real_peak (final safiStats0 (before ++ RecCalloc 88 :: after)).
Proof.
  split; [reflexivity |]. split; [reflexivity |].
  apply (peak_is_high_water_mark safiStats0
           [RecMalloc 104] [RecFree 104; RecRealloc 8] (RecCalloc 88)).
  reflexivity.
Defined.

(** ** More about the reporting thread *)

Lemma run_cons (now : string) (sy : system) (t : thread_step)
  (sched : list thread_step) :
  run now sy (t :: sched) = run now (step now sy t) sched.
Proof. reflexivity. Qed.

Lemma run_keeps_flag (now : string) (sched : list thread_step) :
  forall sy, m_disable_print (sys_stats sy) = true ->
             m_disable_print (sys_stats (run now sy sched)) = true.
Proof.
  induction sched as [|t rest IH]; intros sy H; [exact H |].
  rewrite run_cons. apply IH. now apply flag_latched.
Qed.

(** X4. Nothing re-enables reporting: if [disablePrint] runs anywhere in
    a schedule, from whatever state, the flag is set at the end of it,
    whatever records, thread steps and further [disablePrint] calls come
    before or after. *)
Theorem disabled_stays_disabled
  (now : string) (sy : system) (sched : list thread_step) :
  existsb is_disable sched = true ->
  isPrintEnabled (sys_stats (run now sy sched)) = true.
Proof.
  revert sy. induction sched as [|t rest IH]; intros sy H; [discriminate |].
  rewrite run_cons. cbn [existsb] in H.
  destruct t; cbn [is_disable orb] in H; try (now apply IH).
  apply run_keeps_flag. reflexivity.
Qed.

Lemma disabled_stays_disabled_witness :
  let sched := [StepDaemon; StepDisablePrint; StepRecord (RecMalloc 8);
                StepDisablePrint; StepDaemon] in
  existsb is_disable sched = true /\
  isPrintEnabled (sys_stats (run "now" system0 sched)) = true.
Proof.
  split; [reflexivity |].
  apply (disabled_stays_disabled "now" system0
           [StepDaemon; StepDisablePrint; StepRecord (RecMalloc 8);
            StepDisablePrint; StepDaemon]).
  reflexivity.
Defined.

Lemma reports_app (a b : list daemon_event) :
  reports (a ++ b) = (reports a + reports b)%nat.
Proof. unfold reports. now rewrite filter_app, length_app. Qed.

Lemma daemon_steps_cons (t : thread_step) (sched : list thread_step) :
  daemon_steps (t :: sched)
  = ((if is_daemon t then 1 else 0) + daemon_steps sched)%nat.
Proof. unfold daemon_steps. cbn [filter]. destruct (is_daemon t); reflexivity. Qed.

Lemma undisturbed_from (now : string) (sched : list thread_step) :
  forall sy,
    existsb is_disable sched = false ->
    m_disable_print (sys_stats sy) = false ->
    sys_pc sy <> Finished ->
    let sy' := run now sy sched in
    m_disable_print (sys_stats sy') = false /\
    sys_pc sy' <> Finished /\
    (daemon_steps sched + 3 * reports (sys_events sy) + loop_offset (sys_pc sy)
     = 3 * reports (sys_events sy') + loop_offset (sys_pc sy'))%nat.
Proof.
  induction sched as [|t rest IH]; intros sy Hno Hflag Hpc.
  - cbn. repeat split; assumption.
  - cbn [existsb] in Hno. apply orb_false_iff in Hno as [Ht Hrest].
    rewrite run_cons, daemon_steps_cons. cbv zeta.
    destruct t; [| | discriminate].
    + (* a step of the thread *)
      destruct sy as [s pc evs]. cbn [sys_stats sys_pc sys_events] in *.
      destruct pc; [| | | congruence].
      * destruct (IH (mkSystem s AtSleep (evs ++ [])) Hrest Hflag ltac:(discriminate))
          as (A & B & C).
        cbn [step daemon_step sys_stats sys_pc sys_events].
        unfold isPrintEnabled. rewrite Hflag. cbn [negb].
        split; [exact A | split; [exact B |]].
        cbn [sys_events sys_pc] in C. rewrite reports_app in C.
        cbn in C |- *. lia.
      * destruct (IH (mkSystem s AtPrint (evs ++ [Slept PRINT_FREQ_IN_SEC]))
                     Hrest Hflag ltac:(discriminate)) as (A & B & C).
        cbn [step daemon_step sys_stats sys_pc sys_events].
        split; [exact A | split; [exact B |]].
        cbn [sys_events sys_pc] in C. rewrite reports_app in C.
        cbn in C |- *. lia.
      * destruct (IH (mkSystem s AtLoopTest (evs ++ [Printed (print now s)]))
                     Hrest Hflag ltac:(discriminate)) as (A & B & C).
        cbn [step daemon_step sys_stats sys_pc sys_events].
        split; [exact A | split; [exact B |]].
        cbn [sys_events sys_pc] in C. rewrite reports_app in C.
        cbn in C |- *. lia.
    + (* a record of another thread *)
      apply (IH (step now sy (StepRecord op))); [exact Hrest | | exact Hpc].
      cbn. now rewrite record_keeps_flag.
Qed.

(** X5. The thread does not stop by itself: along a schedule without
    [disablePrint] it never leaves its loop, and the number of its steps
    is three for each report printed plus the statements of the iteration
    under way, so a report appears exactly every third step, each after
    one sleep. *)
Theorem daemon_runs_until_disabled (now : string) (sched : list thread_step) :
  existsb is_disable sched = false ->
  let sy := run now system0 sched in
  sys_pc sy <> Finished /\
  daemon_steps sched = (3 * reports (sys_events sy) + loop_offset (sys_pc sy))%nat.
Proof.
  intros Hno sy.
  destruct (undisturbed_from now sched system0 Hno eq_refl ltac:(discriminate))
    as (_ & Hpc & Hcount).
  fold sy in Hpc, Hcount. split; [exact Hpc |].
  cbn in Hcount. unfold reports in *. cbn in Hcount. lia.
Qed.

Lemma daemon_runs_until_disabled_witness :
  let sched := [StepDaemon; StepDaemon; StepRecord (RecMalloc 8); StepDaemon;
                StepDaemon; StepDaemon] in
  existsb is_disable sched = false /\
  daemon_steps sched = 5%nat /\
  sys_pc (run "now" system0 sched) <> Finished.
Proof.
  split; [reflexivity |]. split; [reflexivity |].
  apply (daemon_runs_until_disabled "now"
           [StepDaemon; StepDaemon; StepRecord (RecMalloc 8); StepDaemon;
            StepDaemon; StepDaemon]).
  reflexivity.
Defined.

(** ** What a call can change

    A relation between the process before and after that every elementary
    update of the library respects is respected by every call that
    returns, whatever it nests. *)

Section Footprint.

Context {R : Runtime}.

Variable Rel : process -> process -> Prop.

Hypothesis Rel_refl : forall p, Rel p p.
Hypothesis Rel_trans : forall p q r, Rel p q -> Rel q r -> Rel p r.
Hypothesis Rel_debug_msg :
  forall format args p, Rel p (after_debug format args p).
Hypothesis Rel_control :
  forall g p,
    debug (g (safiControl p)) = debug (safiControl p) ->
    Rel p (set_safiControl (g (safiControl p)) p).
Hypothesis Rel_set_debug :
  forall str p,
    getenv "MEM_SAFI_DEBUG" = Some str -> String.eqb str "1" = true ->
    Rel p (set_safiControl (set_debug true (safiControl p)) p).
Hypothesis Rel_thread : forall v p, Rel p (set_print_thread v p).
Hypothesis Rel_used :
  forall size p,
    SizeT.add (used_buffer_size p) size <= TEMP_BUFFER_SIZE ->
    Rel p (set_used_buffer_size (SizeT.add (used_buffer_size p) size) p).
Hypothesis Rel_memory : forall m p, Rel p (set_heap (fst (heap p), m) p).
Hypothesis Rel_malloc :
  forall size p, Rel p (after_malloc size (libc_malloc size (heap p)) p).
Hypothesis Rel_calloc : forall num size p, Rel p (after_calloc num size p).
Hypothesis Rel_realloc : forall ptr size p, Rel p (after_realloc ptr size p).
Hypothesis Rel_free : forall ptr p, Rel p (after_free ptr p).

Lemma respects_ret {A : Type} (a : A) : respects Rel (ret a).
Proof. intros p a' p' H. unfold ret in H. injection H as _ <-. apply Rel_refl. Qed.

Lemma respects_bind {A B : Type} (m : M A) (k : A -> M B) :
  respects Rel m -> (forall a, respects Rel (k a)) -> respects Rel (bind m k).
Proof.
  intros Hm Hk p b p' H. apply bind_returns in H as (a & q & Hq & Hrest).
  eapply Rel_trans; [eapply Hm, Hq | eapply Hk, Hrest].
Qed.

Lemma respects_gets {A : Type} (f : process -> A) : respects Rel (gets f).
Proof. intros p a p' H. unfold gets in H. injection H as _ <-. apply Rel_refl. Qed.

Lemma respects_modify (f : process -> process) :
  (forall p, Rel p (f p)) -> respects Rel (modify f).
Proof. intros Hf p [] p' H. unfold modify in H. injection H as <-. apply Hf. Qed.

Lemma respects_exit {A : Type} (status : Z) : respects Rel (@exit R A status).
Proof. intros p a p' H. discriminate. Qed.

Lemma respects_crashes {A : Type} : respects Rel (@Crashes R A).
Proof. intros p a p' H. discriminate. Qed.

Lemma respects_overflows {A : Type} : respects Rel (@Overflows R A).
Proof. intros p a p' H. discriminate. Qed.

Lemma respects_debug_msg (format : string) (args : list Z) :
  respects Rel (__debug_msg format args).
Proof.
  intros p [] p' H. rewrite debug_msg_returns in H. injection H as <-.
  apply Rel_debug_msg.
Qed.

Lemma respects_modify_control (g : SafiControl -> SafiControl) :
  (forall c, debug (g c) = debug c) -> respects Rel (modify_control g).
Proof. intros Hg. apply respects_modify. intros p. apply Rel_control, Hg. Qed.

Lemma respects_never {A B : Type} (m : M A) (status : Z) :
  respects Rel (bind m (fun _ => @exit R B status)).
Proof.
  intros p a p' H. apply bind_returns in H as (x & q & _ & H). discriminate.
Qed.

Lemma respects_temp_malloc (size : Z) : respects Rel (__temp_malloc size).
Proof.
  intros p a p' H. rewrite temp_malloc_unfold in H. cbv zeta in H.
  destruct (Z.gtb_spec (SizeT.add (used_buffer_size p) size) TEMP_BUFFER_SIZE)
    as [Hgt | Hle]; [discriminate |].
  injection H as _ <-.
  set (p1 := after_debug "[INFO] Temp Malloc (size: %lu)\n" [size] p).
  destruct (after_debug_same "[INFO] Temp Malloc (size: %lu)\n" [size] p)
    as (_ & _ & _ & Hused & _). fold p1 in Hused.
  eapply Rel_trans; [apply Rel_debug_msg |]. fold p1.
  rewrite <- Hused. apply Rel_used. now rewrite Hused.
Qed.

Lemma respects_forward_malloc (size : Z) : respects Rel (forward_malloc size).
Proof.
  intros p a p' H. rewrite forward_malloc_unfold in H.
  destruct (orig_malloc (safiControl p)); [discriminate |].
  injection H as _ <-. apply Rel_malloc.
Qed.

Lemma respects_ensure_hooked (orig : SafiControl -> fnptr) (init : M unit) :
  respects Rel init -> respects Rel (ensure_hooked orig init).
Proof.
  intros Hinit. unfold ensure_hooked. apply respects_bind; [apply respects_gets |].
  intros f. destruct (is_null f); [exact Hinit | apply respects_ret].
Qed.

Lemma respects_malloc_body (init : M unit) (size : Z) :
  respects Rel init -> respects Rel (malloc_body init size).
Proof.
  intros Hinit. unfold malloc_body.
  apply respects_bind; [apply respects_debug_msg | intros _].
  apply respects_bind; [apply respects_gets | intros pending].
  destruct pending; [apply respects_temp_malloc |].
  apply respects_bind; [now apply respects_ensure_hooked | intros _].
  apply respects_forward_malloc.
Qed.

Lemma respects_calloc_body (m : Z -> M Z) (num size : Z) :
  (forall n, respects Rel (m n)) -> respects Rel (calloc_body m num size).
Proof.
  intros Hm p a p' H. rewrite calloc_body_unfold in H. cbv zeta in H.
  set (p0 := after_debug "[INFO] Calloc call (num, %lu, size: %lu)\n" [num; size] p) in H.
  assert (H0 : Rel p p0) by apply Rel_debug_msg.
  destruct (after_debug_same "[INFO] Calloc call (num, %lu, size: %lu)\n" [num; size] p)
    as (_ & Hc & _). fold p0 in Hc.
  destruct (orig_calloc (safiControl p)).
  - destruct (m (SizeT.mul num size) p0) as [ptr q | | |] eqn:Hq; try discriminate.
    injection H as _ <-. apply Hm in Hq.
    eapply Rel_trans; [exact H0 |]. eapply Rel_trans; [exact Hq |].
    destruct (negb (ptr =? NULL)); [apply Rel_memory | apply Rel_refl].
  - injection H as _ <-. eapply Rel_trans; [exact H0 |]. apply Rel_calloc.
Qed.

Lemma respects_serve_all (m : Z -> M Z) (rs : list request) :
  (forall n, respects Rel (m n)) -> respects Rel (serve_all m rs).
Proof.
  intros Hm. induction rs as [|r rest IH]; cbn [serve_all]; [apply respects_ret |].
  apply respects_bind; [| intros _; exact IH].
  destruct r as [size | num size]; cbn [serve].
  - apply respects_bind; [apply Hm | intros _; apply respects_ret].
  - apply respects_bind; [now apply respects_calloc_body | intros _; apply respects_ret].
Qed.

Lemma respects_call_dlsym (m : Z -> M Z) (name : string) :
  (forall n, respects Rel (m n)) -> respects Rel (call_dlsym m name).
Proof.
  intros Hm. unfold call_dlsym.
  apply respects_bind; [now apply respects_serve_all | intros _; apply respects_ret].
Qed.

Lemma respects_SafiControl_init (m : Z -> M Z) :
  (forall n, respects Rel (m n)) -> respects Rel (SafiControl_init m).
Proof.
  intros Hm. unfold SafiControl_init.
  repeat (apply respects_bind;
          [first [apply respects_modify_control; intros c; reflexivity
                 | now apply respects_call_dlsym
                 | apply respects_gets]
          | intros ?]).
  destruct (_ || _).
  - apply respects_never.
  - apply respects_modify_control. intros c; reflexivity.
Qed.

Lemma respects_new_thread (m : Z -> M Z) :
  (forall n, respects Rel (m n)) -> respects Rel (new_thread m).
Proof.
  intros Hm. unfold new_thread, operator_new.
  apply respects_bind.
  - apply respects_bind; [apply Hm | intros ptr].
    destruct (ptr =? NULL); [apply respects_crashes | apply respects_ret].
  - intros thread.
    apply respects_bind; [now apply respects_serve_all | intros _; apply respects_ret].
Qed.

Lemma respects_init_body (m : Z -> M Z) :
  (forall n, respects Rel (m n)) -> respects Rel (init_body m).
Proof.
  intros Hm. unfold init_body.
  apply respects_bind.
  { destruct (getenv "MEM_SAFI_DEBUG") as [str |] eqn:Henv; [| apply respects_ret].
    destruct (String.eqb str "1") eqn:Hone; [| apply respects_ret].
    apply respects_modify. intros p. now apply (Rel_set_debug str). }
  intros _. apply respects_bind; [apply respects_debug_msg | intros _].
  apply respects_bind; [now apply respects_SafiControl_init | intros _].
  apply respects_bind; [now apply respects_new_thread | intros thread].
  apply respects_bind; [| intros _; apply respects_debug_msg].
  apply respects_modify. intros p. apply Rel_thread.
Qed.

Lemma respects_init_safi (depth : nat) : respects Rel (__init_safi depth).
Proof.
  induction depth as [|depth IH]; cbn [__init_safi]; [apply respects_overflows |].
  apply respects_init_body. intros n. now apply respects_malloc_body.
Qed.

Lemma respects_malloc (depth : nat) (size : Z) : respects Rel (malloc depth size).
Proof. apply respects_malloc_body, respects_init_safi. Qed.


Lemma respects_calloc (depth : nat) (num size : Z) : respects Rel (calloc depth num size).
Proof. apply respects_calloc_body. intros n. apply respects_malloc. Qed.

Lemma free_tail_unfold (ptr : Z) (p : process) :
  bind (usable_size ptr)
       (fun size => bind (modify_stats (log_free size))
                         (fun _ => call_orig_free ptr)) p
  = match orig_free (safiControl p) with
    | nullptr =>
        Crashes (set_safiStats
                   (log_free (malloc_usable_size ptr (heap p)) (safiStats p)) p)
    | resolved => Returns tt (after_free ptr p)
    end.
Proof.
  unfold usable_size, modify_stats, call_orig_free, modify, bind, gets, after_free.
  cbn. destruct (orig_free (safiControl p)); reflexivity.
Qed.

Lemma respects_free (depth : nat) (ptr : Z) : respects Rel (free depth ptr).
Proof.
  unfold free.
  apply respects_bind; [apply respects_debug_msg | intros _].
  apply respects_bind; [apply respects_gets | intros inside].
  destruct inside; [apply respects_debug_msg |].
  apply respects_bind; [apply respects_ensure_hooked, respects_init_safi | intros _].
  intros p [] p' H. rewrite free_tail_unfold in H.
  destruct (orig_free (safiControl p)); [discriminate |].
  injection H as <-. apply Rel_free.
Qed.

Lemma realloc_tail_unfold (ptr size : Z) (p : process) :
  bind (usable_size ptr)
       (fun old_size =>
          bind (call_orig_realloc ptr size)
               (fun new_ptr =>
                  bind (usable_size new_ptr)
                       (fun new_usable =>
                          bind (modify_stats
                                  (log_realloc (SizeT.sub new_usable old_size)))
                               (fun _ => ret new_ptr)))) p
  = match orig_realloc (safiControl p) with
    | nullptr => Crashes p
    | resolved => Returns (fst (libc_realloc ptr size (heap p)))
                          (after_realloc ptr size p)
    end.
Proof.
  unfold usable_size, call_orig_realloc, modify_stats, modify, bind, gets, ret,
    after_realloc.
  cbn. destruct (orig_realloc (safiControl p)); reflexivity.
Qed.

Lemma respects_realloc (depth : nat) (ptr size : Z) :
  respects Rel (realloc depth ptr size).
Proof.
  unfold realloc.
  apply respects_bind; [apply respects_debug_msg | intros _].
  apply respects_bind; [apply respects_gets | intros f].
  destruct (is_null f).
  - apply respects_bind; [apply respects_malloc | intros new_ptr].
    apply respects_bind; [| intros _; apply respects_ret].
    destruct (_ && _); [| apply respects_ret].
    apply respects_bind; [| intros _; apply respects_free].
    apply respects_modify. intros p. apply Rel_memory.
  - intros p a p' H. rewrite realloc_tail_unfold in H.
    destruct (orig_realloc (safiControl p)); [discriminate |].
    injection H as _ <-. apply Rel_realloc.
Qed.

Lemma respects_invoke (depth : nat) (c : api_call) : respects Rel (invoke depth c).
Proof.
  destruct c; cbn [invoke].
  - apply respects_bind; [apply respects_malloc | intros _; apply respects_ret].
  - apply respects_bind; [apply respects_calloc | intros _; apply respects_ret].
  - apply respects_bind; [apply respects_realloc | intros _; apply respects_ret].
  - apply respects_free.
Qed.

Lemma respects_invoke_all (depth : nat) (cs : list api_call) :
  respects Rel (invoke_all depth cs).
Proof.
  induction cs as [|c rest IH]; cbn [invoke_all]; [apply respects_ret |].
  apply respects_bind; [apply respects_invoke | intros _; exact IH].
Qed.

Lemma respects_run_routine (depth : nat) (r : routine) :
  respects Rel (run_routine depth r).
Proof.
  induction r as [| size rest IH | num size rest IH | ptr size rest IH | ptr rest IH];
    cbn [run_routine].
  - apply respects_ret.
  - apply respects_bind; [apply respects_malloc | exact IH].
  - apply respects_bind; [apply respects_calloc | exact IH].
  - apply respects_bind; [apply respects_realloc | exact IH].
  - apply respects_bind; [apply respects_free | intros _; exact IH].
Qed.

End Footprint.

(** ** Calls of the host program *)

Section CallFacts.

Context {R : Runtime}.

Local Open Scope string_scope.
Local Open Scope list_scope.
Local Open Scope Z_scope.

Lemma accounted_refl (p : process) : accounted p p.
Proof. exists [], []. repeat split. constructor. Qed.

Lemma accounted_trans (p q r : process) :
  accounted p q -> accounted q r -> accounted p r.
Proof.
  intros (o1 & c1 & S1 & L1 & F1) (o2 & c2 & S2 & L2 & F2).
  exists (o1 ++ o2), (c1 ++ c2). split; [| split].
  - now rewrite final_app, <- S1.
  - now rewrite L2, L1, rev_app_distr, app_assoc.
  - now apply Forall2_app.
Qed.

(** An update that leaves the store and the list of forwarded calls
    alone. *)
Lemma accounted_quiet (p q : process) :
  safiStats q = safiStats p -> libc_calls q = libc_calls p -> accounted p q.
Proof. intros Hs Hl. exists [], []. repeat split; try assumption. constructor. Qed.

(** One record for one forwarded call. *)
Lemma accounted_one (p q : process) (op : record_op) (c : libc_call) :
  same_kind op c = true ->
  safiStats q = record (safiStats p) op -> libc_calls q = c :: libc_calls p ->
  accounted p q.
Proof.
  intros Hk Hs Hl. exists [op], [c]. repeat split; try assumption.
  constructor; [exact Hk | constructor].
Qed.

(** Each elementary update of the library is accounted for. *)
Lemma accounted_debug_msg (format : string) (args : list Z) (p : process) :
  accounted p (after_debug format args p).
Proof.
  destruct (after_debug_same format args p) as (A1 & _ & _ & _ & _ & A6).
  now apply accounted_quiet.
Qed.

Lemma accounted_control (g : SafiControl -> SafiControl) (p : process) :
  debug (g (safiControl p)) = debug (safiControl p) ->
  accounted p (set_safiControl (g (safiControl p)) p).
Proof. intros _. now apply accounted_quiet. Qed.

Lemma accounted_set_debug (str : string) (p : process) :
  getenv "MEM_SAFI_DEBUG" = Some str -> String.eqb str "1" = true ->
  accounted p (set_safiControl (set_debug true (safiControl p)) p).
Proof. intros _ _. now apply accounted_quiet. Qed.

Lemma accounted_thread (v : Z) (p : process) : accounted p (set_print_thread v p).
Proof. now apply accounted_quiet. Qed.

Lemma accounted_used (size : Z) (p : process) :
  SizeT.add (used_buffer_size p) size <= TEMP_BUFFER_SIZE ->
  accounted p (set_used_buffer_size (SizeT.add (used_buffer_size p) size) p).
Proof. intros _. now apply accounted_quiet. Qed.

Lemma accounted_memory (m : memory) (p : process) :
  accounted p (set_heap (fst (heap p), m) p).
Proof. now apply accounted_quiet. Qed.

Lemma accounted_malloc (size : Z) (p : process) :
  accounted p (after_malloc size (libc_malloc size (heap p)) p).
Proof.
  apply (accounted_one _ _
           (RecMalloc (malloc_usable_size (fst (libc_malloc size (heap p)))
                                          (snd (libc_malloc size (heap p)))))
           (CallMalloc size)); reflexivity.
Qed.

Lemma accounted_calloc (num size : Z) (p : process) :
  accounted p (after_calloc num size p).
Proof.
  apply (accounted_one _ _
           (RecCalloc (malloc_usable_size (fst (libc_calloc num size (heap p)))
                                          (snd (libc_calloc num size (heap p)))))
           (CallCalloc num size)); reflexivity.
Qed.

Lemma accounted_realloc (ptr size : Z) (p : process) :
  accounted p (after_realloc ptr size p).
Proof.
  apply (accounted_one _ _
           (RecRealloc
              (SizeT.sub
                 (malloc_usable_size (fst (libc_realloc ptr size (heap p)))
                                     (snd (libc_realloc ptr size (heap p))))
                 (malloc_usable_size ptr (heap p))))
           (CallRealloc ptr size)); reflexivity.
Qed.

Lemma accounted_free (ptr : Z) (p : process) : accounted p (after_free ptr p).
Proof.
  apply (accounted_one _ _
           (RecFree (malloc_usable_size ptr (heap p))) (CallFree ptr));
    reflexivity.
Qed.

Ltac by_accounting footprint :=
  apply footprint;
  first [ exact accounted_refl | exact accounted_trans
        | exact accounted_debug_msg | exact accounted_control
        | exact accounted_set_debug | exact accounted_thread
        | exact accounted_used | exact accounted_memory
        | exact accounted_malloc | exact accounted_calloc
        | exact accounted_realloc | exact accounted_free ].

Lemma invoke_all_accounted (depth : nat) (cs : list api_call) :
  respects accounted (invoke_all depth cs).
Proof. by_accounting respects_invoke_all. Qed.


Lemma free_call_accounted (depth : nat) (ptr : Z) :
  respects accounted (free depth ptr).
Proof. by_accounting respects_free. Qed.

Lemma run_routine_accounted (depth : nat) (r : routine) :
  respects accounted (run_routine depth r).
Proof. by_accounting respects_run_routine. Qed.

(** X6. Across any list of calls to the interposed [malloc], [calloc],
    [realloc] and [free] that returns, first call and bootstrap included,
    the store changes by records only, and there is exactly one record
    for each call forwarded to the original functions, of the same kind
    and in the same order: nothing is recorded that was not forwarded and
    nothing forwarded goes unrecorded. *)
Theorem calls_are_accounted
  (depth : nat) (cs : list api_call) (p p' : process) :
  invoke_all depth cs p = Returns tt p' -> accounted p p'.
Proof.
  apply (respects_invoke_all accounted accounted_refl accounted_trans).
  - intros format args p0.
    destruct (after_debug_same format args p0) as (A1 & _ & _ & _ & _ & A6).
    now apply accounted_quiet.
  - intros g p0 _. now apply accounted_quiet.
  - intros str p0 _ _. now apply accounted_quiet.
  - intros v p0. now apply accounted_quiet.
  - intros size p0 _. now apply accounted_quiet.
  - intros m p0. now apply accounted_quiet.
  - intros size p0.
    apply (accounted_one _ _
             (RecMalloc (malloc_usable_size (fst (libc_malloc size (heap p0)))
                                            (snd (libc_malloc size (heap p0)))))
             (CallMalloc size)); reflexivity.
  - intros num size p0.
    apply (accounted_one _ _
             (RecCalloc (malloc_usable_size (fst (libc_calloc num size (heap p0)))
                                            (snd (libc_calloc num size (heap p0)))))
             (CallCalloc num size)); reflexivity.
  - intros ptr size p0.
    apply (accounted_one _ _
             (RecRealloc
                (SizeT.sub
                   (malloc_usable_size (fst (libc_realloc ptr size (heap p0)))
                                       (snd (libc_realloc ptr size (heap p0))))
                   (malloc_usable_size ptr (heap p0))))
             (CallRealloc ptr size)); reflexivity.
  - intros ptr p0.
    apply (accounted_one _ _
             (RecFree (malloc_usable_size ptr (heap p0))) (CallFree ptr));
      reflexivity.
Qed.

Lemma final_balanced (ops : list record_op) :
  forall s, balanced s -> balanced (final s ops).
Proof.
  induction ops as [|op rest IH]; intros s Hs; [exact Hs |].
  rewrite final_cons. apply IH. now apply record_balanced.
Qed.

(** X7. The balance of the store holds at the level of the calls: if
    [m_reserved] is [m_total_reserved - m_freed] (in 64-bit arithmetic)
    before a list of interposed calls, it is so after it, whatever the
    original allocator returns; in particular after any calls on the
    process as loaded. *)
Theorem calls_keep_balance
  (depth : nat) (cs : list api_call) (p p' : process) :
  invoke_all depth cs p = Returns tt p' ->
  balanced (safiStats p) -> balanced (safiStats p').
Proof.
  intros Hrun Hb. apply invoke_all_accounted in Hrun as (ops & calls & Hs & _).
  rewrite Hs. now apply final_balanced.
Qed.

Lemma count_same_kind (kr : record_op -> bool) (kc : libc_call -> bool) :
  (forall op c, same_kind op c = true -> kr op = kc c) ->
  forall ops calls,
    Forall2 (fun op c => same_kind op c = true) ops calls ->
    count_records kr ops = count_calls kc calls.
Proof.
  intros Hk ops calls HF. unfold count_records, count_calls. f_equal.
  induction HF as [| op c ops calls Hoc _ IH]; [reflexivity |].
  cbn [filter]. rewrite (Hk op c Hoc). destruct (kc c); cbn [List.length]; congruence.
Qed.

Lemma count_calls_rev (kc : libc_call -> bool) (calls : list libc_call) :
  count_calls kc (rev calls) = count_calls kc calls.
Proof.
  unfold count_calls. f_equal.
  induction calls as [|c rest IH]; [reflexivity |].
  cbn [rev filter]. rewrite filter_app, length_app, IH. cbn [filter].
  destruct (kc c); cbn [List.length]; lia.
Qed.

(** X8. On a process started as loaded, after any list of interposed
    calls each operation counter equals the number of calls forwarded to
    the original function of its kind: [m_num_mallocs] counts the calls
    that reached the original [malloc] (not the calls to the interposed
    one), and likewise for [calloc], [realloc] and [free]. *)
Theorem counters_count_forwarded_calls
  (depth : nat) (cs : list api_call) (h : allocator * memory) (p' : process) :
  invoke_all depth cs (process0 h) = Returns tt p' ->
  m_num_mallocs (safiStats p')
    = Int64.wrap (count_calls is_CallMalloc (libc_calls p')) /\
  m_num_callocs (safiStats p')
    = Int64.wrap (count_calls is_CallCalloc (libc_calls p')) /\
  m_num_reallocs (safiStats p')
    = Int64.wrap (count_calls is_CallRealloc (libc_calls p')) /\
  m_num_frees (safiStats p')
    = Int64.wrap (count_calls is_CallFree (libc_calls p')).
Proof.
  intros Hrun. apply invoke_all_accounted in Hrun as (ops & calls & Hs & Hl & HF).
  cbn [process0 safiStats libc_calls] in Hs, Hl. rewrite app_nil_r in Hl.
  rewrite Hs, Hl, !count_calls_rev.
  destruct (counters_count_records ops) as (E1 & E2 & E3 & E4).
  rewrite E1, E2, E3, E4.
  rewrite (count_same_kind is_RecMalloc is_CallMalloc) with (calls := calls);
    [| intros [] []; cbn; congruence | exact HF].
  rewrite (count_same_kind is_RecCalloc is_CallCalloc) with (calls := calls);
    [| intros [] []; cbn; congruence | exact HF].
  rewrite (count_same_kind is_RecRealloc is_CallRealloc) with (calls := calls);
    [| intros [] []; cbn; congruence | exact HF].
  rewrite (count_same_kind is_RecFree is_CallFree) with (calls := calls);
    [| intros [] []; cbn; congruence | exact HF].
  repeat split; reflexivity.
Qed.

(** X9. The capacity of the bootstrap array is a ceiling for the offset:
    if [0 <= used_buffer_size <= TEMP_BUFFER_SIZE] holds before a list of
    interposed calls it holds after it. *)
Theorem offset_stays_in_buffer
  (depth : nat) (cs : list api_call) (p p' : process) :
  invoke_all depth cs p = Returns tt p' ->
  offset_in_buffer p -> offset_in_buffer p'.
Proof.
  apply (respects_invoke_all (fun a b => offset_in_buffer a -> offset_in_buffer b));
    try (intros; assumption); try (intros ? ? ? ? ?; auto).
  - intros format args p0. unfold offset_in_buffer.
    destruct (after_debug_same format args p0) as (_ & _ & _ & -> & _). auto.
  - intros size p0 Hle _. unfold offset_in_buffer. cbn.
    pose proof (SizeTFacts.size_wrap_range (used_buffer_size p0 + size)) as Hr.
    unfold SizeT.in_range in Hr. unfold SizeT.add in *. lia.
Qed.

(** *** The bootstrap window *)

(** X10. While [pending_init] is set, [malloc] does nothing but serve
    the request from [temp_buffer] or end the process with status 1: it
    never records anything, never calls the original allocator and never
    touches the control block, however the call ends. *)
Theorem malloc_while_pending (depth : nat) (size : Z) (p : process) :
  pending_init (safiControl p) = true ->
  let o := malloc depth size p in
  ((exists q, o = Returns (temp_buffer + used_buffer_size p) q) \/
   (exists q, o = Exits 1 q)) /\
  safiStats (ending o) = safiStats p /\
  libc_calls (ending o) = libc_calls p /\
  heap (ending o) = heap p /\
  safiControl (ending o) = safiControl p.
Proof.
  intros Hp. cbv zeta. unfold malloc. rewrite malloc_body_unfold, Hp. cbv zeta.
  set (p0 := after_debug "[INFO] Malloc call (size: %lu)\n" [size] p).
  destruct (after_debug_same "[INFO] Malloc call (size: %lu)\n" [size] p)
    as (A1 & A2 & A3 & A4 & A5 & A6). fold p0 in A1, A2, A3, A4, A5, A6.
  rewrite temp_malloc_unfold. cbv zeta.
  set (p1 := after_debug "[INFO] Temp Malloc (size: %lu)\n" [size] p0).
  destruct (after_debug_same "[INFO] Temp Malloc (size: %lu)\n" [size] p0)
    as (B1 & B2 & B3 & B4 & B5 & B6). fold p1 in B1, B2, B3, B4, B5, B6.
  destruct (SizeT.add (used_buffer_size p0) size >? TEMP_BUFFER_SIZE).
  - set (p2 := after_debug
                 "[ERROR] Temp Malloc calls required more than the set max!\n" [] p1).
    destruct (after_debug_same
                "[ERROR] Temp Malloc calls required more than the set max!\n" [] p1)
      as (D1 & D2 & D3 & D4 & D5 & D6). fold p2 in D1, D2, D3, D4, D5, D6.
    cbn [ending]. split; [right; now exists p2 |]. repeat split; congruence.
  - cbn [ending]. rewrite A4. split; [left; eexists; reflexivity |].
    cbn. repeat split; congruence.
Qed.

(** X11. A block [__temp_malloc] returns lies inside [temp_buffer], and
    every block returned later starts at or after its end, as long as the
    offset has not moved back: the blocks of the bootstrap allocator do
    not overlap. The sum [used_buffer_size + size] must not wrap. *)
Theorem temp_malloc_blocks_disjoint (size : Z) (p p' : process) (ptr : Z) :
  0 <= used_buffer_size p -> 0 <= size ->
  used_buffer_size p + size < SizeT.modulus ->
  __temp_malloc size p = Returns ptr p' ->
  temp_buffer <= ptr /\
  ptr + size <= temp_buffer + TEMP_BUFFER_SIZE /\
  used_buffer_size p' = used_buffer_size p + size /\
  forall size2 q ptr2 q',
    used_buffer_size p' <= used_buffer_size q ->
    __temp_malloc size2 q = Returns ptr2 q' ->
    ptr + size <= ptr2.
Proof.
  intros Hu Hs Hnowrap H.
  apply temp_malloc_returns in H as (-> & Hused & Hfit & _).
  unfold SizeT.add in Hused, Hfit.
  rewrite SizeTFacts.size_wrap_small in Hused, Hfit by (unfold SizeT.in_range; lia).
  repeat split; try lia.
  intros size2 q ptr2 q' Hq H2.
  apply temp_malloc_returns in H2 as (-> & _). lia.
Qed.

Lemma mod_once (z m : Z) : m <= z < 2 * m -> z mod m = z - m.
Proof.
  intros Hz. symmetry. apply (Z.mod_unique z m 1 (z - m)); lia.
Qed.

(** X12. The capacity test of [__temp_malloc] adds in [size_t]: a size
    so large that [used_buffer_size + size] wraps around [2^64] passes
    the test, the call returns a block that reaches past the end of
    [temp_buffer], and the offset moves back below blocks already handed
    out. *)
Theorem temp_malloc_wraps_past_the_test (size : Z) (p : process) :
  0 < used_buffer_size p <= TEMP_BUFFER_SIZE ->
  SizeT.modulus - used_buffer_size p <= size < SizeT.modulus ->
  exists q,
    __temp_malloc size p = Returns (temp_buffer + used_buffer_size p) q /\
    used_buffer_size q = used_buffer_size p + size - SizeT.modulus /\
    used_buffer_size q < used_buffer_size p /\
    temp_buffer + TEMP_BUFFER_SIZE < temp_buffer + used_buffer_size p + size.
Proof.
  intros Hu Hs. rewrite temp_malloc_unfold. cbv zeta.
  assert (Hadd : SizeT.add (used_buffer_size p) size
                 = used_buffer_size p + size - SizeT.modulus).
  { unfold SizeT.add, SizeT.wrap. apply mod_once.
    unfold SizeT.modulus, TEMP_BUFFER_SIZE in *. lia. }
  rewrite Hadd.
  destruct (Z.gtb_spec (used_buffer_size p + size - SizeT.modulus) TEMP_BUFFER_SIZE)
    as [Hgt | Hle]; [unfold SizeT.modulus, TEMP_BUFFER_SIZE in *; lia |].
  eexists. split; [reflexivity |]. cbn.
  unfold SizeT.modulus, TEMP_BUFFER_SIZE in *. repeat split; lia.
Qed.


(** *** After the resolution *)

Lemma malloc_hooked (depth : nat) (size : Z) (p : process) :
  pending_init (safiControl p) = false ->
  orig_malloc (safiControl p) = resolved ->
  malloc depth size p
  = let p0 := after_debug "[INFO] Malloc call (size: %lu)\n" [size] p in
    Returns (fst (libc_malloc size (heap p0)))
            (after_malloc size (libc_malloc size (heap p0)) p0).
Proof.
  intros Hp Hm. unfold malloc. rewrite malloc_body_unfold, Hp. cbv zeta.
  destruct (after_debug_same "[INFO] Malloc call (size: %lu)\n" [size] p)
    as (_ & Hc & _).
  rewrite (bind_step _ _ _ _ tt
             (ensure_hooked_resolved orig_malloc _ _ ltac:(rewrite Hc; exact Hm))).
  rewrite forward_malloc_unfold, Hc, Hm. reflexivity.
Qed.

Lemma free_unfold (depth : nat) (ptr : Z) (p : process) :
  free depth ptr p
  = let p0 := after_debug "[INFO] Free call (ptr: %p)!\n" [ptr] p in
    if in_temp_buffer ptr p
    then Returns tt
           (after_debug "[INFO] Free pointer allocated by temp Malloc call!\n" [] p0)
    else bind (ensure_hooked orig_free (__init_safi depth))
              (fun _ => bind (usable_size ptr)
                             (fun size => bind (modify_stats (log_free size))
                                               (fun _ => call_orig_free ptr))) p0.
Proof.
  unfold free. rewrite (bind_step _ _ p _ tt (debug_msg_returns _ _ p)).
  unfold bind at 1, gets.
  rewrite (in_temp_buffer_same ptr p _ (after_debug_same _ _ p)). cbv zeta.
  destruct (in_temp_buffer ptr p); [apply debug_msg_returns | reflexivity].
Qed.

Lemma free_hooked (depth : nat) (ptr : Z) (p : process) :
  orig_free (safiControl p) = resolved ->
  in_temp_buffer ptr p = false ->
  free depth ptr p
  = Returns tt (after_free ptr (after_debug "[INFO] Free call (ptr: %p)!\n" [ptr] p)).
Proof.
  intros Hf Hout. rewrite free_unfold, Hout. cbv zeta.
  destruct (after_debug_same "[INFO] Free call (ptr: %p)!\n" [ptr] p)
    as (_ & Hc & _).
  rewrite (bind_step _ _ _ _ tt
             (ensure_hooked_resolved orig_free _ _ ltac:(rewrite Hc; exact Hf))).
  rewrite free_tail_unfold, Hc, Hf. reflexivity.
Qed.

Lemma realloc_unfold (depth : nat) (ptr size : Z) (p : process) :
  realloc depth ptr size p
  = let p0 := after_debug "[INFO] Realloc call (ptr, %p, size: %lu)\n" [ptr; size] p in
    match orig_realloc (safiControl p) with
    | nullptr =>
        bind (malloc depth size)
             (fun new_ptr =>
                bind (if negb (new_ptr =? NULL) && negb (ptr =? NULL)
                      then bind (modify (fun pr =>
                                   set_heap (fst (heap pr),
                                             memmove new_ptr ptr size (snd (heap pr)))
                                            pr))
                                (fun _ => free depth ptr)
                      else ret tt)
                     (fun _ => ret new_ptr)) p0
    | resolved => Returns (fst (libc_realloc ptr size (heap p0)))
                          (after_realloc ptr size p0)
    end.
Proof.
  unfold realloc. rewrite (bind_step _ _ p _ tt (debug_msg_returns _ _ p)).
  destruct (after_debug_same "[INFO] Realloc call (ptr, %p, size: %lu)\n" [ptr; size] p)
    as (_ & Hc & _).
  unfold bind at 1, gets. rewrite Hc. cbv zeta.
  destruct (orig_realloc (safiControl p)) eqn:Ho; cbn [is_null].
  - reflexivity.
  - rewrite realloc_tail_unfold, Hc, Ho. reflexivity.
Qed.

(** *** Releasing *)

Lemma outside_temp_buffer (ptr : Z) (p : process) :
  ~ (temp_buffer <= ptr <= temp_buffer + used_buffer_size p) ->
  in_temp_buffer ptr p = false.
Proof.
  intros Hout. unfold in_temp_buffer.
  destruct (Z.leb_spec temp_buffer ptr); [| reflexivity].
  destruct (Z.leb_spec ptr (temp_buffer + used_buffer_size p)); [lia | reflexivity].
Qed.

(** C4, amended. The range [free] tests is
    [temp_buffer <= ptr <= temp_buffer + used_buffer_size], the part of
    the array handed out so far and not the array. For a pointer in it
    [free] returns at once: the statistics, the heap and the list of calls
    made to the original functions are what they were, and so is
    everything else but [stderr]. Every other pointer, the addresses of
    the array beyond the offset included, is recorded and handed to the
    original [free] once that is resolved. *)
Theorem free_is_noop_up_to_the_offset (depth : nat) (ptr : Z) (p : process) :
  temp_buffer <= ptr <= temp_buffer + used_buffer_size p ->
  (exists p',
     free depth ptr p = Returns tt p' /\
     safiStats p' = safiStats p /\
     libc_calls p' = libc_calls p /\
     heap p' = heap p /\
     same_but_stderr p p') /\
  (forall other,
     ~ (temp_buffer <= other <= temp_buffer + used_buffer_size p) ->
     orig_free (safiControl p) = resolved ->
     exists p',
       free depth other p = Returns tt p' /\
       safiStats p'
       = log_free (malloc_usable_size other (heap p)) (safiStats p) /\
       libc_calls p' = CallFree other :: libc_calls p /\
       heap p' = libc_free other (heap p)).
Proof.
  intros Hin. split.
  - destruct (free_in_temp_buffer_is_noop depth ptr p Hin)
      as (p' & Hrun & Hs & Hl & Hh & Hsame & _).
    exists p'. auto.
  - intros other Hout Hfree.
    rewrite (free_hooked depth other p Hfree (outside_temp_buffer other p Hout)).
    destruct (after_debug_same "[INFO] Free call (ptr: %p)!\n" [other] p)
      as (A1 & A2 & A3 & A4 & A5 & A6).
    eexists. split; [reflexivity |]. unfold after_free. cbn.
    rewrite A1, A5, A6. repeat split; reflexivity.
Qed.

(** *** Calls that only forward *)

(** Once the four originals are resolved, a call starts no
    initialisation and leaves the control block, the bootstrap offset and
    the thread pointer as they are. *)
Lemma hooked_call_returns (depth : nat) (c : api_call) (p : process) :
  all_hooked (safiControl p) ->
  exists p',
    invoke depth c p = Returns tt p' /\
    safiControl p' = safiControl p /\
    used_buffer_size p' = used_buffer_size p /\
    print_thread p' = print_thread p /\
    (libc_calls p' = libc_calls p \/
     exists call, libc_calls p' = call :: libc_calls p).
Proof.
  intros (Hm & Hc & Hr & Hf & Hp). destruct c as [size | num size | ptr size | ptr];
    cbn [invoke].
  - rewrite (bind_step _ _ _ _ _ (malloc_hooked depth size p Hp Hm)). cbv zeta.
    destruct (after_debug_same "[INFO] Malloc call (size: %lu)\n" [size] p)
      as (A1 & A2 & A3 & A4 & A5 & A6).
    eexists. split; [reflexivity |]. cbn.
    repeat split; try assumption. right. eexists. now rewrite A6.
  - unfold calloc. unfold bind at 1. rewrite calloc_body_unfold, Hc. cbv zeta.
    destruct (after_debug_same "[INFO] Calloc call (num, %lu, size: %lu)\n"
                [num; size] p) as (A1 & A2 & A3 & A4 & A5 & A6).
    eexists. split; [reflexivity |]. cbn.
    repeat split; try assumption. right. eexists. now rewrite A6.
  - unfold bind at 1. rewrite realloc_unfold, Hr. cbv zeta.
    destruct (after_debug_same "[INFO] Realloc call (ptr, %p, size: %lu)\n"
                [ptr; size] p) as (A1 & A2 & A3 & A4 & A5 & A6).
    eexists. split; [reflexivity |]. cbn.
    repeat split; try assumption. right. eexists. now rewrite A6.
  - rewrite free_unfold. cbv zeta.
    destruct (after_debug_same "[INFO] Free call (ptr: %p)!\n" [ptr] p)
      as (A1 & A2 & A3 & A4 & A5 & A6).
    destruct (in_temp_buffer ptr p).
    + destruct (after_debug_same
                  "[INFO] Free pointer allocated by temp Malloc call!\n" []
                  (after_debug "[INFO] Free call (ptr: %p)!\n" [ptr] p))
        as (B1 & B2 & B3 & B4 & B5 & B6).
      eexists. split; [reflexivity |].
      repeat split; try congruence. left. congruence.
    + rewrite (bind_step _ _ _ _ tt
                 (ensure_hooked_resolved orig_free _ _ ltac:(rewrite A2; exact Hf))).
      rewrite free_tail_unfold, A2, Hf.
      eexists. split; [reflexivity |]. cbn.
      repeat split; try assumption. right. eexists. now rewrite A6.
Qed.

(** X13. Once the four originals are resolved, a call to an interposed
    function does nothing but forward: it starts no initialisation,
    leaves the control block, the bootstrap offset and the thread pointer
    as they are, passes exactly its own request with its own arguments to
    the original function, and records the one operation that goes with
    it. [realloc] has no test on [temp_buffer] and passes on any pointer;
    [free] passes on nothing, and records nothing, for a pointer that
    passes its range test. The call returns as the original it calls
    returns, which the runtime interface takes for granted. *)
Theorem hooked_call_forwards_its_request
  (depth : nat) (c : api_call) (p : process) :
  all_hooked (safiControl p) ->
  exists p',
    invoke depth c p = Returns tt p' /\
    safiControl p' = safiControl p /\
    used_buffer_size p' = used_buffer_size p /\
    print_thread p' = print_thread p /\
    libc_calls p' = forwarded c p ++ libc_calls p /\
    exists ops,
      safiStats p' = final (safiStats p) ops /\
      Forall2 (fun op call => same_kind op call = true) ops (forwarded c p).
Proof.
  intros (Hm & Hc & Hr & Hf & Hp). destruct c as [size | num size | ptr size | ptr];
    cbn [invoke forwarded].
  - rewrite (bind_step _ _ _ _ _ (malloc_hooked depth size p Hp Hm)). cbv zeta.
    destruct (after_debug_same "[INFO] Malloc call (size: %lu)\n" [size] p)
      as (A1 & A2 & A3 & A4 & A5 & A6).
    eexists. split; [reflexivity |]. cbn.
    repeat match goal with |- _ /\ _ => split end; try assumption.
    + now rewrite A6.
    + eexists [RecMalloc _]. rewrite A1.
      split; [reflexivity | repeat constructor].
  - unfold calloc. unfold bind at 1. rewrite calloc_body_unfold, Hc. cbv zeta.
    destruct (after_debug_same "[INFO] Calloc call (num, %lu, size: %lu)\n"
                [num; size] p) as (A1 & A2 & A3 & A4 & A5 & A6).
    eexists. split; [reflexivity |]. cbn.
    repeat match goal with |- _ /\ _ => split end; try assumption.
    + now rewrite A6.
    + eexists [RecCalloc _]. rewrite A1.
      split; [reflexivity | repeat constructor].
  - unfold bind at 1. rewrite realloc_unfold, Hr. cbv zeta.
    destruct (after_debug_same "[INFO] Realloc call (ptr, %p, size: %lu)\n"
                [ptr; size] p) as (A1 & A2 & A3 & A4 & A5 & A6).
    eexists. split; [reflexivity |]. cbn.
    repeat match goal with |- _ /\ _ => split end; try assumption.
    + now rewrite A6.
    + eexists [RecRealloc _]. rewrite A1.
      split; [reflexivity | repeat constructor].
  - rewrite free_unfold. cbv zeta.
    destruct (after_debug_same "[INFO] Free call (ptr: %p)!\n" [ptr] p)
      as (A1 & A2 & A3 & A4 & A5 & A6).
    destruct (in_temp_buffer ptr p).
    + destruct (after_debug_same
                  "[INFO] Free pointer allocated by temp Malloc call!\n" []
                  (after_debug "[INFO] Free call (ptr: %p)!\n" [ptr] p))
        as (B1 & B2 & B3 & B4 & B5 & B6).
      eexists. split; [reflexivity |].
      repeat match goal with |- _ /\ _ => split end; try congruence.
      * cbn [app]. congruence.
      * exists (@nil record_op). split; [cbn; congruence | constructor].
    + rewrite (bind_step _ _ _ _ tt
                 (ensure_hooked_resolved orig_free _ _ ltac:(rewrite A2; exact Hf))).
      rewrite free_tail_unfold, A2, Hf.
      eexists. split; [reflexivity |]. cbn.
      repeat match goal with |- _ /\ _ => split end; try assumption.
      * now rewrite A6.
      * eexists [RecFree _]. rewrite A1.
        split; [reflexivity | repeat constructor].
Qed.

(** The control block after a [malloc] that returns outside the
    bootstrap window. *)
Lemma malloc_leaves_hooked (depth : nat) (size : Z) (p p' : process) (ptr : Z) :
  pending_init (safiControl p) = false ->
  (orig_malloc (safiControl p) = nullptr \/ all_hooked (safiControl p)) ->
  malloc depth size p = Returns ptr p' ->
  all_hooked (safiControl p').
Proof.
  intros Hp Hcase H. unfold malloc in H. rewrite malloc_body_unfold, Hp in H.
  cbv zeta in H.
  destruct (after_debug_same "[INFO] Malloc call (size: %lu)\n" [size] p)
    as (_ & Hc & _).
  apply bind_returns in H as ([] & q & Hq & Hfwd).
  apply forward_malloc_keeps_control in Hfwd. rewrite Hfwd.
  destruct Hcase as [Hnull | Hall].
  - rewrite ensure_hooked_null in Hq by (now rewrite Hc).
    now apply init_safi_returns in Hq.
  - rewrite ensure_hooked_resolved in Hq by (rewrite Hc; apply Hall).
    injection Hq as <-. now rewrite Hc.
Qed.

Lemma invoke_keeps_all_or_none (depth : nat) (c : api_call) (p p' : process) :
  none_hooked (safiControl p) \/ all_hooked (safiControl p) ->
  invoke depth c p = Returns tt p' ->
  none_hooked (safiControl p') \/ all_hooked (safiControl p').
Proof.
  intros [Hnone | Hall] H.
  2:{ destruct (hooked_call_returns depth c p Hall) as (q & Hq & Hc & _).
      rewrite Hq in H. injection H as <-. right. now rewrite Hc. }
  destruct Hnone as (Hm & Hc & Hr & Hf & Hp).
  destruct c as [size | num size | ptr size | ptr]; cbn [invoke] in H.
  - apply bind_returns in H as (a & q & Hq & Hret).
    unfold ret in Hret. injection Hret as <-. right.
    apply (malloc_leaves_hooked depth size p q a Hp); [now left | exact Hq].
  - apply bind_returns in H as (a & q & Hq & Hret).
    unfold ret in Hret. injection Hret as <-. right.
    unfold calloc in Hq. rewrite calloc_body_unfold, Hc in Hq. cbv zeta in Hq.
    destruct (after_debug_same "[INFO] Calloc call (num, %lu, size: %lu)\n"
                [num; size] p) as (_ & A2 & _).
    destruct (malloc depth (SizeT.mul num size) _) as [ptr q0 | | |] eqn:Hq0;
      try discriminate.
    apply malloc_leaves_hooked in Hq0; [| now rewrite A2 | left; now rewrite A2].
    injection Hq as _ <-. destruct (negb (ptr =? NULL)); exact Hq0.
  - apply bind_returns in H as (a & q & Hq & Hret).
    unfold ret in Hret. injection Hret as <-. right.
    rewrite realloc_unfold, Hr in Hq. cbv zeta in Hq.
    destruct (after_debug_same "[INFO] Realloc call (ptr, %p, size: %lu)\n"
                [ptr; size] p) as (_ & A2 & _).
    apply bind_returns in Hq as (new_ptr & q0 & Hq0 & Hq).
    apply malloc_leaves_hooked in Hq0; [| now rewrite A2 | left; now rewrite A2].
    apply bind_returns in Hq as ([] & q1 & Hq1 & Hret).
    unfold ret in Hret. injection Hret as _ <-.
    destruct (negb (new_ptr =? NULL) && negb (ptr =? NULL)).
    + apply bind_returns in Hq1 as ([] & q2 & Hq2 & Hfree).
      unfold modify in Hq2. injection Hq2 as <-.
      match type of Hfree with
      | free _ _ ?st = _ =>
          destruct (hooked_call_returns depth (DoFree ptr) st Hq0)
            as (q3 & Hq3 & Hc3 & _)
      end.
      cbn [invoke] in Hq3. rewrite Hq3 in Hfree. injection Hfree as <-.
      rewrite Hc3. exact Hq0.
    + unfold ret in Hq1. injection Hq1 as <-. exact Hq0.
  - rewrite free_unfold in H. cbv zeta in H.
    destruct (after_debug_same "[INFO] Free call (ptr: %p)!\n" [ptr] p)
      as (_ & A2 & _).
    destruct (in_temp_buffer ptr p).
    + injection H as <-. left.
      destruct (after_debug_same
                  "[INFO] Free pointer allocated by temp Malloc call!\n" []
                  (after_debug "[INFO] Free call (ptr: %p)!\n" [ptr] p))
        as (_ & B2 & _).
      rewrite B2, A2. repeat split; assumption.
    + apply bind_returns in H as ([] & q & Hq & Htail).
      rewrite ensure_hooked_null in Hq by (now rewrite A2).
      apply init_safi_returns in Hq. right.
      rewrite free_tail_unfold in Htail.
      destruct (orig_free (safiControl q)); [discriminate |].
      injection Htail as <-. exact Hq.
Qed.

(** X14. The four saved pointers are all null or all resolved, with no
    initialisation pending, between the calls of the host program: a list
    of interposed calls that returns from such a process ends in such a
    process. A partly resolved control block is never left behind. *)
Theorem calls_keep_all_or_none
  (depth : nat) (cs : list api_call) (p p' : process) :
  none_hooked (safiControl p) \/ all_hooked (safiControl p) ->
  invoke_all depth cs p = Returns tt p' ->
  none_hooked (safiControl p') \/ all_hooked (safiControl p').
Proof.
  revert p. induction cs as [|c rest IH]; intros p Hp H; cbn [invoke_all] in H.
  - unfold ret in H. now injection H as <-.
  - apply bind_returns in H as ([] & q & Hq & Hrest).
    apply (IH q); [| exact Hrest].
    now apply (invoke_keeps_all_or_none depth c p q).
Qed.

(** *** Failure to resolve *)

Lemma SafiControl_init_found (m : Z -> M Z) (p p' : process) :
  keeps_control m -> SafiControl_init m p = Returns tt p' ->
  dlsym "malloc" = resolved /\ dlsym "calloc" = resolved /\
  dlsym "realloc" = resolved /\ dlsym "free" = resolved.
Proof.
  intros Hm H. unfold SafiControl_init in H.
  rewrite modify_control_step in H.
  apply bind_returns in H as (f1 & q1 & Hq1 & H).
  apply (call_dlsym_returns _ _ _ _ _ Hm) in Hq1 as [Hf1 Hc1]; [| now left].
  rewrite modify_control_step in H.
  apply bind_returns in H as (f2 & q2 & Hq2 & H).
  apply (call_dlsym_returns _ _ _ _ _ Hm) in Hq2 as [Hf2 Hc2];
    [| left; cbn; now rewrite Hc1].
  rewrite modify_control_step in H.
  apply bind_returns in H as (f3 & q3 & Hq3 & H).
  apply (call_dlsym_returns _ _ _ _ _ Hm) in Hq3 as [Hf3 Hc3];
    [| left; cbn; rewrite Hc2; cbn; now rewrite Hc1].
  rewrite modify_control_step in H.
  apply bind_returns in H as (f4 & q4 & Hq4 & H).
  apply (call_dlsym_returns _ _ _ _ _ Hm) in Hq4 as [Hf4 Hc4];
    [| left; cbn; rewrite Hc3; cbn; rewrite Hc2; cbn; now rewrite Hc1].
  rewrite modify_control_step in H. unfold bind at 1, gets in H.
  cbn [set_safiControl safiControl set_orig_free orig_malloc orig_calloc
       orig_realloc orig_free] in H.
  rewrite Hc4, Hc3, Hc2, Hc1 in H.
  cbn [set_safiControl safiControl set_orig_malloc set_orig_calloc
       set_orig_realloc set_pending_init orig_malloc orig_calloc
       orig_realloc orig_free] in H.
  subst f1 f2 f3 f4.
  destruct (dlsym "malloc"), (dlsym "calloc"), (dlsym "realloc"), (dlsym "free");
    cbn [is_null orb] in H; try discriminate.
  repeat split; reflexivity.
Qed.

Lemma init_safi_found (depth : nat) (p p' : process) :
  __init_safi depth p = Returns tt p' ->
  dlsym "malloc" = resolved /\ dlsym "calloc" = resolved /\
  dlsym "realloc" = resolved /\ dlsym "free" = resolved.
Proof.
  destruct depth as [|depth]; [discriminate |]. cbn [__init_safi].
  unfold init_body. intros H.
  apply bind_returns in H as ([] & q0 & _ & H).
  apply bind_returns in H as ([] & q1 & _ & H).
  apply bind_returns in H as ([] & q2 & Hq2 & _).
  apply (SafiControl_init_found _ q1 q2 (malloc_body_keeps_control _) Hq2).
Qed.

(** X15. Resolution failure is fatal: when [dlsym] finds no next
    definition for one of [malloc], [calloc], [realloc] and [free],
    [__init_safi] never returns, so neither the first [malloc] nor the
    first [free] of a pointer outside [temp_buffer] comes back to the
    caller with the originals unresolved. *)
Theorem unresolved_symbol_is_fatal (name : string) (depth : nat) (p : process) :
  In name ["malloc"; "calloc"; "realloc"; "free"] ->
  dlsym name = nullptr ->
  (forall p', __init_safi depth p <> Returns tt p') /\
  (pending_init (safiControl p) = false ->
   orig_malloc (safiControl p) = nullptr ->
   forall size ptr p', malloc depth size p <> Returns ptr p') /\
  (orig_free (safiControl p) = nullptr ->
   forall ptr p', in_temp_buffer ptr p = false ->
                  free depth ptr p <> Returns tt p').
Proof.
  intros Hname Hnull.
  assert (Hinit : forall q q', __init_safi depth q <> Returns tt q').
  { intros q q' H. apply init_safi_found in H as (H1 & H2 & H3 & H4).
    cbn in Hname.
    destruct Hname as [<- | [<- | [<- | [<- | []]]]]; congruence. }
  split; [apply Hinit | split].
  - intros Hp Hm size ptr p' H.
    unfold malloc in H. rewrite malloc_body_unfold, Hp in H. cbv zeta in H.
    destruct (after_debug_same "[INFO] Malloc call (size: %lu)\n" [size] p)
      as (_ & Hc & _).
    apply bind_returns in H as ([] & q & Hq & _).
    rewrite ensure_hooked_null in Hq by (now rewrite Hc).
    now apply Hinit in Hq.
  - intros Hf ptr p' Hout H. rewrite free_unfold, Hout in H. cbv zeta in H.
    destruct (after_debug_same "[INFO] Free call (ptr: %p)!\n" [ptr] p)
      as (_ & Hc & _).
    apply bind_returns in H as ([] & q & Hq & _).
    rewrite ensure_hooked_null in Hq by (now rewrite Hc).
    now apply Hinit in Hq.
Qed.

(** *** Bounded nesting *)

Lemma steady_ret {A : Type} (a : A) : steady (ret a).
Proof. intros p. reflexivity. Qed.

Lemma steady_bind {A B : Type} (m : M A) (k : A -> M B) :
  steady m -> (forall a, steady (k a)) -> steady (bind m k).
Proof.
  intros Hm Hk p. unfold bind. specialize (Hm p).
  destruct (m p) as [a q | | |]; try reflexivity; [apply Hk | discriminate].
Qed.

Lemma steady_gets {A : Type} (f : process -> A) : steady (gets f).
Proof. intros p. reflexivity. Qed.

Lemma steady_modify (f : process -> process) : steady (modify f).
Proof. intros p. reflexivity. Qed.

Lemma steady_debug_msg (format : string) (args : list Z) :
  steady (__debug_msg format args).
Proof. intros p. now rewrite debug_msg_returns. Qed.

Lemma steady_temp_malloc (size : Z) : steady (__temp_malloc size).
Proof.
  intros p. rewrite temp_malloc_unfold. cbv zeta.
  destruct (_ >? _); reflexivity.
Qed.

Lemma steady_forward_malloc (size : Z) : steady (forward_malloc size).
Proof.
  intros p. rewrite forward_malloc_unfold.
  destruct (orig_malloc (safiControl p)); reflexivity.
Qed.

Lemma steady_ensure_hooked (orig : SafiControl -> fnptr) (init : M unit) :
  steady init -> steady (ensure_hooked orig init).
Proof.
  intros Hinit. unfold ensure_hooked. apply steady_bind; [apply steady_gets |].
  intros f. destruct (is_null f); [exact Hinit | apply steady_ret].
Qed.

Lemma steady_malloc_body (init : M unit) (size : Z) :
  steady init -> steady (malloc_body init size).
Proof.
  intros Hinit. unfold malloc_body.
  apply steady_bind; [apply steady_debug_msg | intros _].
  apply steady_bind; [apply steady_gets | intros pending].
  destruct pending; [apply steady_temp_malloc |].
  apply steady_bind; [now apply steady_ensure_hooked | intros _].
  apply steady_forward_malloc.
Qed.

Lemma steady_calloc_body (m : Z -> M Z) (num size : Z) :
  (forall n, steady (m n)) -> steady (calloc_body m num size).
Proof.
  intros Hm p. rewrite calloc_body_unfold. cbv zeta.
  destruct (orig_calloc (safiControl p)); [| reflexivity].
  specialize (Hm (SizeT.mul num size)
                 (after_debug "[INFO] Calloc call (num, %lu, size: %lu)\n"
                    [num; size] p)).
  destruct (m _ _); try reflexivity. discriminate.
Qed.

Lemma steady_serve_all (m : Z -> M Z) (rs : list request) :
  (forall n, steady (m n)) -> steady (serve_all m rs).
Proof.
  intros Hm. induction rs as [|r rest IH]; cbn [serve_all]; [apply steady_ret |].
  apply steady_bind; [| intros _; exact IH].
  destruct r as [size | num size]; cbn [serve].
  - apply steady_bind; [apply Hm | intros _; apply steady_ret].
  - apply steady_bind; [now apply steady_calloc_body | intros _; apply steady_ret].
Qed.

Lemma steady_init_body (m : Z -> M Z) :
  (forall n, steady (m n)) -> steady (init_body m).
Proof.
  intros Hm. unfold init_body, SafiControl_init, call_dlsym.
  apply steady_bind.
  { destruct (getenv "MEM_SAFI_DEBUG") as [str |]; [| apply steady_ret].
    destruct (String.eqb str "1"); [apply steady_modify | apply steady_ret]. }
  intros _. apply steady_bind; [apply steady_debug_msg | intros _].
  apply steady_bind.
  { repeat (apply steady_bind;
            [first [apply steady_modify | apply steady_gets
                   | apply steady_bind;
                     [now apply steady_serve_all | intros _; apply steady_ret]]
            | intros ?]).
    destruct (_ || _); [| apply steady_modify].
    apply steady_bind; [apply steady_modify | intros _ p; reflexivity]. }
  intros _. apply steady_bind.
  { unfold new_thread, operator_new.
    apply steady_bind.
    - apply steady_bind; [apply Hm | intros ptr].
      destruct (ptr =? NULL); [intros p; reflexivity | apply steady_ret].
    - intros thread.
      apply steady_bind; [now apply steady_serve_all | intros _; apply steady_ret]. }
  intros thread.
  apply steady_bind; [apply steady_modify | intros _; apply steady_debug_msg].
Qed.

Lemma steady_init_safi (depth : nat) : steady (__init_safi (S depth)).
Proof.
  intros p. rewrite init_safi_depth. cbn [__init_safi].
  rewrite (init_body_indep _ (malloc_body (ret tt)) p
             (malloc_body_keeps_control _) (malloc_body_agree _ _)).
  apply steady_init_body. intros n. apply steady_malloc_body, steady_ret.
Qed.

Lemma steady_malloc (depth : nat) (size : Z) : steady (malloc (S depth) size).
Proof. apply steady_malloc_body, steady_init_safi. Qed.

Lemma steady_free (depth : nat) (ptr : Z) : steady (free (S depth) ptr).
Proof.
  intros p. rewrite free_unfold. cbv zeta.
  destruct (in_temp_buffer ptr p); [reflexivity |].
  apply steady_bind; [apply steady_ensure_hooked, steady_init_safi | intros _].
  intros q. rewrite free_tail_unfold. destruct (orig_free (safiControl q)); reflexivity.
Qed.

Lemma steady_invoke (depth : nat) (c : api_call) : steady (invoke (S depth) c).
Proof.
  destruct c as [size | num size | ptr size | ptr]; cbn [invoke].
  - apply steady_bind; [apply steady_malloc | intros _; apply steady_ret].
  - apply steady_bind; [| intros _; apply steady_ret].
    apply steady_calloc_body. intros n. apply steady_malloc.
  - apply steady_bind; [| intros _; apply steady_ret].
    intros p. rewrite realloc_unfold. cbv zeta.
    destruct (orig_realloc (safiControl p)); [| reflexivity].
    apply steady_bind; [apply steady_malloc | intros new_ptr].
    apply steady_bind; [| intros _; apply steady_ret].
    destruct (_ && _); [| apply steady_ret].
    apply steady_bind; [apply steady_modify | intros _; apply steady_free].
  - apply steady_free.
Qed.

(** X16. The [pending_init] guard bounds the re-entrancy: with a single
    level of nesting allowed, no list of calls to the interposed
    functions, from any process and with any requests issued by [dlsym]
    and by the thread constructor, ends in unbounded recursion through
    [__init_safi]. *)
Theorem nesting_is_bounded (depth : nat) (cs : list api_call) (p : process) :
  is_overflow (invoke_all (S depth) cs p) = false.
Proof.
  revert p.
  induction cs as [|c rest IH]; cbn [invoke_all]; [intros p; reflexivity |].
  apply steady_bind; [apply steady_invoke | intros _; exact IH].
Qed.

(** *** Allocation and release together *)

Lemma add_then_sub (r u : Z) :
  Int64.in_range r ->
  Int64.sub (Int64.add r (Int64.of_size_t u)) (Int64.of_size_t u) = r.
Proof.
  intros Hr. unfold Int64.sub, Int64.add.
  rewrite Int64Facts.wrap_sub_l.
  replace (r + Int64.of_size_t u - Int64.of_size_t u) with r by lia.
  now apply Int64Facts.wrap_small.
Qed.

(** X17. With the originals resolved, allocating a block and releasing
    it brings [m_reserved] back to its value before the allocation: the
    release subtracts the usable size the allocation added, since both
    read [malloc_usable_size] of the same block on the same heap. The two
    calls are counted once each, the usable size is added to
    [m_total_reserved] and to [m_freed], and the original [malloc] and
    [free] are each called once. *)
Theorem malloc_then_free_restores_reserved
  (depth : nat) (size : Z) (p p1 : process) (ptr : Z) :
  all_hooked (safiControl p) ->
  Int64.in_range (m_reserved (safiStats p)) ->
  malloc depth size p = Returns ptr p1 ->
  in_temp_buffer ptr p1 = false ->
  let usable := malloc_usable_size ptr (heap p1) in
  exists p2,
    free depth ptr p1 = Returns tt p2 /\
    m_reserved (safiStats p2) = m_reserved (safiStats p) /\
    m_total_reserved (safiStats p2)
      = Int64.add (m_total_reserved (safiStats p)) usable /\
    m_freed (safiStats p2) = Int64.add (m_freed (safiStats p)) usable /\
    m_num_mallocs (safiStats p2) = Int64.add (m_num_mallocs (safiStats p)) 1 /\
    m_num_frees (safiStats p2) = Int64.add (m_num_frees (safiStats p)) 1 /\
    libc_calls p2 = CallFree ptr :: CallMalloc size :: libc_calls p.
Proof.
  intros (Hm & Hc & Hr & Hf & Hp) Hrange Hmalloc Hout usable.
  rewrite (malloc_hooked depth size p Hp Hm) in Hmalloc. cbv zeta in Hmalloc.
  destruct (after_debug_same "[INFO] Malloc call (size: %lu)\n" [size] p)
    as (A1 & A2 & A3 & A4 & A5 & A6).
  injection Hmalloc as Hptr Hp1.
  assert (Hfree1 : orig_free (safiControl p1) = resolved).
  { rewrite <- Hp1. cbn. now rewrite A2. }
  rewrite (free_hooked depth ptr p1 Hfree1 Hout).
  destruct (after_debug_same "[INFO] Free call (ptr: %p)!\n" [ptr] p1)
    as (B1 & B2 & B3 & B4 & B5 & B6).
  eexists. split; [reflexivity |].
  unfold after_free. cbn. rewrite B1, B5, B6. fold usable.
  assert (Hs1 : safiStats p1 = log_malloc usable (safiStats p)).
  { unfold usable. rewrite <- Hp1 at 2. rewrite <- Hp1. cbn. rewrite Hptr.
    now rewrite A1. }
  assert (Hl1 : libc_calls p1 = CallMalloc size :: libc_calls p).
  { rewrite <- Hp1. cbn. now rewrite A6. }
  rewrite Hs1, Hl1. cbn.
  rewrite add_then_sub by assumption.
  rewrite !Int64Facts.add_of_size_t.
  repeat split; reflexivity.
Qed.

(** *** The fallback of [calloc] *)


(** *** The entry point *)

Lemma main_hook_steps (depth : nat) (real_main : M Z) (time_buffer : string)
  (p p' : process) (ret_code : Z) :
  main_hook depth real_main time_buffer p = Returns ret_code p' ->
  exists q q1 q2,
    real_main p = Returns ret_code q /\
    (if negb (print_thread q =? NULL) then free depth (print_thread q) else ret tt)
      (set_safiStats (disablePrint (safiStats q))
         (after_debug "[INFO] Actual main function completed (exit code: %d)!\n"
            [ret_code] q))
    = Returns tt q1 /\
    run_routine depth localtime_calls q1 = Returns tt q2 /\
    p' = set_stderr (Report (print time_buffer (safiStats q2)) :: stderr q2) q2.
Proof.
  unfold main_hook. intros H.
  apply bind_returns in H as (f & q0 & Hq0 & H).
  unfold gets in Hq0. injection Hq0 as _ <-.
  destruct (is_null f); [discriminate |].
  apply bind_returns in H as (code & q & Hq & H).
  rewrite (bind_step _ _ _ _ tt (debug_msg_returns _ _ q)) in H.
  destruct (after_debug_same
              "[INFO] Actual main function completed (exit code: %d)!\n" [code] q)
    as (A1 & A2 & A3 & A4 & A5 & A6).
  apply bind_returns in H as ([] & q' & Hq' & H).
  unfold modify_stats, modify in Hq'. injection Hq' as <-.
  apply bind_returns in H as (thread & q'' & Hq'' & H).
  unfold gets in Hq''. injection Hq'' as <- <-.
  cbn [print_thread set_safiStats] in H. rewrite A3, A1 in H.
  apply bind_returns in H as ([] & q1 & Hq1 & H).
  apply bind_returns in H as ([] & q3 & Hq3 & H).
  unfold ret in H. injection H as <- <-.
  unfold SafiStats_print in Hq3.
  apply bind_returns in Hq3 as ([] & q2 & Hq2 & Hq3).
  unfold bind, gets, modify in Hq3. injection Hq3 as <-.
  exists q, q1, q2. auto.
Qed.

(** When [main_hook] returns, reporting has been disabled: this is the
    [StepDisablePrint] of the schedules of the reporting thread. *)
Lemma main_hook_disables_print (depth : nat) (real_main : M Z)
  (time_buffer : string) (p p' : process) (ret_code : Z) :
  main_hook depth real_main time_buffer p = Returns ret_code p' ->
  isPrintEnabled (safiStats p') = true.
Proof.
  intros H. apply main_hook_steps in H as (q & q1 & q2 & _ & H1 & H2 & ->).
  apply run_routine_accounted in H2 as (ops2 & _ & S2 & _).
  assert (S1 : exists ops1, safiStats q1 = final (disablePrint (safiStats q)) ops1).
  { destruct (negb (print_thread q =? NULL)).
    - apply free_call_accounted in H1 as (ops1 & _ & S1 & _). now exists ops1.
    - unfold ret in H1. injection H1 as <-. now exists []. }
  destruct S1 as (ops1 & S1).
  unfold isPrintEnabled. cbn. rewrite S2, S1, !final_keeps_flag. reflexivity.
Qed.

(** X18. [main_hook] returns the exit code of the program's [main]
    unchanged. Between the return of [main], in process [q], and the
    closing report the flag is set, the thread object is handed to [free]
    if there is one, leaving [q1], and the time routines of [print] run,
    leaving [q2]: the report shows the store of [q2], the store the
    process ends with, and is the last thing written to [stderr]. With
    [orig_free] resolved the release of the thread object is recorded and
    forwarded; all in all the store [main] left has moved by the flag and
    by one record for each call forwarded since. *)
Theorem main_hook_returns_exit_code
  (depth : nat) (real_main : M Z) (time_buffer : string) (p p' : process)
  (ret_code : Z) :
  main_hook depth real_main time_buffer p = Returns ret_code p' ->
  exists q q1 q2,
    real_main p = Returns ret_code q /\
    (orig_free (safiControl q) = resolved ->
     print_thread q <> NULL ->
     in_temp_buffer (print_thread q) q = false ->
     safiStats q1
     = log_free (malloc_usable_size (print_thread q) (heap q))
         (disablePrint (safiStats q)) /\
     libc_calls q1 = CallFree (print_thread q) :: libc_calls q /\
     heap q1 = libc_free (print_thread q) (heap q)) /\
    (print_thread q = NULL ->
     safiStats q1 = disablePrint (safiStats q) /\
     libc_calls q1 = libc_calls q /\ heap q1 = heap q) /\
    run_routine depth localtime_calls q1 = Returns tt q2 /\
    p' = set_stderr (Report (print time_buffer (safiStats q2)) :: stderr q2) q2 /\
    m_disable_print (safiStats p') = true /\
    accounted (set_safiStats (disablePrint (safiStats q)) q) p'.
Proof.
  intros H. pose proof (main_hook_disables_print _ _ _ _ _ _ H) as Hflag.
  apply main_hook_steps in H as (q & q1 & q2 & Hq & H1 & H2 & ->).
  exists q, q1, q2. split; [exact Hq |].
  set (msg := "[INFO] Actual main function completed (exit code: %d)!\n") in *.
  destruct (after_debug_same msg [ret_code] q) as (A1 & A2 & A3 & A4 & A5 & A6).
  set (q0 := set_safiStats (disablePrint (safiStats q)) (after_debug msg [ret_code] q))
    in *.
  repeat match goal with |- _ /\ _ => split end;
    try exact H2; try exact Hflag; try reflexivity.
  - (* the thread object released *)
    intros Hfree Hthread Hout.
    destruct (Z.eqb_spec (print_thread q) NULL) as [Hnull | _]; [contradiction |].
    cbn [negb] in H1. rewrite free_hooked in H1.
    + injection H1 as <-.
      destruct (after_debug_same "[INFO] Free call (ptr: %p)!\n" [print_thread q] q0)
        as (B1 & B2 & B3 & B4 & B5 & B6).
      unfold after_free; cbn; rewrite ?B1, ?B5, ?B6; unfold q0; cbn;
        rewrite ?A5, ?A6. repeat split; reflexivity.
    + unfold q0. cbn. now rewrite A2.
    + unfold in_temp_buffer, q0 in *. cbn. now rewrite A4.
  - (* no thread object *)
    intros Hnull. rewrite Hnull in H1. cbn in H1. unfold ret in H1.
    injection H1 as <-. unfold q0. cbn. now rewrite A5, A6.
  - (* all in all *)
    apply run_routine_accounted in H2.
    eapply accounted_trans; [| now apply accounted_quiet].
    apply (accounted_trans _ q1); [| exact H2].
    apply (accounted_trans _ q0); [apply accounted_quiet; [reflexivity | exact A6] |].
    destruct (negb (print_thread q =? NULL)).
    + now apply free_call_accounted in H1.
    + unfold ret in H1. injection H1 as <-. apply accounted_refl.
Qed.

(** *** The fallback of [realloc] *)

(** X19. A [realloc] that arrives inside the bootstrap window with
    [orig_realloc] unresolved, for a block of [temp_buffer], takes the new
    block from [temp_buffer], copies [size] bytes of the old block into it
    and leaves the old block in place (its release is a no-op); nothing
    is recorded and the original functions are not called. *)
Theorem realloc_fallback_in_bootstrap
  (depth : nat) (ptr size : Z) (p : process) :
  pending_init (safiControl p) = true ->
  orig_realloc (safiControl p) = nullptr ->
  0 < temp_buffer ->
  temp_buffer <= ptr <= temp_buffer + used_buffer_size p ->
  0 <= size -> used_buffer_size p + size <= TEMP_BUFFER_SIZE ->
  exists p',
    realloc depth ptr size p = Returns (temp_buffer + used_buffer_size p) p' /\
    (forall i, 0 <= i < size ->
               load (snd (heap p')) (temp_buffer + used_buffer_size p + i)
               = load (snd (heap p)) (ptr + i)) /\
    used_buffer_size p' = used_buffer_size p + size /\
    safiStats p' = safiStats p /\
    libc_calls p' = libc_calls p.
Proof.
  intros Hp Hr Hbuf [Hlo Hhi] Hsize Hfit.
  assert (Hused : 0 <= used_buffer_size p) by lia.
  rewrite realloc_unfold, Hr. cbv zeta.
  set (p0 := after_debug "[INFO] Realloc call (ptr, %p, size: %lu)\n" [ptr; size] p).
  destruct (after_debug_same "[INFO] Realloc call (ptr, %p, size: %lu)\n"
              [ptr; size] p) as (A1 & A2 & A3 & A4 & A5 & A6).
  fold p0 in A1, A2, A3, A4, A5, A6.
  assert (Hmalloc : exists q,
             malloc depth size p0 = Returns (temp_buffer + used_buffer_size p) q /\
             used_buffer_size q = used_buffer_size p + size /\
             safiStats q = safiStats p /\ libc_calls q = libc_calls p /\
             heap q = heap p).
  { unfold malloc. rewrite malloc_body_unfold, A2, Hp. cbv zeta.
    set (p1 := after_debug "[INFO] Malloc call (size: %lu)\n" [size] p0).
    destruct (after_debug_same "[INFO] Malloc call (size: %lu)\n" [size] p0)
      as (B1 & B2 & B3 & B4 & B5 & B6). fold p1 in B1, B2, B3, B4, B5, B6.
    rewrite temp_malloc_fits by (rewrite ?B4, ?A4; assumption).
    rewrite B4, A4.
    destruct (after_debug_same "[INFO] Temp Malloc (size: %lu)\n" [size] p1)
      as (D1 & D2 & D3 & D4 & D5 & D6).
    eexists. split; [reflexivity |]. cbn. repeat split; congruence. }
  destruct Hmalloc as (q & Hq & Hqu & Hqs & Hql & Hqh).
  rewrite (bind_step _ _ _ _ _ Hq).
  assert (Hnew : (temp_buffer + used_buffer_size p =? NULL) = false)
    by (apply Z.eqb_neq; unfold NULL; lia).
  assert (Hold : (ptr =? NULL) = false) by (apply Z.eqb_neq; unfold NULL; lia).
  rewrite Hnew, Hold. cbn [negb andb].
  set (q1 := set_heap (fst (heap q),
                       memmove (temp_buffer + used_buffer_size p) ptr size
                               (snd (heap q))) q).
  assert (Hin : temp_buffer <= ptr <= temp_buffer + used_buffer_size q1)
    by (unfold q1; cbn; lia).
  destruct (free_in_temp_buffer_is_noop depth ptr q1 Hin)
    as (p' & Hfree & Fs & Fl & Fh & (_ & _ & _ & Fu & _) & _).
  exists p'. split.
  - unfold bind at 1. unfold bind at 1. unfold modify. fold q1.
    rewrite Hfree. reflexivity.
  - rewrite Fh, Fs, Fl, Fu. unfold q1. cbn. rewrite Hqh.
    repeat split; try assumption.
    intros i Hi. unfold load, memmove. cbn.
    destruct (Z.leb_spec (temp_buffer + used_buffer_size p)
                         (temp_buffer + used_buffer_size p + i)); [| lia].
    destruct (Z.ltb_spec (temp_buffer + used_buffer_size p + i)
                         (temp_buffer + used_buffer_size p + size)); [| lia].
    cbn. f_equal. lia.
Qed.

(** *** The debug toggle *)


End CallFacts.

(** ** The calls on the concrete runtime *)

Module DemoCallRuns.
Import Demo DemoCalls.

(** What the four calls of [demo_calls] leave behind. *)
Example demo_calls_summary :
  summary (invoke_all 1 demo_calls fresh)
  = Some (tt,
          mkSafiStats 672 760 760 88 3 2 1 1 false false,
          mkSafiControl false false resolved resolved resolved resolved nullptr,
          32,
          [CallFree 268435952; CallRealloc 268435840 300; CallCalloc 10 8;
           CallMalloc 100; CallCalloc 1 304; CallMalloc 24; CallMalloc 8]).
Proof. vm_compute. reflexivity. Qed.

Lemma demo_calls_return :
  invoke_all 1 demo_calls fresh = Returns tt after_demo_calls.
Proof. vm_compute. reflexivity. Qed.

Lemma calls_are_accounted_witness :
  invoke_all 1 demo_calls fresh = Returns tt after_demo_calls /\
  accounted fresh after_demo_calls.
Proof.
  split; [exact demo_calls_return |].
  exact (calls_are_accounted 1 demo_calls fresh after_demo_calls demo_calls_return).
Defined.

Lemma calls_keep_balance_witness :
  invoke_all 1 demo_calls fresh = Returns tt after_demo_calls /\
  balanced (safiStats fresh) /\
  balanced (safiStats after_demo_calls).
Proof.
  split; [exact demo_calls_return |]. split; [reflexivity |].
  apply (calls_keep_balance 1 demo_calls fresh after_demo_calls demo_calls_return).
  reflexivity.
Defined.

Lemma counters_count_forwarded_calls_witness :
  invoke_all 1 demo_calls (process0 demo_heap) = Returns tt after_demo_calls /\
  m_num_mallocs (safiStats after_demo_calls)
    = Int64.wrap (count_calls is_CallMalloc (libc_calls after_demo_calls)).
Proof.
  split; [exact demo_calls_return |].
  apply (@counters_count_forwarded_calls demo_runtime 1 demo_calls demo_heap
           after_demo_calls).
  exact demo_calls_return.
Defined.

Lemma offset_stays_in_buffer_witness :
  invoke_all 1 demo_calls fresh = Returns tt after_demo_calls /\
  offset_in_buffer fresh /\
  offset_in_buffer after_demo_calls.
Proof.
  assert (H0 : offset_in_buffer fresh)
    by (unfold offset_in_buffer; cbn; unfold TEMP_BUFFER_SIZE; lia).
  split; [exact demo_calls_return |]. split; [exact H0 |].
  exact (offset_stays_in_buffer 1 demo_calls fresh after_demo_calls
           demo_calls_return H0).
Defined.

Lemma calls_keep_all_or_none_witness :
  none_hooked (safiControl fresh) /\
  invoke_all 1 demo_calls fresh = Returns tt after_demo_calls /\
  (none_hooked (safiControl after_demo_calls) \/
   all_hooked (safiControl after_demo_calls)).
Proof.
  assert (H0 : none_hooked (safiControl fresh)) by (repeat split).
  split; [exact H0 |]. split; [exact demo_calls_return |].
  exact (calls_keep_all_or_none 1 demo_calls fresh after_demo_calls
           (or_introl H0) demo_calls_return).
Defined.

Lemma malloc_while_pending_witness :
  pending_init (safiControl bootstrapping) = true /\
  safiStats (ending (malloc 0 64 bootstrapping)) = safiStats bootstrapping /\
  libc_calls (ending (malloc 0 64 bootstrapping)) = [].
Proof.
  split; [reflexivity |].
  destruct (malloc_while_pending 0 64 bootstrapping eq_refl)
    as (_ & Hs & Hl & _).
  split; [exact Hs | exact Hl].
Defined.

Lemma temp_malloc_blocks_disjoint_witness :
  exists p',
    __temp_malloc 48 hooked = Returns (demo_temp_buffer + 32) p' /\
    used_buffer_size p' = 32 + 48 /\
    demo_temp_buffer + 32 + 48 <= temp_buffer + TEMP_BUFFER_SIZE.
Proof.
  assert (Hrun : __temp_malloc 48 hooked
                 = Returns (demo_temp_buffer + 32)
                     (set_used_buffer_size 80 hooked))
    by (vm_compute; reflexivity).
  destruct (temp_malloc_blocks_disjoint 48 hooked _ _
              ltac:(cbn; lia) ltac:(lia) ltac:(cbn; unfold SizeT.modulus; lia) Hrun)
    as (_ & Hin & Hused & _).
  eexists. split; [exact Hrun |]. split; [exact Hused | exact Hin].
Defined.

Lemma temp_malloc_wraps_past_the_test_witness :
  0 < used_buffer_size hooked <= TEMP_BUFFER_SIZE /\
  exists q,
    __temp_malloc (SizeT.modulus - 16) hooked
      = Returns (temp_buffer + used_buffer_size hooked) q /\
    used_buffer_size q = 16.
Proof.
  assert (Hu : 0 < used_buffer_size hooked <= TEMP_BUFFER_SIZE)
    by (cbn; unfold TEMP_BUFFER_SIZE; lia).
  split; [exact Hu |].
  destruct (temp_malloc_wraps_past_the_test (SizeT.modulus - 16) hooked Hu)
    as (q & Hrun & Hused & _).
  - cbn. unfold SizeT.modulus. lia.
  - exists q. split; [exact Hrun |]. rewrite Hused. cbn. unfold SizeT.modulus. lia.
Defined.

Lemma hooked_call_forwards_its_request_witness :
  all_hooked (safiControl hooked) /\
  exists p',
    invoke 0 (DoRealloc demo_temp_buffer 64) hooked = Returns tt p' /\
    safiControl p' = safiControl hooked /\
    libc_calls p' = [CallRealloc demo_temp_buffer 64].
Proof.
  assert (H0 : all_hooked (safiControl hooked)) by (repeat split).
  split; [exact H0 |].
  destruct (hooked_call_forwards_its_request 0 (DoRealloc demo_temp_buffer 64)
              hooked H0) as (p' & Hrun & Hc & _ & _ & Hl & _).
  exists p'. auto.
Defined.

Lemma unresolved_symbol_is_fatal_witness :
  In "free"%string ["malloc"; "calloc"; "realloc"; "free"]%string /\
  @dlsym broken_runtime "free" = nullptr /\
  forall ptr p',
    @malloc broken_runtime 1 100 (@process0 broken_runtime demo_heap)
    <> Returns ptr p'.
Proof.
  assert (Hin : In "free"%string ["malloc"; "calloc"; "realloc"; "free"]%string)
    by (cbn; auto).
  split; [exact Hin |]. split; [reflexivity |].
  intros ptr p'.
  destruct (@unresolved_symbol_is_fatal broken_runtime "free" 1
              (@process0 broken_runtime demo_heap) Hin eq_refl) as (_ & Hmalloc & _).
  apply Hmalloc; reflexivity.
Defined.

(** There the first [malloc] ends the process with status 1. *)
Example broken_first_malloc_exits :
  match @malloc broken_runtime 1 100 (@process0 broken_runtime demo_heap) with
  | Exits status q => status = 1 /\ @safiStats broken_runtime q = safiStats0
  | _ => False
  end.
Proof. vm_compute. split; reflexivity. Qed.

Lemma malloc_then_free_restores_reserved_witness :
  all_hooked (safiControl hooked) /\
  malloc 0 64 hooked = Returns 268435456 with_block /\
  in_temp_buffer 268435456 with_block = false /\
  exists p2,
    free 0 268435456 with_block = Returns tt p2 /\
    m_reserved (safiStats p2) = m_reserved (safiStats hooked).
Proof.
  assert (H0 : all_hooked (safiControl hooked)) by (repeat split).
  assert (Hm : malloc 0 64 hooked = Returns 268435456 with_block)
    by (vm_compute; reflexivity).
  assert (Hout : in_temp_buffer 268435456 with_block = false)
    by (vm_compute; reflexivity).
  split; [exact H0 |]. split; [exact Hm |]. split; [exact Hout |].
  destruct (malloc_then_free_restores_reserved 0 64 hooked with_block 268435456 H0)
    as (p2 & Hrun & Hres & _); try assumption.
  - unfold Int64.in_range; cbn; lia.
  - exists p2. auto.
Defined.

(** A program whose only call is one [malloc]: the closing report counts
    five of them and two releases, those of creating the thread, of
    deleting it and of the time routines included. *)
Example demo_main_summary :
  summary (demo_main entered)
  = Some (7,
          mkSafiStats 464 464 464 0 3 1 0 0 false false,
          mkSafiControl false false resolved resolved resolved resolved resolved,
          32,
          [CallMalloc 100; CallCalloc 1 304; CallMalloc 24; CallMalloc 8]) /\
  summary (main_hook 1 demo_main "Fri Oct 30 2026" entered)
  = Some (7,
          mkSafiStats 464 960 936 496 5 1 0 2 false true,
          mkSafiControl false false resolved resolved resolved resolved resolved,
          32,
          [CallFree 268435984; CallMalloc 472; CallMalloc 15;
           CallFree 268435456; CallMalloc 100; CallCalloc 1 304;
           CallMalloc 24; CallMalloc 8]).
Proof. split; vm_compute; reflexivity. Qed.

Lemma main_hook_returns_exit_code_witness :
  main_hook 1 demo_main "Fri Oct 30 2026" entered = Returns 7 after_demo_main /\
  exists q,
    demo_main entered = Returns 7 q /\
    m_disable_print (safiStats after_demo_main) = true /\
    accounted (set_safiStats (disablePrint (safiStats q)) q) after_demo_main.
Proof.
  assert (Hrun : main_hook 1 demo_main "Fri Oct 30 2026" entered
                 = Returns 7 after_demo_main) by (vm_compute; reflexivity).
  split; [exact Hrun |].
  destruct (main_hook_returns_exit_code 1 demo_main "Fri Oct 30 2026" entered
              after_demo_main 7 Hrun)
    as (q & q1 & q2 & Hq & _ & _ & _ & _ & Hflag & Hacc).
  exists q. auto.
Defined.

Lemma realloc_fallback_in_bootstrap_witness :
  pending_init (safiControl bootstrapping_later) = true /\
  orig_realloc (safiControl bootstrapping_later) = nullptr /\
  exists p',
    realloc 0 demo_temp_buffer 64 bootstrapping_later
      = Returns (temp_buffer + used_buffer_size bootstrapping_later) p' /\
    safiStats p' = safiStats bootstrapping_later.
Proof.
  split; [reflexivity |]. split; [reflexivity |].
  destruct (realloc_fallback_in_bootstrap 0 demo_temp_buffer 64 bootstrapping_later)
    as (p' & Hrun & _ & _ & Hs & _); try reflexivity.
  - cbn. unfold demo_temp_buffer. lia.
  - lia.
  - cbn. unfold TEMP_BUFFER_SIZE. lia.
  - exists p'. auto.
Defined.


(** An address of [temp_buffer] beyond the offset, here byte 100 of the
    array with 32 bytes handed out, is inside the array; [free] records a
    release for it and hands it to the original [free]. *)
Lemma free_beyond_the_offset_is_forwarded :
  temp_buffer <= demo_temp_buffer + 100 < temp_buffer + TEMP_BUFFER_SIZE /\
  used_buffer_size hooked = 32 /\
  summary (free 0 (demo_temp_buffer + 100) hooked)
  = Some (tt, mkSafiStats 0 0 0 0 0 0 0 1 false false, safiControl hooked, 32,
          [CallFree (demo_temp_buffer + 100)]) /\
  ~ (exists p',
       free 0 (demo_temp_buffer + 100) hooked = Returns tt p' /\
       safiStats p' = safiStats hooked /\
       libc_calls p' = libc_calls hooked).
Proof.
  assert (Hrun : summary (free 0 (demo_temp_buffer + 100) hooked)
                 = Some (tt, mkSafiStats 0 0 0 0 0 0 0 1 false false,
                         safiControl hooked, 32,
                         [CallFree (demo_temp_buffer + 100)]))
    by (vm_compute; reflexivity).
  split; [cbn; unfold demo_temp_buffer, TEMP_BUFFER_SIZE; lia |].
  split; [reflexivity |]. split; [exact Hrun |].
  intros (p' & Hp' & _ & Hl). rewrite Hp' in Hrun. cbn [summary] in Hrun.
  rewrite Hl in Hrun. discriminate.
Qed.

Lemma free_is_noop_up_to_the_offset_witness :
  temp_buffer <= 4194320 <= temp_buffer + used_buffer_size hooked /\
  (exists p',
     free 0 4194320 hooked = Returns tt p' /\
     safiStats p' = safiStats hooked /\
     libc_calls p' = libc_calls hooked) /\
  (exists p',
     free 0 (demo_temp_buffer + 100) hooked = Returns tt p' /\
     libc_calls p' = CallFree (demo_temp_buffer + 100) :: libc_calls hooked).
Proof.
  assert (Hin : temp_buffer <= 4194320 <= temp_buffer + used_buffer_size hooked)
    by (cbn; unfold demo_temp_buffer; lia).
  split; [exact Hin |].
  destruct (free_is_noop_up_to_the_offset 0 4194320 hooked Hin) as [Hnoop Hrest].
  split.
  - destruct Hnoop as (p' & Hrun & Hstats & Hcalls & _). exists p'. auto.
  - destruct (Hrest (demo_temp_buffer + 100)) as (p' & Hrun & _ & Hcalls & _).
    + cbn. unfold demo_temp_buffer. lia.
    + reflexivity.
    + exists p'. auto.
Defined.

(** The first call into the library being [calloc(10, 8)]: the two
    [malloc]s and the [calloc] of creating the thread are counted before
    the call's own request, which is counted as a [malloc]. *)
Example first_calloc_summary :
  summary (calloc 1 10 8 fresh)
  = Some (268435840,
          mkSafiStats 448 448 448 0 3 1 0 0 false false,
          mkSafiControl false false resolved resolved resolved resolved nullptr,
          32,
          [CallMalloc 80; CallCalloc 1 304; CallMalloc 24; CallMalloc 8]).
Proof. vm_compute. reflexivity. Qed.


End DemoCallRuns.
